(** * mcp2rest gateway: connection registry and tool dispatch

    A shallow embedding of [src/gateway/Gateway.ts] and of the declarations
    of [src/types/index.ts], followed by the properties the specification
    states about them.

    The gateway is asynchronous JavaScript.  Every method is embedded as a
    computation in a small monad [Async] that threads the [Gateway] object,
    may complete abruptly with a thrown [JsError], and records the calls made
    to the outside world (console, child processes, MCP client, timers,
    configuration manager) in a trace.  What the outside world answers is a
    parameter of each method.  In this first embedding a method runs from
    its call to the settling of its promise, and calls of methods follow
    one another.

    The part [EventLoop] embeds the five methods that the REST layer calls
    with the [await]s of the source, over a store of [ServerState] objects
    held by reference, so that calls overlap as the event loop lets them.
    A method run there on its own is the method of the first embedding. *)

From Stdlib Require Import Ascii Sorted.
From stdpp Require Import gmap strings list pretty.

Open Scope string_scope.
Open Scope list_scope.

(** ** JavaScript values and strings *)

(** Values of TypeScript type [any]: tool arguments, tool results, schemas. *)
#[local] Unset Elimination Schemes.
Inductive JsValue : Type :=
| JsUndefined
| JsNull
| JsBoolean (b : bool)
| JsNumber (n : Z)
| JsString (s : string)
| JsArray (items : list JsValue)
| JsObject (fields : list (string * JsValue)).
#[local] Set Elimination Schemes.

(** [s.startsWith(p)] *)
Fixpoint startsWith (p s : string) : bool :=
  match p with
  | EmptyString => true
  | String a p' =>
      match s with
      | EmptyString => false
      | String b s' => if Ascii.eqb a b then startsWith p' s' else false
      end
  end.

(** [s.includes(search)] *)
Fixpoint includes (search s : string) : bool :=
  startsWith search s ||
  match s with
  | EmptyString => false
  | String _ s' => includes search s'
  end.

(** A [Date] is observed by the gateway through [toISOString] only. *)
Record Date := { toISOString : string }.

Module Number.
(** A JavaScript number, known by its rendering [String(n)]: "30000",
    "1.5", "1e+21", "NaN", "Infinity".  Two numbers render alike only when
    they are [+0] and [-0], which nothing in the gateway tells apart.  The
    gateway tests a number for truthiness, renders it in a message and
    hands it to [setTimeout]. *)
Record t := of_string { toString : string }.

(** [!n]: the falsy numbers are [0], [-0] and [NaN]. *)
Definition falsy (n : t) : bool :=
  String.eqb (toString n) "0" || String.eqb (toString n) "NaN".

(** An integer literal of the source; integers below 10^21 in magnitude
    render as their decimal digits. *)
Definition of_Z (z : Z) : t := of_string (pretty z).
End Number.

(** An [Error] object; the gateway reads and writes its [message] only. *)
Record JsError := Error { message : string }.

(** ** The JavaScript [Map] with string keys

    Entries are kept in insertion order; [set] on a key that is present
    replaces the value in place, [set] on a new key appends. *)

Module JsMap.
Section ops.
Context {V : Type}.

Definition t := list (string * V).

Definition empty : t := [].

Fixpoint get (m : t) (k : string) : option V :=
  match m with
  | [] => None
  | (k', v) :: m' => if String.eqb k' k then Some v else get m' k
  end.

Definition has (m : t) (k : string) : bool :=
  match get m k with Some _ => true | None => false end.

Fixpoint set (m : t) (k : string) (v : V) : t :=
  match m with
  | [] => [(k, v)]
  | (k', v') :: m' =>
      if String.eqb k' k then (k', v) :: m' else (k', v') :: set m' k v
  end.

Fixpoint delete (m : t) (k : string) : t :=
  match m with
  | [] => []
  | (k', v') :: m' =>
      if String.eqb k' k then m' else (k', v') :: delete m' k
  end.

Definition entries (m : t) : list (string * V) := m.

Definition keys (m : t) : list string := map fst m.

(** A write through the object reference stored under [k]: the entry is
    changed where it stands, and nothing happens when [k] is absent. *)
Fixpoint mutate (m : t) (k : string) (f : V → V) : t :=
  match m with
  | [] => []
  | (k', v') :: m' =>
      if String.eqb k' k then (k', f v') :: m' else (k', v') :: mutate m' k f
  end.

(** Each key occurs once: what every [Map] satisfies. *)
Definition wf (m : t) : Prop := NoDup (keys m).

End ops.
Arguments t : clear implicits.
End JsMap.

(** ** A JavaScript object used as a record from names to values

    The own properties are held in the order of their creation, each key
    once.  [Object.keys] lists the keys that are array indices first, in
    ascending numeric order, and the other keys after them in the order of
    creation. *)

Module JsRecord.
Section ops.
Context {V : Type}.

Definition t := list (string * V).

(** [o[k]] *)
Definition get (o : t) (k : string) : option V := JsMap.get o k.

(** Each key occurs once. *)
Definition wf (o : t) : Prop := JsMap.wf o.

Definition digit (a : ascii) : option N :=
  let n := nat_of_ascii a in
  if Nat.leb 48 n && Nat.leb n 57 then Some (N.of_nat (n - 48)) else None.

Fixpoint digits (s : string) (acc : N) : option N :=
  match s with
  | EmptyString => Some acc
  | String a s' =>
      match digit a with
      | Some d => digits s' (10 * acc + d)%N
      | None => None
      end
  end.

(** The array index a key denotes: the key is the canonical decimal
    rendering of an integer from 0 to 2^32 - 2. *)
Definition array_index (k : string) : option N :=
  match k with
  | EmptyString => None
  | String a rest =>
      if Ascii.eqb a "0"
      then match rest with EmptyString => Some 0%N | String _ _ => None end
      else
        match digits k 0 with
        | Some n => if (n <? 4294967295)%N then Some n else None
        | None => None
        end
  end.

(** The properties whose keys are array indices, each with its index. *)
Fixpoint indexed (o : t) : list (N * (string * V)) :=
  match o with
  | [] => []
  | p :: o' =>
      match array_index p.1 with
      | Some n => (n, p) :: indexed o'
      | None => indexed o'
      end
  end.

(** The other properties. *)
Fixpoint named (o : t) : list (string * V) :=
  match o with
  | [] => []
  | p :: o' =>
      match array_index p.1 with
      | Some _ => named o'
      | None => p :: named o'
      end
  end.

Fixpoint insert (x : N * (string * V)) (l : list (N * (string * V)))
    : list (N * (string * V)) :=
  match l with
  | [] => [x]
  | y :: l' => if (x.1 <=? y.1)%N then x :: y :: l' else y :: insert x l'
  end.

Definition ascending (l : list (N * (string * V)))
    : list (N * (string * V)) :=
  foldr insert [] l.

(** The properties in the order of [Object.keys]. *)
Definition ordered (o : t) : list (string * V) :=
  map snd (ascending (indexed o)) ++ named o.

(** [Object.keys(o)] *)
Definition keys (o : t) : list string := map fst (ordered o).

End ops.
Arguments t : clear implicits.
End JsRecord.

(** ** src/types/index.ts *)

Module ErrorCode.
Inductive t :=
| SERVER_NOT_FOUND
| SERVER_DISCONNECTED
| SERVER_ADD_FAILED
| SERVER_ALREADY_EXISTS
| TOOL_NOT_FOUND
| TOOL_EXECUTION_ERROR
| TOOL_TIMEOUT
| INVALID_ARGUMENTS
| INVALID_CONFIG
| GATEWAY_ERROR
| DAEMON_NOT_RUNNING.

(** A string enum: the value of each member is its own name. *)
Definition value (c : t) : string :=
  match c with
  | SERVER_NOT_FOUND => "SERVER_NOT_FOUND"
  | SERVER_DISCONNECTED => "SERVER_DISCONNECTED"
  | SERVER_ADD_FAILED => "SERVER_ADD_FAILED"
  | SERVER_ALREADY_EXISTS => "SERVER_ALREADY_EXISTS"
  | TOOL_NOT_FOUND => "TOOL_NOT_FOUND"
  | TOOL_EXECUTION_ERROR => "TOOL_EXECUTION_ERROR"
  | TOOL_TIMEOUT => "TOOL_TIMEOUT"
  | INVALID_ARGUMENTS => "INVALID_ARGUMENTS"
  | INVALID_CONFIG => "INVALID_CONFIG"
  | GATEWAY_ERROR => "GATEWAY_ERROR"
  | DAEMON_NOT_RUNNING => "DAEMON_NOT_RUNNING"
  end.
End ErrorCode.

Module ServerConfig.
Record t := mk {
  name : string;
  package : string;
  args : option (list string)
}.
End ServerConfig.

Module Tool.
Record t := mk {
  name : string;
  description : option string;
  inputSchema : JsValue
}.
End Tool.

(** ['connected' | 'disconnected' | 'error' | 'reconnecting'] *)
Module Status.
Inductive t := connected | disconnected | error | reconnecting.

(** [a === b] on two status strings *)
Definition eqb (a b : t) : bool :=
  match a, b with
  | connected, connected | disconnected, disconnected
  | error, error | reconnecting, reconnecting => true
  | _, _ => false
  end.
End Status.

(** An MCP SDK [Client] object, known by its identity. *)
Inductive Client := ClientObject (id : nat).

Module ServerState.
Record t := mk {
  config : ServerConfig.t;
  status : Status.t;
  client : option Client;
  tools : list Tool.t;
  reconnectAttempts : Z;
  lastError : option string;
  lastConnected : option Date
}.
End ServerState.

Inductive LogLevel := debug | info | warn | error_level.

Module GatewaySettings.
(** The [gateway] member of [GatewayConfig].  [timeout] is [None] when the
    loaded object carries no such member ([undefined]). *)
Record t := mk {
  port : Number.t;
  host : string;
  timeout : option Number.t;
  logLevel : LogLevel
}.
End GatewaySettings.

Module GatewayConfig.
(** [servers] is the object of type [Record<string, ServerConfig>], its
    properties in the order of their creation. *)
Record t := mk {
  servers : JsRecord.t ServerConfig.t;
  gateway : GatewaySettings.t
}.
End GatewayConfig.

Module ServerInfo.
Record t := mk {
  name : string;
  package : string;
  status : Status.t;
  toolCount : nat;
  error : option string;
  lastConnected : option string
}.
End ServerInfo.

(** ** The outside world *)

(** Every call that leaves the gateway, in the order it is made. *)
Inductive Event :=
| ConsoleLog (text : string)
| ConsoleError (text : string)
| Spawn (command : string) (args : list string)
| ClientConnect (command : string) (args : list string)
| ClientListTools
| ClientCallTool (c : Client) (name : string) (arguments : JsValue)
| ClientClose (c : Client)
| SetTimeout (ms : Number.t)
| ConfigLoad
| ConfigAddServer (name : string) (cfg : ServerConfig.t)
| ConfigRemoveServer (name : string).

(** What [client.connect] and [client.listTools] answer in [connectServer];
    [now] is the value of [new Date()] after the tools were listed. *)
Inductive ConnectOutcome :=
| ConnectRejects (e : JsError)
| ListToolsRejects (c : Client) (e : JsError)
| Connected (c : Client) (listed : list Tool.t) (now : Date).

(** A rejected send is a transport failure (the channel is gone) or an
    application failure (the backend answered with an error).  The gateway
    sees the [Error] object only. *)
Inductive FailureKind := TransportFailure | ApplicationFailure.

Inductive SendOutcome :=
| SendResolves (result : JsValue)
| SendRejects (kind : FailureKind) (e : JsError).

(** Which promise of [Promise.race] settles first.  When the timer wins,
    [later] is what the send settles to afterwards, if it ever does. *)
Inductive RaceOutcome :=
| SendSettlesFirst (o : SendOutcome)
| TimerFiresFirst (later : option SendOutcome).

Inductive CloseOutcome := CloseResolves | CloseRejects (e : JsError).

Inductive PersistOutcome := PersistResolves | PersistRejects (e : JsError).

Module ConfigManager.
(** Modelled from the spec: [src/config/ConfigManager.ts] is not among the
    sources.  Section 6 of the specification gives its contract: [load]
    yields a mapping from name to backend spec, [persistAdd] and
    [persistRemove] each either fully succeed or fail without a partial
    write.  The object is represented by the mapping it has persisted. *)
Record t := mk { persisted : gmap string ServerConfig.t }.

Definition persistAdd (name : string) (cfg : ServerConfig.t)
    (o : PersistOutcome) (cm : t) : t :=
  match o with
  | PersistResolves => mk (<[name := cfg]> (persisted cm))
  | PersistRejects _ => cm
  end.

Definition persistRemove (name : string) (o : PersistOutcome) (cm : t) : t :=
  match o with
  | PersistResolves => mk (delete name (persisted cm))
  | PersistRejects _ => cm
  end.
End ConfigManager.

(** ** class Gateway *)

Record Gateway := mkGateway {
  servers : JsMap.t ServerState.t;
  config : GatewayConfig.t;
  configManager : ConfigManager.t
}.

Inductive Completion (A : Type) :=
| Return (a : A)
| Throw (e : JsError).
Arguments Return {A} a.
Arguments Throw {A} e.

Record Outcome (A : Type) := mkOutcome {
  completion : Completion A;
  final : Gateway;
  trace : list Event
}.
Arguments mkOutcome {A}.
Arguments completion {A}.
Arguments final {A}.
Arguments trace {A}.

Definition Async (A : Type) : Type := Gateway → Outcome A.

Definition ret {A} (a : A) : Async A :=
  λ g, mkOutcome (Return a) g [].

Definition throw {A} (e : JsError) : Async A :=
  λ g, mkOutcome (Throw e) g [].

Definition bind {A B} (m : Async A) (k : A → Async B) : Async B :=
  λ g,
    match m g with
    | mkOutcome (Return a) g' t =>
        match k a g' with
        | mkOutcome c g'' t' => mkOutcome c g'' (t ++ t')
        end
    | mkOutcome (Throw e) g' t => mkOutcome (Throw e) g' t
    end.

(** [try { m } catch (error) { handler error }] *)
Definition try_catch {A} (m : Async A) (handler : JsError → Async A) : Async A :=
  λ g,
    match m g with
    | mkOutcome (Return a) g' t => mkOutcome (Return a) g' t
    | mkOutcome (Throw e) g' t =>
        match handler e g' with
        | mkOutcome c g'' t' => mkOutcome c g'' (t ++ t')
        end
    end.

Definition emit (ev : Event) : Async unit :=
  λ g, mkOutcome (Return tt) g [ev].

Definition read {A} (f : Gateway → A) : Async A :=
  λ g, mkOutcome (Return (f g)) g [].

Definition write (f : Gateway → Gateway) : Async unit :=
  λ g, mkOutcome (Return tt) (f g) [].

Notation "'let*' x ':=' m 'in' k" := (bind m (λ x, k))
  (at level 10, x name, m at level 100, k at level 200).
Notation "m ';;' k" := (bind m (λ _, k))
  (at level 100, k at level 200, right associativity).

Definition with_servers (f : JsMap.t ServerState.t → JsMap.t ServerState.t)
    (g : Gateway) : Gateway :=
  mkGateway (f (servers g)) (config g) (configManager g).

Definition with_configManager (f : ConfigManager.t → ConfigManager.t)
    (g : Gateway) : Gateway :=
  mkGateway (servers g) (config g) (f (configManager g)).

(** [await this.configManager.addServer(name, serverConfig)] *)
Definition configManager_addServer (name : string) (cfg : ServerConfig.t)
    (o : PersistOutcome) : Async unit :=
  emit (ConfigAddServer name cfg) ;;
  write (with_configManager (ConfigManager.persistAdd name cfg o)) ;;
  match o with
  | PersistResolves => ret tt
  | PersistRejects e => throw e
  end.

(** [await this.configManager.removeServer(name)] *)
Definition configManager_removeServer (name : string)
    (o : PersistOutcome) : Async unit :=
  emit (ConfigRemoveServer name) ;;
  write (with_configManager (ConfigManager.persistRemove name o)) ;;
  match o with
  | PersistResolves => ret tt
  | PersistRejects e => throw e
  end.

(** [await client.close()] *)
Definition client_close (c : Client) (o : CloseOutcome) : Async unit :=
  emit (ClientClose c) ;;
  match o with
  | CloseResolves => ret tt
  | CloseRejects e => throw e
  end.

(** Writes to the fields of the [serverState] object held under [name]. *)
Definition update_serverState (name : string)
    (f : ServerState.t → ServerState.t) : Async unit :=
  write (with_servers (λ m, JsMap.mutate m name f)).

(** [serverConfig.args || []] *)
Definition args_or_empty (a : option (list string)) : list string :=
  match a with
  | Some l => l
  | None => []
  end.

(** [private async connectServer(name, serverConfig)] *)
Definition connectServer (name : string) (serverConfig : ServerConfig.t)
    (oc : ConnectOutcome) : Async unit :=
  emit (ConsoleLog ("Connecting to server '" +:+ name +:+ "' ("
                    +:+ ServerConfig.package serverConfig +:+ ")...")) ;;
  let serverState :=
    ServerState.mk serverConfig Status.disconnected None [] 0 None None in
  write (with_servers (λ m, JsMap.set m name serverState)) ;;
  try_catch
    (let args := ServerConfig.package serverConfig
                 :: args_or_empty (ServerConfig.args serverConfig) in
     emit (Spawn "npx" args) ;;
     emit (ClientConnect "npx" args) ;;
     match oc with
     | ConnectRejects e => throw e
     | ListToolsRejects _ e => emit ClientListTools ;; throw e
     | Connected client listed now =>
         emit ClientListTools ;;
         let tools :=
           map (λ tool, Tool.mk (Tool.name tool) (Tool.description tool)
                                (Tool.inputSchema tool)) listed in
         update_serverState name
           (λ st, ServerState.mk (ServerState.config st) Status.connected
                    (Some client) tools 0 (ServerState.lastError st)
                    (Some now)) ;;
         emit (ConsoleLog ("✓ Connected to server '" +:+ name +:+ "' with "
                           +:+ pretty (length tools) +:+ " tool(s)"))
     end)
    (λ error,
       update_serverState name
         (λ st, ServerState.mk (ServerState.config st) Status.error
                  (ServerState.client st) (ServerState.tools st)
                  (ServerState.reconnectAttempts st)
                  (Some (message error)) (ServerState.lastConnected st)) ;;
       emit (ConsoleError ("✗ Failed to connect to server '" +:+ name
                           +:+ "': " +:+ message error)) ;;
       throw error).

(** [this.config.gateway.timeout || 30000]: a falsy number gives way to
    the default, as does a missing member. *)
Definition timeout_or_default (t : option Number.t) : Number.t :=
  match t with
  | Some ms => if Number.falsy ms then Number.of_Z 30000 else ms
  | None => Number.of_Z 30000
  end.

(** [async callTool(serverName, toolName, args)] *)
Definition callTool (serverName toolName : string) (args : JsValue)
    (race : RaceOutcome) : Async JsValue :=
  let* found := read (λ g, JsMap.get (servers g) serverName) in
  match found with
  | None =>
      throw (Error (ErrorCode.value ErrorCode.SERVER_NOT_FOUND
                    +:+ ": Server '" +:+ serverName +:+ "' not found"))
  | Some serverState =>
      match Status.eqb (ServerState.status serverState) Status.connected,
            ServerState.client serverState with
      | true, Some client =>
          let* timeout :=
            read (λ g, timeout_or_default
                         (GatewaySettings.timeout
                            (GatewayConfig.gateway (config g)))) in
          emit (SetTimeout timeout) ;;
          try_catch
            (emit (ConsoleLog ("Executing tool '" +:+ toolName
                               +:+ "' on server '" +:+ serverName +:+ "'...")) ;;
             emit (ClientCallTool client toolName args) ;;
             let* result :=
               match race with
               | SendSettlesFirst (SendResolves result) => ret result
               | SendSettlesFirst (SendRejects _ e) => throw e
               | TimerFiresFirst _ =>
                   throw (Error (ErrorCode.value ErrorCode.TOOL_TIMEOUT
                                 +:+ ": Tool execution exceeded "
                                 +:+ Number.toString timeout
                                 +:+ "ms timeout"))
               end in
             emit (ConsoleLog ("✓ Tool '" +:+ toolName
                               +:+ "' executed successfully on server '"
                               +:+ serverName +:+ "'")) ;;
             ret result)
            (λ error,
               emit (ConsoleError ("✗ Tool execution failed: "
                                   +:+ message error)) ;;
               if includes (ErrorCode.value ErrorCode.TOOL_TIMEOUT)
                           (message error)
               then throw error
               else throw (Error (ErrorCode.value ErrorCode.TOOL_EXECUTION_ERROR
                                  +:+ ": " +:+ message error)))
      | _, _ =>
          throw (Error (ErrorCode.value ErrorCode.SERVER_DISCONNECTED
                        +:+ ": Server '" +:+ serverName
                        +:+ "' is not connected"))
      end
  end.

(** [getServerInfo()]: one [ServerInfo] per entry of the map, in the order
    of [this.servers.entries()]. *)
Definition getServerInfo : Async (list ServerInfo.t) :=
  let* entries := read (λ g, JsMap.entries (servers g)) in
  ret (map (λ '(name, state),
              ServerInfo.mk name
                (ServerConfig.package (ServerState.config state))
                (ServerState.status state)
                (length (ServerState.tools state))
                (ServerState.lastError state)
                (toISOString <$> ServerState.lastConnected state))
           entries).

(** [getServerTools(serverName)] *)
Definition getServerTools (serverName : string) : Async (list Tool.t) :=
  let* found := read (λ g, JsMap.get (servers g) serverName) in
  match found with
  | None =>
      throw (Error (ErrorCode.value ErrorCode.SERVER_NOT_FOUND
                    +:+ ": Server '" +:+ serverName +:+ "' not found"))
  | Some serverState => ret (ServerState.tools serverState)
  end.

(** [async addServer(name, pkg, args?)] *)
Definition addServer (name pkg : string) (args : option (list string))
    (op : PersistOutcome) (oc : ConnectOutcome) : Async unit :=
  let* present := read (λ g, JsMap.has (servers g) name) in
  if present then
    throw (Error (ErrorCode.value ErrorCode.SERVER_ALREADY_EXISTS
                  +:+ ": Server '" +:+ name +:+ "' already exists"))
  else
    let serverConfig := ServerConfig.mk name pkg args in
    try_catch
      (configManager_addServer name serverConfig op ;;
       connectServer name serverConfig oc ;;
       emit (ConsoleLog ("✓ Server '" +:+ name +:+ "' added successfully")))
      (λ error,
         emit (ConsoleError ("✗ Failed to add server '" +:+ name +:+ "': "
                             +:+ message error)) ;;
         throw (Error (ErrorCode.value ErrorCode.SERVER_ADD_FAILED
                       +:+ ": " +:+ message error))).

(** [async removeServer(name)] *)
Definition removeServer (name : string)
    (ocl : CloseOutcome) (op : PersistOutcome) : Async unit :=
  let* found := read (λ g, JsMap.get (servers g) name) in
  match found with
  | None =>
      throw (Error (ErrorCode.value ErrorCode.SERVER_NOT_FOUND
                    +:+ ": Server '" +:+ name +:+ "' not found"))
  | Some serverState =>
      try_catch
        (match ServerState.client serverState with
         | Some client => client_close client ocl
         | None => ret tt
         end ;;
         write (with_servers (λ m, JsMap.delete m name)) ;;
         configManager_removeServer name op ;;
         emit (ConsoleLog ("✓ Server '" +:+ name +:+ "' removed successfully")))
        (λ error,
           emit (ConsoleError ("✗ Failed to remove server '" +:+ name
                               +:+ "': " +:+ message error)) ;;
           throw error)
  end.

(** [for (const x of l) { body x }] *)
Fixpoint for_each {A} (l : list A) (body : A → Async unit) : Async unit :=
  match l with
  | [] => ret tt
  | x :: l' => body x ;; for_each l' body
  end.

(** [async shutdown()]; [closes] tells how the client of each server answers
    [close]. *)
Definition shutdown (closes : string → CloseOutcome) : Async unit :=
  emit (ConsoleLog "Shutting down MCP Gateway...") ;;
  let* entries := read (λ g, JsMap.entries (servers g)) in
  for_each entries
    (λ '(name, state),
       match ServerState.client state with
       | Some client =>
           try_catch
             (client_close client (closes name) ;;
              emit (ConsoleLog ("✓ Disconnected from server '" +:+ name +:+ "'")))
             (λ error,
                emit (ConsoleError ("✗ Error disconnecting from server '"
                                    +:+ name +:+ "': " +:+ message error)))
       | None => ret tt
       end) ;;
  write (with_servers (λ _, JsMap.empty)) ;;
  emit (ConsoleLog "Gateway shutdown complete").

(** What [configManager.load()] answers. *)
Inductive LoadOutcome :=
| LoadResolves (loaded : GatewayConfig.t)
| LoadRejects (e : JsError).

(** [async initialize()]; [configPath] is what
    [configManager.getConfigPath()] returns, [connects] tells how the
    connect to each configured server goes.  A name of [serverNames] is
    a key of [this.config.servers], so that the lookup under it in the loop
    finds a configuration. *)
Definition initialize (ol : LoadOutcome) (configPath : string)
    (connects : string → ConnectOutcome) : Async unit :=
  emit (ConsoleLog "Initializing MCP Gateway...") ;;
  emit ConfigLoad ;;
  match ol with
  | LoadRejects e => throw e
  | LoadResolves loaded =>
      write (λ g, mkGateway (servers g) loaded (configManager g)) ;;
      emit (ConsoleLog ("Configuration loaded from " +:+ configPath)) ;;
      let serverNames := JsRecord.keys (GatewayConfig.servers loaded) in
      emit (ConsoleLog ("Found " +:+ pretty (length serverNames)
                        +:+ " server(s) in configuration")) ;;
      for_each serverNames
        (λ name,
           match JsRecord.get (GatewayConfig.servers loaded) name with
           | Some serverConfig =>
               try_catch
                 (connectServer name serverConfig (connects name))
                 (λ error,
                    emit (ConsoleError ("Failed to connect to server '"
                                        +:+ name +:+ "': "
                                        +:+ message error)))
           | None => ret tt
           end) ;;
      emit (ConsoleLog "Gateway initialization complete")
  end.

(** [new Gateway(configManager)]; [defaultConfig] is what
    [configManager.getDefaultConfig()] returns. *)
Definition constructor (configManager : ConfigManager.t)
    (defaultConfig : GatewayConfig.t) : Gateway :=
  mkGateway JsMap.empty defaultConfig configManager.

(** ** Reading results *)

(** The REST layer reads the code of a thrown error back from the head of
    its message, [errorMessage.match(/^([A-Z_]+):/)]. *)
Definition is_code_char (a : ascii) : bool :=
  let n := nat_of_ascii a in
  (Nat.leb 65 n && Nat.leb n 90) || Nat.eqb n 95.

Fixpoint code_run (s : string) : option string :=
  match s with
  | EmptyString => None
  | String a s' =>
      if is_code_char a then String a <$> code_run s'
      else if Ascii.eqb a ":"%char then Some EmptyString
      else None
  end.

Definition errorCodeMatch (errorMessage : string) : option string :=
  match code_run errorMessage with
  | Some EmptyString => None
  | r => r
  end.

(** The computation was rejected with an error carrying [code]. *)
Definition fails_with {A} (code : ErrorCode.t) (c : Completion A) : Prop :=
  match c with
  | Return _ => False
  | Throw e => errorCodeMatch (message e) = Some (ErrorCode.value code)
  end.

Definition is_send (ev : Event) : bool :=
  match ev with ClientCallTool _ _ _ => true | _ => false end.

Definition is_timer (ev : Event) : bool :=
  match ev with SetTimeout _ => true | _ => false end.

(** Events by which a connection to a backend is attempted. *)
Definition is_connect_attempt (ev : Event) : bool :=
  match ev with Spawn _ _ | ClientConnect _ _ => true | _ => false end.

(** The snapshot [getServerInfo] takes of one entry. *)
Definition snapshot (name : string) (state : ServerState.t) : ServerInfo.t :=
  ServerInfo.mk name
    (ServerConfig.package (ServerState.config state))
    (ServerState.status state)
    (length (ServerState.tools state))
    (ServerState.lastError state)
    (toISOString <$> ServerState.lastConnected state).

(** The backend is ready for dispatch: connected, with a live client. *)
Definition ready (g : Gateway) (serverName : string) (c : Client) : Prop :=
  ∃ st, JsMap.get (servers g) serverName = Some st
        ∧ ServerState.status st = Status.connected
        ∧ ServerState.client st = Some c.

(** Registry and persisted configuration know the same names. *)
Definition consistent (g : Gateway) : Prop :=
  ∀ n, JsMap.has (servers g) n = true
       ↔ is_Some (ConfigManager.persisted (configManager g) !! n).

(** *** Requests: the operations the REST layer invokes on a gateway *)

Inductive Request :=
| CallTool (serverName toolName : string) (args : JsValue) (race : RaceOutcome)
| GetServerInfo
| GetServerTools (serverName : string)
| AddServer (name pkg : string) (args : option (list string))
    (op : PersistOutcome) (oc : ConnectOutcome)
| RemoveServer (name : string) (ocl : CloseOutcome) (op : PersistOutcome).

(** The gateway after serving one request, from the call of the method to
    the settling of its promise. *)
Definition serve (rq : Request) (g : Gateway) : Gateway :=
  match rq with
  | CallTool s t a race => final (callTool s t a race g)
  | GetServerInfo => final (getServerInfo g)
  | GetServerTools s => final (getServerTools s g)
  | AddServer n p a op oc => final (addServer n p a op oc g)
  | RemoveServer n ocl op => final (removeServer n ocl op g)
  end.

(** The gateway after serving the requests one after the other, each
    served to its end before the next is begun.  Requests that overlap are
    the subject of [EventLoop]. *)
Definition serve_all (rqs : list Request) (g : Gateway) : Gateway :=
  foldl (λ g rq, serve rq g) g rqs.

Definition removes (name : string) (rq : Request) : Prop :=
  match rq with
  | RemoveServer n _ _ => n = name
  | _ => False
  end.

(** ** Vocabulary of the statements *)

(** *** Outcomes of the methods *)

(** The timeout [callTool] reads from the configuration. *)
Definition configured_timeout (g : Gateway) : option Number.t :=
  GatewaySettings.timeout (GatewayConfig.gateway (config g)).

(** The error with which the timer of [callTool] rejects. *)
Definition timeout_error (timeout : Number.t) : JsError :=
  Error ("TOOL_TIMEOUT: Tool execution exceeded " +:+ Number.toString timeout
         +:+ "ms timeout").

(** What [callTool] does before it awaits the race. *)
Definition callTool_prologue (timeout : Number.t) (c : Client)
    (serverName toolName : string) (args : JsValue) : list Event :=
  [SetTimeout timeout;
   ConsoleLog ("Executing tool '" +:+ toolName +:+ "' on server '"
               +:+ serverName +:+ "'...");
   ClientCallTool c toolName args].

(** The states [connectServer] leaves a backend in. *)
Definition connected_state (cfg : ServerConfig.t) (c : Client)
    (tools : list Tool.t) (now : Date) : ServerState.t :=
  ServerState.mk cfg Status.connected (Some c) tools 0 None (Some now).

Definition failed_state (cfg : ServerConfig.t) (e : JsError) : ServerState.t :=
  ServerState.mk cfg Status.error None [] 0 (Some (message e)) None.

Definition state_after_connect (cfg : ServerConfig.t) (oc : ConnectOutcome)
    : ServerState.t :=
  match oc with
  | ConnectRejects e | ListToolsRejects _ e => failed_state cfg e
  | Connected c listed now => connected_state cfg c listed now
  end.

(** The error by which the connect fails, if it does. *)
Definition connect_error (oc : ConnectOutcome) : option JsError :=
  match oc with
  | ConnectRejects e | ListToolsRejects _ e => Some e
  | Connected _ _ _ => None
  end.

(** The calls by which [removeServer] closes the client of [st]. *)
Definition close_events (st : ServerState.t) : list Event :=
  match ServerState.client st with
  | Some c => [ClientClose c]
  | None => []
  end.

(** The error by which closing the client of [st] fails, if it does. *)
Definition close_error (st : ServerState.t) (ocl : CloseOutcome)
    : option JsError :=
  match ServerState.client st, ocl with
  | Some _, CloseRejects e => Some e
  | _, _ => None
  end.

(** [listServers]: what [getServerInfo] returns. *)
Definition listServers (g : Gateway) : list ServerInfo.t :=
  match completion (getServerInfo g) with
  | Return infos => infos
  | Throw _ => []
  end.

Definition listed_names (g : Gateway) : list string :=
  map ServerInfo.name (listServers g).

(** No reconnect is under way for the backend and none has been counted. *)
Definition not_reconnecting (st : ServerState.t) : Prop :=
  ServerState.reconnectAttempts st = 0%Z
  ∧ ServerState.status st ≠ Status.reconnecting.

Definition never_reconnecting (g : Gateway) : Prop :=
  Forall (λ entry, not_reconnecting entry.2) (JsMap.entries (servers g)).

(** C2, as the specification states it: the timer is set to the configured
    value whenever one is configured. *)
Definition timer_is_configured_value (g : Gateway) (serverName : string)
    (toolName : string) (args : JsValue) (race : RaceOutcome) : Prop :=
  ∀ t, configured_timeout g = Some t →
       filter is_timer (trace (callTool serverName toolName args race g))
       = [SetTimeout t].

(** *** Example gateways *)

Definition example_settings (timeout : option Z) : GatewaySettings.t :=
  GatewaySettings.mk (Number.of_Z 3000) "localhost" (Number.of_Z <$> timeout)
    info.

Definition navigate_tool : Tool.t :=
  Tool.mk "navigate" (Some "Open a URL")
    (JsObject [("type", JsString "object")]).

(** A fresh gateway whose configuration carries [timeout]. *)
Definition fresh_gateway (timeout : option Z) : Gateway :=
  constructor (ConfigManager.mk ∅)
    (GatewayConfig.mk [] (example_settings timeout)).

(** The same after ["chrome"] has been added and has connected. *)
Definition chrome_gateway (timeout : option Z) : Gateway :=
  final (addServer "chrome" "chrome-devtools-mcp@latest"
           (Some ["--headless=true"]) PersistResolves
           (Connected (ClientObject 1) [navigate_tool]
              {| toISOString := "2025-10-23T14:33:02.000Z" |})
           (fresh_gateway timeout)).

(** The same after adding ["fs"] has failed at the first connect. *)
Definition chrome_fs_gateway : Gateway :=
  final (addServer "fs" "@modelcontextprotocol/server-filesystem" None
           PersistResolves (ConnectRejects (Error "MCP error -32000: Connection closed"))
           (chrome_gateway (Some 30000%Z))).

(** ** src/api/APIServer.ts

    The REST layer that calls the gateway.  A handler is embedded as the
    computation of the response it sends.  Strings are held in UTF-8, so
    that the character classes of the regular expressions are tests on
    bytes: the members of [[A-Z_]] and the colon are single bytes, the
    members of [\s] are one to three bytes long. *)

Inductive ResponseBody :=
| CallOk (result : JsValue)
| AddOk (message : string)
| ServerList (listed : list ServerInfo.t)
| ToolList (tools : list Tool.t)
| Health (serverCount connectedServers : nat)
| ErrorBody (code message : string).

(** What a handler sends: [res.status(statusCode).json(body)], where
    [res.json(body)] alone sends status 200. *)
Record Response := mkResponse {
  statusCode : Z;
  body : ResponseBody
}.

(** One-byte members of [\s]: TAB, LF, VT, FF, CR, SPACE. *)
Definition space1 (a : nat) : bool :=
  (Nat.leb 9 a && Nat.leb a 13) || Nat.eqb a 32.

(** Two-byte members of [\s]: U+00A0. *)
Definition space2 (a b : nat) : bool :=
  Nat.eqb a 194 && Nat.eqb b 160.

(** Three-byte members of [\s]: U+1680, U+2000 to U+200A, U+2028, U+2029,
    U+202F, U+205F, U+3000, U+FEFF. *)
Definition space3 (a b c : nat) : bool :=
  (Nat.eqb a 225 && Nat.eqb b 154 && Nat.eqb c 128)
  || (Nat.eqb a 226 && Nat.eqb b 128
      && ((Nat.leb 128 c && Nat.leb c 138)
          || Nat.eqb c 168 || Nat.eqb c 169 || Nat.eqb c 175))
  || (Nat.eqb a 226 && Nat.eqb b 129 && Nat.eqb c 159)
  || (Nat.eqb a 227 && Nat.eqb b 128 && Nat.eqb c 128)
  || (Nat.eqb a 239 && Nat.eqb b 187 && Nat.eqb c 191).

(** The rest of [s] after the longest match of [\s*] at its head. *)
Fixpoint skip_spaces (s : string) : string :=
  match s with
  | EmptyString => s
  | String c1 r1 =>
      if space1 (nat_of_ascii c1) then skip_spaces r1
      else
        match r1 with
        | EmptyString => s
        | String c2 r2 =>
            if space2 (nat_of_ascii c1) (nat_of_ascii c2) then skip_spaces r2
            else
              match r2 with
              | EmptyString => s
              | String c3 r3 =>
                  if space3 (nat_of_ascii c1) (nat_of_ascii c2)
                       (nat_of_ascii c3)
                  then skip_spaces r3
                  else s
              end
        end
  end.

(** The rest of [s] after a run of [[A-Z_]] and the colon that ends it. *)
Fixpoint after_code_run (s : string) : option string :=
  match s with
  | EmptyString => None
  | String a s' =>
      if is_code_char a then after_code_run s'
      else if Ascii.eqb a ":" then Some s'
      else None
  end.

(** [errorMessage.replace(/^[A-Z_]+:\s*/, '')] *)
Definition stripErrorCode (errorMessage : string) : string :=
  match errorCodeMatch errorMessage, after_code_run errorMessage with
  | Some _, Some rest => skip_spaces rest
  | _, _ => errorMessage
  end.

(** [message || fallback] on strings: the empty string is falsy. *)
Definition message_or (message fallback : string) : string :=
  if String.eqb message "" then fallback else message.

(** [!x] on a member of the request body that is a string when present:
    [undefined] and the empty string are falsy. *)
Definition given (x : option string) : option string :=
  match x with
  | Some s => if String.eqb s "" then None else Some s
  | None => None
  end.

(** JavaScript truthiness. *)
Definition truthy (v : JsValue) : bool :=
  match v with
  | JsUndefined | JsNull => false
  | JsBoolean b => b
  | JsNumber n => negb (n =? 0)%Z
  | JsString s => negb (String.eqb s "")
  | JsArray _ | JsObject _ => true
  end.

(** The error response of a handler: the code is read from the head of the
    message, [fallbackCode] standing in when there is none, and
    [statusFor] picks the status for the code. *)
Definition error_response (fallbackCode : ErrorCode.t)
    (statusFor : string → Z) (error : JsError) : Response :=
  let errorMessage := message_or (message error) "Unknown error" in
  let errorCode :=
    match errorCodeMatch errorMessage with
    | Some code => code
    | None => ErrorCode.value fallbackCode
    end in
  mkResponse (statusFor errorCode)
    (ErrorBody errorCode (stripErrorCode errorMessage)).

(** The status [handleCallTool] gives an error code. *)
Definition callTool_status (errorCode : string) : Z :=
  if String.eqb errorCode (ErrorCode.value ErrorCode.SERVER_NOT_FOUND)
     || String.eqb errorCode (ErrorCode.value ErrorCode.TOOL_NOT_FOUND)
  then 404
  else if String.eqb errorCode (ErrorCode.value ErrorCode.SERVER_DISCONNECTED)
  then 503
  else if String.eqb errorCode (ErrorCode.value ErrorCode.TOOL_TIMEOUT)
  then 504
  else 500.

(** [handleCallTool]: POST /call with body [{ server, tool, arguments }]. *)
Definition handleCallTool (server tool : option string) (args : JsValue)
    (race : RaceOutcome) : Async Response :=
  try_catch
    (match given server, given tool with
     | Some server, Some tool =>
         let* result :=
           callTool server tool (if truthy args then args else JsObject [])
             race in
         ret (mkResponse 200 (CallOk result))
     | _, _ =>
         ret (mkResponse 400
                (ErrorBody (ErrorCode.value ErrorCode.INVALID_ARGUMENTS)
                   "Missing required fields: server and tool"))
     end)
    (λ error,
       ret (error_response ErrorCode.TOOL_EXECUTION_ERROR callTool_status
              error)).

(** [handleGetServers]: GET /servers. *)
Definition handleGetServers : Async Response :=
  try_catch
    (let* servers := getServerInfo in
     ret (mkResponse 200 (ServerList servers)))
    (λ error,
       ret (mkResponse 500
              (ErrorBody (ErrorCode.value ErrorCode.GATEWAY_ERROR)
                 (message_or (message error)
                    "Failed to retrieve server information")))).

(** The status [handleAddServer] gives an error code. *)
Definition addServer_status (errorCode : string) : Z :=
  if String.eqb errorCode (ErrorCode.value ErrorCode.SERVER_ALREADY_EXISTS)
  then 409
  else 500.

(** [handleAddServer]: POST /servers with body [{ name, package, args }]. *)
Definition handleAddServer (name pkg : option string)
    (args : option (list string)) (op : PersistOutcome)
    (oc : ConnectOutcome) : Async Response :=
  try_catch
    (match given name, given pkg with
     | Some name, Some pkg =>
         addServer name pkg args op oc ;;
         ret (mkResponse 201
                (AddOk ("Server '" +:+ name +:+ "' added successfully")))
     | _, _ =>
         ret (mkResponse 400
                (ErrorBody (ErrorCode.value ErrorCode.INVALID_ARGUMENTS)
                   "Missing required fields: name and package"))
     end)
    (λ error,
       ret (error_response ErrorCode.SERVER_ADD_FAILED addServer_status
              error)).

(** The status [handleGetServerTools] gives an error code. *)
Definition getServerTools_status (errorCode : string) : Z :=
  if String.eqb errorCode (ErrorCode.value ErrorCode.SERVER_NOT_FOUND)
  then 404
  else 500.

(** [handleGetServerTools]: GET /servers/:name/tools. *)
Definition handleGetServerTools (name : string) : Async Response :=
  try_catch
    (let* tools := getServerTools name in
     ret (mkResponse 200 (ToolList tools)))
    (λ error,
       ret (error_response ErrorCode.GATEWAY_ERROR getServerTools_status
              error)).

(** [handleHealthCheck]: GET /health. *)
Definition handleHealthCheck : Async Response :=
  try_catch
    (let* servers := getServerInfo in
     let connectedCount :=
       length (List.filter
                 (λ s, Status.eqb (ServerInfo.status s) Status.connected)
                 servers) in
     ret (mkResponse 200 (Health (length servers) connectedCount)))
    (λ error,
       ret (mkResponse 500
              (ErrorBody (ErrorCode.value ErrorCode.GATEWAY_ERROR)
                 (message_or (message error) "Health check failed")))).

(** *** Vocabulary for the further properties *)

Definition is_close (ev : Event) : bool :=
  match ev with ClientClose _ => true | _ => false end.

Definition is_persist (ev : Event) : bool :=
  match ev with
  | ConfigAddServer _ _ | ConfigRemoveServer _ => true
  | _ => false
  end.

(** The clients held in the registry, in its order. *)
Definition clients_of (m : JsMap.t ServerState.t) : list Client :=
  omap (λ entry, ServerState.client entry.2) m.

(** What [connectServer] leaves behind, told from the state alone: a
    connected backend has its client and the time of the connect, a failed
    one has no client, no tools and the message of the failure. *)
Definition settled (st : ServerState.t) : Prop :=
  ServerState.reconnectAttempts st = 0%Z
  ∧ ((ServerState.status st = Status.connected
      ∧ is_Some (ServerState.client st)
      ∧ is_Some (ServerState.lastConnected st)
      ∧ ServerState.lastError st = None)
     ∨ (ServerState.status st = Status.error
        ∧ ServerState.client st = None
        ∧ ServerState.tools st = []
        ∧ is_Some (ServerState.lastError st)
        ∧ ServerState.lastConnected st = None)).

Definition all_settled (g : Gateway) : Prop :=
  Forall (λ entry, settled entry.2) (JsMap.entries (servers g)).

(** The loop body of [initialize]. *)
Definition initialize_member (connects : string → ConnectOutcome)
    (members : JsRecord.t ServerConfig.t) (name : string) : Async unit :=
  match JsRecord.get members name with
  | Some serverConfig =>
      try_catch
        (connectServer name serverConfig (connects name))
        (λ error,
           emit (ConsoleError ("Failed to connect to server '" +:+ name
                               +:+ "': " +:+ message error)))
  | None => ret tt
  end.

(** The loop body of [shutdown]. *)
Definition shutdown_entry (closes : string → CloseOutcome)
    (entry : string * ServerState.t) : Async unit :=
  let '(name, state) := entry in
  match ServerState.client state with
  | Some client =>
      try_catch
        (client_close client (closes name) ;;
         emit (ConsoleLog ("✓ Disconnected from server '" +:+ name +:+ "'")))
        (λ error,
           emit (ConsoleError ("✗ Error disconnecting from server '"
                               +:+ name +:+ "': " +:+ message error)))
  | None => ret tt
  end.

(** The registry after the loop of [initialize] has run over [names]. *)
Definition registered_all (connects : string → ConnectOutcome)
    (members : JsRecord.t ServerConfig.t) (names : list string)
    (m : JsMap.t ServerState.t) : JsMap.t ServerState.t :=
  foldl (λ m name,
           match JsRecord.get members name with
           | Some serverConfig =>
               JsMap.set m name
                 (state_after_connect serverConfig (connects name))
           | None => m
           end)
    m names.

(** The command line [connectServer] starts a backend with. *)
Definition command_line (cfg : ServerConfig.t) : list string :=
  ServerConfig.package cfg :: args_or_empty (ServerConfig.args cfg).

(** The connect attempts for a list of configured servers, in its order. *)
Definition connect_attempts (members : list (string * ServerConfig.t))
    : list Event :=
  concat (map (λ member, [Spawn "npx" (command_line member.2);
                          ClientConnect "npx" (command_line member.2)])
              members).

(** ** The event loop

    JavaScript runs one piece of code at a time, and an [async] method runs
    only as far as its next [await]: there it gives way, and it goes on in a
    later turn of the event loop, once the promise it awaits has settled.
    In between, other calls of the gateway run: the REST layer calls
    [callTool], [getServerInfo], [getServerTools], [addServer] and
    [removeServer] as the requests come in, and does not wait for one to
    finish before it starts the next.

    In this part the five methods are embedded as programs with the
    [await]s where the source has them, over a store in which the
    [ServerState] objects are held by reference: a method that has created
    such an object writes to that object when it goes on, wherever the
    object is then registered.  A program run with every promise settling
    at once is the method of the first part. *)

Module EventLoop.

(** A reference to a [ServerState] object: its place among the objects
    created so far.  Objects are never taken out of the store. *)
Abbreviation Ref := nat (only parsing).

Record Store := mkStore {
  objects : list ServerState.t;
  this_servers : JsMap.t Ref;
  this_config : GatewayConfig.t;
  this_configManager : ConfigManager.t
}.

(** The promises the methods await. *)
Inductive Promise :=
| ConfigAddServerPromise
| ConnectPromise
| ListToolsPromise
| RacePromise
| ClosePromise
| ConfigRemoveServerPromise
| AsyncFunctionPromise.

(** What the settling of a promise tells the method that awaits it.  The
    promise of an [async] function of the gateway tells nothing: how the
    function completed is known to the program. *)
Definition answer (p : Promise) : Type :=
  match p with
  | ConfigAddServerPromise => PersistOutcome
  | ConnectPromise => Completion Client
  | ListToolsPromise => Completion (list Tool.t * Date)
  | RacePromise => RaceOutcome
  | ClosePromise => CloseOutcome
  | ConfigRemoveServerPromise => PersistOutcome
  | AsyncFunctionPromise => unit
  end.

(** What a method does in one go: calls to the outside world, which are
    recorded, and reads and writes of the store.  [ServersGet] yields the
    reference held under a name together with the fields of the object as
    they are at that moment: the methods read the fields of an object they
    have looked up before they give way, never after.  A reference held in
    [this.servers] is to an object of the store ([well_formed] below), so
    that the fields are found whenever the name is. *)
Inductive Op : Type → Type :=
| Emit (ev : Event) : Op unit
| NewServerState (st : ServerState.t) : Op Ref
| Assign (r : Ref) (f : ServerState.t → ServerState.t) : Op unit
| ServersGet (name : string) : Op (option (Ref * ServerState.t))
| ServersHas (name : string) : Op bool
| ServersSet (name : string) (r : Ref) : Op unit
| ServersDelete (name : string) : Op unit
| ServersEntries : Op (list (string * ServerState.t))
| ReadConfig : Op GatewayConfig.t
| ConfigManagerWrite (f : ConfigManager.t → ConfigManager.t) : Op unit.

(** The entries of [this.servers], each name with the fields of its
    object. *)
Definition entries (s : Store) : list (string * ServerState.t) :=
  omap (λ entry : string * Ref, (entry.1,.) <$> objects s !! entry.2)
       (this_servers s).

Definition perform {X} (op : Op X) (s : Store) : X * Store * list Event :=
  match op in Op X return X * Store * list Event with
  | Emit ev => (tt, s, [ev])
  | NewServerState st =>
      (length (objects s),
       mkStore (objects s ++ [st]) (this_servers s) (this_config s)
         (this_configManager s),
       [])
  | Assign r f =>
      (tt,
       mkStore (alter f r (objects s)) (this_servers s) (this_config s)
         (this_configManager s),
       [])
  | ServersGet name =>
      (match JsMap.get (this_servers s) name with
       | Some r => (r,.) <$> objects s !! r
       | None => None
       end, s, [])
  | ServersHas name => (JsMap.has (this_servers s) name, s, [])
  | ServersSet name r =>
      (tt,
       mkStore (objects s) (JsMap.set (this_servers s) name r)
         (this_config s) (this_configManager s),
       [])
  | ServersDelete name =>
      (tt,
       mkStore (objects s) (JsMap.delete (this_servers s) name)
         (this_config s) (this_configManager s),
       [])
  | ServersEntries => (entries s, s, [])
  | ReadConfig => (this_config s, s, [])
  | ConfigManagerWrite f =>
      (tt,
       mkStore (objects s) (this_servers s) (this_config s)
         (f (this_configManager s)),
       [])
  end.

(** A method: it is done, it throws, it does something and goes on, or it
    awaits a promise and goes on with what the promise settles to. *)
Inductive Prog (A : Type) : Type :=
| Done (a : A)
| Raise (e : JsError)
| Step {X : Type} (op : Op X) (k : X → Prog A)
| Await (p : Promise) (k : answer p → Prog A).
Arguments Done {A} a.
Arguments Raise {A} e.
Arguments Step {A X} op k.
Arguments Await {A} p k.

Fixpoint bind {A B} (m : Prog A) (f : A → Prog B) : Prog B :=
  match m with
  | Done a => f a
  | Raise e => Raise e
  | Step op k => Step op (λ x, bind (k x) f)
  | Await p k => Await p (λ x, bind (k x) f)
  end.

(** [try { m } catch (error) { handler error }] *)
Fixpoint try_catch {A} (m : Prog A) (handler : JsError → Prog A) : Prog A :=
  match m with
  | Done a => Done a
  | Raise e => handler e
  | Step op k => Step op (λ x, try_catch (k x) handler)
  | Await p k => Await p (λ x, try_catch (k x) handler)
  end.

Declare Scope prog_scope.
Notation "'let*' x ':=' m 'in' k" := (bind m (λ x, k))
  (at level 10, x name, m at level 100, k at level 200) : prog_scope.
Notation "m ';;' k" := (bind m (λ _, k))
  (at level 100, k at level 200, right associativity) : prog_scope.
#[local] Open Scope prog_scope.

Definition ret {A} (a : A) : Prog A := Done a.
Definition throw {A} (e : JsError) : Prog A := Raise e.
Definition do {X} (op : Op X) : Prog X := Step op Done.
Definition emit (ev : Event) : Prog unit := do (Emit ev).
Definition await (p : Promise) : Prog (answer p) := Await p Done.

(** [await f(...)] for an [async] function [f] of the gateway: the caller
    goes on in a later turn of the event loop, once [f] has returned or
    thrown. *)
Definition await_async {A} (m : Prog A) : Prog A :=
  try_catch
    (let* a := m in await AsyncFunctionPromise ;; ret a)
    (λ error, await AsyncFunctionPromise ;; throw error).

(** [await this.configManager.addServer(name, serverConfig)] *)
Definition configManager_addServer (name : string) (cfg : ServerConfig.t)
    : Prog unit :=
  emit (ConfigAddServer name cfg) ;;
  let* o := await ConfigAddServerPromise in
  do (ConfigManagerWrite (ConfigManager.persistAdd name cfg o)) ;;
  match o with
  | PersistResolves => ret tt
  | PersistRejects e => throw e
  end.

(** [await this.configManager.removeServer(name)] *)
Definition configManager_removeServer (name : string) : Prog unit :=
  emit (ConfigRemoveServer name) ;;
  let* o := await ConfigRemoveServerPromise in
  do (ConfigManagerWrite (ConfigManager.persistRemove name o)) ;;
  match o with
  | PersistResolves => ret tt
  | PersistRejects e => throw e
  end.

(** [await client.close()] *)
Definition client_close (c : Client) : Prog unit :=
  emit (ClientClose c) ;;
  let* o := await ClosePromise in
  match o with
  | CloseResolves => ret tt
  | CloseRejects e => throw e
  end.

(** [private async connectServer(name, serverConfig)] *)
Definition connectServer (name : string) (serverConfig : ServerConfig.t)
    : Prog unit :=
  emit (ConsoleLog ("Connecting to server '" +:+ name +:+ "' ("
                    +:+ ServerConfig.package serverConfig +:+ ")...")) ;;
  let* serverState :=
    do (NewServerState
          (ServerState.mk serverConfig Status.disconnected None [] 0 None
             None)) in
  do (ServersSet name serverState) ;;
  try_catch
    (let args := ServerConfig.package serverConfig
                 :: args_or_empty (ServerConfig.args serverConfig) in
     emit (Spawn "npx" args) ;;
     emit (ClientConnect "npx" args) ;;
     let* connected := await ConnectPromise in
     match connected with
     | Throw e => throw e
     | Return client =>
         emit ClientListTools ;;
         let* toolsResponse := await ListToolsPromise in
         match toolsResponse with
         | Throw e => throw e
         | Return (listed, now) =>
             let tools :=
               map (λ tool, Tool.mk (Tool.name tool) (Tool.description tool)
                                    (Tool.inputSchema tool)) listed in
             do (Assign serverState
                   (λ st, ServerState.mk (ServerState.config st)
                            Status.connected (Some client) tools 0
                            (ServerState.lastError st) (Some now))) ;;
             emit (ConsoleLog ("✓ Connected to server '" +:+ name
                               +:+ "' with " +:+ pretty (length tools)
                               +:+ " tool(s)"))
         end
     end)
    (λ error,
       do (Assign serverState
             (λ st, ServerState.mk (ServerState.config st) Status.error
                      (ServerState.client st) (ServerState.tools st)
                      (ServerState.reconnectAttempts st)
                      (Some (message error))
                      (ServerState.lastConnected st))) ;;
       emit (ConsoleError ("✗ Failed to connect to server '" +:+ name
                           +:+ "': " +:+ message error)) ;;
       throw error).

(** [async callTool(serverName, toolName, args)] *)
Definition callTool (serverName toolName : string) (args : JsValue)
    : Prog JsValue :=
  let* found := do (ServersGet serverName) in
  match found with
  | None =>
      throw (Error (ErrorCode.value ErrorCode.SERVER_NOT_FOUND
                    +:+ ": Server '" +:+ serverName +:+ "' not found"))
  | Some (_, serverState) =>
      match Status.eqb (ServerState.status serverState) Status.connected,
            ServerState.client serverState with
      | true, Some client =>
          let* config := do ReadConfig in
          let timeout :=
            timeout_or_default
              (GatewaySettings.timeout (GatewayConfig.gateway config)) in
          emit (SetTimeout timeout) ;;
          try_catch
            (emit (ConsoleLog ("Executing tool '" +:+ toolName
                               +:+ "' on server '" +:+ serverName +:+ "'...")) ;;
             emit (ClientCallTool client toolName args) ;;
             let* race := await RacePromise in
             let* result :=
               match race with
               | SendSettlesFirst (SendResolves result) => ret result
               | SendSettlesFirst (SendRejects _ e) => throw e
               | TimerFiresFirst _ =>
                   throw (Error (ErrorCode.value ErrorCode.TOOL_TIMEOUT
                                 +:+ ": Tool execution exceeded "
                                 +:+ Number.toString timeout
                                 +:+ "ms timeout"))
               end in
             emit (ConsoleLog ("✓ Tool '" +:+ toolName
                               +:+ "' executed successfully on server '"
                               +:+ serverName +:+ "'")) ;;
             ret result)
            (λ error,
               emit (ConsoleError ("✗ Tool execution failed: "
                                   +:+ message error)) ;;
               if includes (ErrorCode.value ErrorCode.TOOL_TIMEOUT)
                           (message error)
               then throw error
               else throw (Error (ErrorCode.value ErrorCode.TOOL_EXECUTION_ERROR
                                  +:+ ": " +:+ message error)))
      | _, _ =>
          throw (Error (ErrorCode.value ErrorCode.SERVER_DISCONNECTED
                        +:+ ": Server '" +:+ serverName
                        +:+ "' is not connected"))
      end
  end.

(** [getServerInfo()] *)
Definition getServerInfo : Prog (list ServerInfo.t) :=
  let* entries := do ServersEntries in
  ret (map (λ '(name, state),
              ServerInfo.mk name
                (ServerConfig.package (ServerState.config state))
                (ServerState.status state)
                (length (ServerState.tools state))
                (ServerState.lastError state)
                (toISOString <$> ServerState.lastConnected state))
           entries).

(** [getServerTools(serverName)] *)
Definition getServerTools (serverName : string) : Prog (list Tool.t) :=
  let* found := do (ServersGet serverName) in
  match found with
  | None =>
      throw (Error (ErrorCode.value ErrorCode.SERVER_NOT_FOUND
                    +:+ ": Server '" +:+ serverName +:+ "' not found"))
  | Some (_, serverState) => ret (ServerState.tools serverState)
  end.

(** [async addServer(name, pkg, args?)] *)
Definition addServer (name pkg : string) (args : option (list string))
    : Prog unit :=
  let* present := do (ServersHas name) in
  if present then
    throw (Error (ErrorCode.value ErrorCode.SERVER_ALREADY_EXISTS
                  +:+ ": Server '" +:+ name +:+ "' already exists"))
  else
    let serverConfig := ServerConfig.mk name pkg args in
    try_catch
      (configManager_addServer name serverConfig ;;
       await_async (connectServer name serverConfig) ;;
       emit (ConsoleLog ("✓ Server '" +:+ name +:+ "' added successfully")))
      (λ error,
         emit (ConsoleError ("✗ Failed to add server '" +:+ name +:+ "': "
                             +:+ message error)) ;;
         throw (Error (ErrorCode.value ErrorCode.SERVER_ADD_FAILED
                       +:+ ": " +:+ message error))).

(** [async removeServer(name)] *)
Definition removeServer (name : string) : Prog unit :=
  let* found := do (ServersGet name) in
  match found with
  | None =>
      throw (Error (ErrorCode.value ErrorCode.SERVER_NOT_FOUND
                    +:+ ": Server '" +:+ name +:+ "' not found"))
  | Some (_, serverState) =>
      try_catch
        (match ServerState.client serverState with
         | Some client => client_close client
         | None => ret tt
         end ;;
         do (ServersDelete name) ;;
         configManager_removeServer name ;;
         emit (ConsoleLog ("✓ Server '" +:+ name +:+ "' removed successfully")))
        (λ error,
           emit (ConsoleError ("✗ Failed to remove server '" +:+ name
                               +:+ "': " +:+ message error)) ;;
           throw error)
  end.

(** *** Turns *)

(** Where a method stands after a turn: it has completed, or it awaits a
    promise and holds what is left to do. *)
Inductive Pause (A : Type) : Type :=
| Finished (c : Completion A)
| Suspended (p : Promise) (k : answer p → Prog A).
Arguments Finished {A} c.
Arguments Suspended {A} p k.

Record Turn (A : Type) := mkTurn {
  pause : Pause A;
  after : Store;
  emitted : list Event
}.
Arguments mkTurn {A}.
Arguments pause {A}.
Arguments after {A}.
Arguments emitted {A}.

(** One turn: the method runs on its own as far as its next [await]. *)
Fixpoint run {A} (m : Prog A) (s : Store) : Turn A :=
  match m with
  | Done a => mkTurn (Finished (Return a)) s []
  | Raise e => mkTurn (Finished (Throw e)) s []
  | Step op k =>
      match perform op s with
      | (x, s', t) =>
          match run (k x) s' with
          | mkTurn p s'' t' => mkTurn p s'' (t ++ t')
          end
      end
  | Await p k => mkTurn (Suspended p k) s []
  end.

(** The calls the REST layer makes, and what each gives back. *)
Inductive Call :=
| CallTool (serverName toolName : string) (args : JsValue)
| GetServerInfo
| GetServerTools (serverName : string)
| AddServer (name pkg : string) (args : option (list string))
| RemoveServer (name : string).

Inductive Reply :=
| ToolResult (result : JsValue)
| ServerInfos (infos : list ServerInfo.t)
| Tools (tools : list Tool.t)
| Nothing.

Definition start (c : Call) : Prog Reply :=
  match c with
  | CallTool serverName toolName args =>
      let* result := callTool serverName toolName args in
      ret (ToolResult result)
  | GetServerInfo => let* infos := getServerInfo in ret (ServerInfos infos)
  | GetServerTools serverName =>
      let* tools := getServerTools serverName in ret (Tools tools)
  | AddServer name pkg args => addServer name pkg args ;; ret Nothing
  | RemoveServer name => removeServer name ;; ret Nothing
  end.

(** A call that has been made: it awaits a promise, or it has completed. *)
Inductive Task :=
| Awaiting (p : Promise) (k : answer p → Prog Reply)
| Settled (c : Completion Reply).

Record World := mkWorld {
  store : Store;
  tasks : list Task;
  events : list Event
}.

(** What the outside world tells when a promise settles. *)
Inductive Answer :=
| PersistAnswer (o : PersistOutcome)
| ConnectAnswer (r : Completion Client)
| ListToolsAnswer (r : Completion (list Tool.t * Date))
| RaceAnswer (r : RaceOutcome)
| CloseAnswer (o : CloseOutcome)
| Returned.

(** The answer as the promise [p] takes it; an answer of another kind is
    none for [p]. *)
Definition accept (p : Promise) (a : Answer) : option (answer p) :=
  match p return option (answer p) with
  | ConfigAddServerPromise =>
      match a with PersistAnswer o => Some o | _ => None end
  | ConnectPromise =>
      match a with ConnectAnswer r => Some r | _ => None end
  | ListToolsPromise =>
      match a with ListToolsAnswer r => Some r | _ => None end
  | RacePromise =>
      match a with RaceAnswer r => Some r | _ => None end
  | ClosePromise =>
      match a with CloseAnswer o => Some o | _ => None end
  | ConfigRemoveServerPromise =>
      match a with PersistAnswer o => Some o | _ => None end
  | AsyncFunctionPromise =>
      match a with Returned => Some tt | _ => None end
  end.

Definition task_of (p : Pause Reply) : Task :=
  match p with
  | Finished c => Settled c
  | Suspended p k => Awaiting p k
  end.

(** What the event loop does next: a request comes in and its call is
    made, or the promise that the call numbered [task] awaits settles and
    the call goes on. *)
Inductive Action :=
| Invoke (c : Call)
| Settle (task : nat) (a : Answer).

Definition step (a : Action) (w : World) : World :=
  match a with
  | Invoke c =>
      match run (start c) (store w) with
      | mkTurn p s t => mkWorld s (tasks w ++ [task_of p]) (events w ++ t)
      end
  | Settle i a =>
      match tasks w !! i with
      | Some (Awaiting p k) =>
          match accept p a with
          | Some x =>
              match run (k x) (store w) with
              | mkTurn p' s t =>
                  mkWorld s (<[i := task_of p']> (tasks w)) (events w ++ t)
              end
          | None => w
          end
      | _ => w
      end
  end.

Definition exec (schedule : list Action) (w : World) : World :=
  foldl (λ w a, step a w) w schedule.

(** What [getServerInfo] returns when called at this moment. *)
Definition listing (w : World) : list ServerInfo.t :=
  match pause (run getServerInfo (store w)) with
  | Finished (Return infos) => infos
  | _ => []
  end.

(** *** Runs without interleaving *)

(** What the outside world answers to one call. *)
Record Environment := mkEnvironment {
  persist_add : PersistOutcome;
  connect : ConnectOutcome;
  race : RaceOutcome;
  close : CloseOutcome;
  persist_remove : PersistOutcome
}.

Definition settle (env : Environment) (p : Promise) : answer p :=
  match p return answer p with
  | ConfigAddServerPromise => persist_add env
  | ConnectPromise =>
      match connect env with
      | ConnectRejects e => Throw e
      | ListToolsRejects c _ | Connected c _ _ => Return c
      end
  | ListToolsPromise =>
      match connect env with
      | ConnectRejects e | ListToolsRejects _ e => Throw e
      | Connected _ listed now => Return (listed, now)
      end
  | RacePromise => race env
  | ClosePromise => close env
  | ConfigRemoveServerPromise => persist_remove env
  | AsyncFunctionPromise => tt
  end.

(** The gateway of the first part that a store stands for. *)
Definition view (s : Store) : Gateway :=
  mkGateway (entries s) (this_config s) (this_configManager s).

(** The method run from its call to the settling of its promise with
    nothing in between: every promise it awaits settles at once. *)
Fixpoint alone {A} (env : Environment) (m : Prog A) (s : Store)
    : Completion A * Store * list Event :=
  match m with
  | Done a => (Return a, s, [])
  | Raise e => (Throw e, s, [])
  | Step op k =>
      match perform op s with
      | (x, s', t) =>
          match alone env (k x) s' with
          | (c, s'', t') => (c, s'', t ++ t')
          end
      end
  | Await p k => alone env (k (settle env p)) s
  end.

(** What settles the promise [p] with [x]. *)
Definition answer_of (p : Promise) : answer p → Answer :=
  match p return answer p → Answer with
  | ConfigAddServerPromise => PersistAnswer
  | ConnectPromise => ConnectAnswer
  | ListToolsPromise => ListToolsAnswer
  | RacePromise => RaceAnswer
  | ClosePromise => CloseAnswer
  | ConfigRemoveServerPromise => PersistAnswer
  | AsyncFunctionPromise => λ _, Returned
  end.

(** The answers such a run takes, in the order in which it awaits them. *)
Fixpoint asked {A} (env : Environment) (m : Prog A) (s : Store)
    : list Answer :=
  match m with
  | Done _ | Raise _ => []
  | Step op k =>
      match perform op s with
      | (x, s', _) => asked env (k x) s'
      end
  | Await p k =>
      answer_of p (settle env p) :: asked env (k (settle env p)) s
  end.

Definition outcome {A} (r : Completion A * Store * list Event) : Outcome A :=
  match r with
  | (c, s, t) => mkOutcome c (view s) t
  end.

(** *** Vocabulary *)

(** A gateway of the first part as a store, with no call under way. *)
Definition boot (g : Gateway) : World :=
  mkWorld
    (mkStore (map snd (servers g)) (imap (λ i entry, (entry.1, i)) (servers g))
       (config g) (configManager g))
    [] [].

(** Every reference in [this.servers] is to an object of the store. *)
Definition well_formed (s : Store) : Prop :=
  Forall (λ entry : string * Ref, entry.2 < length (objects s))
         (this_servers s).

(** The state in which [connectServer] creates the object of a backend,
    and in which the object stays while the connect is awaited. *)
Definition pending (st : ServerState.t) : Prop :=
  ServerState.status st = Status.disconnected
  ∧ ServerState.client st = None
  ∧ ServerState.tools st = []
  ∧ ServerState.reconnectAttempts st = 0%Z
  ∧ ServerState.lastError st = None
  ∧ ServerState.lastConnected st = None.

Definition shaped (st : ServerState.t) : Prop := pending st ∨ settled st.

Definition good (s : Store) : Prop :=
  Forall shaped (objects s) ∧ well_formed s.

(** The operations that neither create nor change a [ServerState] object
    and put no reference into [this.servers]. *)
Definition quiet {X} (op : Op X) : Prop :=
  match op with
  | NewServerState _ | Assign _ _ | ServersSet _ _ => False
  | _ => True
  end.

(** [tame on_return on_throw o m]: [m] writes to no object but [o], one it
    has created and not yet written to, and writes to it once, the outcome
    of the connect; it registers no object but [o]; [on_return] and
    [on_throw] are what it is left with when it returns and when it
    throws. *)
Inductive tame {A} (on_return on_throw : option Ref)
    : option Ref → Prog A → Prop :=
| tame_done a : tame on_return on_throw on_return (Done a)
| tame_raise e : tame on_return on_throw on_throw (Raise e)
| tame_new st k :
    pending st →
    (∀ r, tame on_return on_throw (Some r) (k r)) →
    tame on_return on_throw None (Step (NewServerState st) k)
| tame_assign r f k :
    (∀ st, pending st → settled (f st)) →
    tame on_return on_throw None (k tt) →
    tame on_return on_throw (Some r) (Step (Assign r f) k)
| tame_set r name k :
    tame on_return on_throw (Some r) (k tt) →
    tame on_return on_throw (Some r) (Step (ServersSet name r) k)
| tame_quiet {X} o (op : Op X) k :
    quiet op →
    (∀ x, tame on_return on_throw o (k x)) →
    tame on_return on_throw o (Step op k)
| tame_await o p k :
    (∀ x, tame on_return on_throw o (k x)) →
    tame on_return on_throw o (Await p k).

(** The object [o], if any, is in the store and pending. *)
Definition owns (o : option Ref) (s : Store) : Prop :=
  match o with
  | Some r => ∃ st, objects s !! r = Some st ∧ pending st
  | None => True
  end.

(** From [s] to [s'] no object is lost, and none is changed but [o]. *)
Definition untouched (o : option Ref) (s s' : Store) : Prop :=
  (length (objects s) ≤ length (objects s'))%nat
  ∧ ∀ r, r < length (objects s) → o ≠ Some r →
         objects s' !! r = objects s !! r.

(** [o'] is nothing, or [o], or an object created since [s]. *)
Definition handed (o o' : option Ref) (s : Store) : Prop :=
  o' = None ∨ o' = o ∨ ∃ r, o' = Some r ∧ (length (objects s) ≤ r)%nat.

(** A call under way goes on tamely, with an object of its own or none. *)
Definition task_ok (s : Store) (t : Task) (o : option Ref) : Prop :=
  owns o s
  ∧ match t with
    | Awaiting p k => ∀ x, tame None None o (k x)
    | Settled _ => o = None
    end.

Definition world_ok (w : World) : Prop :=
  good (store w)
  ∧ ∃ owners : list (option Ref),
      Forall2 (task_ok (store w)) (tasks w) owners
      ∧ ∀ i j r, owners !! i = Some (Some r) → owners !! j = Some (Some r) →
                 i = j.

End EventLoop.

(** *** Requests that do not overlap *)

(** The call by which a request is served. *)
Definition request_call (rq : Request) : EventLoop.Call :=
  match rq with
  | CallTool serverName toolName args _ =>
      EventLoop.CallTool serverName toolName args
  | GetServerInfo => EventLoop.GetServerInfo
  | GetServerTools serverName => EventLoop.GetServerTools serverName
  | AddServer name pkg args _ _ => EventLoop.AddServer name pkg args
  | RemoveServer name _ _ => EventLoop.RemoveServer name
  end.

(** What the outside world answers to the call of a request.  The answers
    that the method called never awaits are filled in; nothing reads
    them. *)
Definition request_environment (rq : Request) : EventLoop.Environment :=
  let unasked := Error "never asked" in
  match rq with
  | CallTool _ _ _ race =>
      EventLoop.mkEnvironment (PersistRejects unasked)
        (ConnectRejects unasked) race (CloseRejects unasked)
        (PersistRejects unasked)
  | GetServerInfo | GetServerTools _ =>
      EventLoop.mkEnvironment (PersistRejects unasked)
        (ConnectRejects unasked) (TimerFiresFirst None)
        (CloseRejects unasked) (PersistRejects unasked)
  | AddServer _ _ _ op oc =>
      EventLoop.mkEnvironment op oc (TimerFiresFirst None)
        (CloseRejects unasked) (PersistRejects unasked)
  | RemoveServer _ ocl op =>
      EventLoop.mkEnvironment (PersistRejects unasked)
        (ConnectRejects unasked) (TimerFiresFirst None) ocl op
  end.

(** What the event loop does when it serves one request to its end: the
    call is made, and each promise it awaits settles before anything else
    happens. *)
Definition serve_actions (rq : Request) (w : EventLoop.World)
    : list EventLoop.Action :=
  EventLoop.Invoke (request_call rq)
  :: map (EventLoop.Settle (length (EventLoop.tasks w)))
       (EventLoop.asked (request_environment rq)
          (EventLoop.start (request_call rq)) (EventLoop.store w)).

(** The same for requests served one after the other. *)
Fixpoint serial_schedule (rqs : list Request) (w : EventLoop.World)
    : list EventLoop.Action :=
  match rqs with
  | [] => []
  | rq :: rqs' =>
      serve_actions rq w
      ++ serial_schedule rqs' (EventLoop.exec (serve_actions rq w) w)
  end.

(** ** Facts about [JsMap] *)

Section JsMap_facts.
Context {V : Type}.
Implicit Types (m : JsMap.t V) (k : string) (v : V).

Lemma JsMap_get_None_keys m k : JsMap.get m k = None ↔ k ∉ JsMap.keys m.
Proof.
  induction m as [|[k' v'] m IH]; simpl.
  - split; [intros _; apply not_elem_of_nil | done].
  - rewrite not_elem_of_cons. destruct (String.eqb_spec k' k) as [->|Hne].
    + split; [done | intros [? _]; done].
    + rewrite IH. split; [intros ?; split; [congruence | done] | intros [_ ?]; done].
Qed.

Lemma JsMap_has_keys m k : JsMap.has m k = true ↔ k ∈ JsMap.keys m.
Proof.
  unfold JsMap.has. destruct (JsMap.get m k) eqn:E.
  - split; [intros _ | done].
    destruct (decide (k ∈ JsMap.keys m)) as [|Hn]; [done|].
    apply JsMap_get_None_keys in Hn. congruence.
  - apply JsMap_get_None_keys in E. split; [done | intros ?; done].
Qed.

Lemma JsMap_has_false m k : JsMap.has m k = false ↔ JsMap.get m k = None.
Proof. unfold JsMap.has. destruct (JsMap.get m k); split; congruence. Qed.

Lemma JsMap_set_new m k v :
  JsMap.get m k = None → JsMap.set m k v = m ++ [(k, v)].
Proof.
  induction m as [|[k' v'] m IH]; simpl; [done|].
  destruct (String.eqb k' k); [done|]. intros H. by rewrite IH.
Qed.

Lemma JsMap_keys_set_present m k v :
  JsMap.has m k = true → JsMap.keys (JsMap.set m k v) = JsMap.keys m.
Proof.
  unfold JsMap.has. induction m as [|[k' v'] m IH]; simpl; [done|].
  destruct (String.eqb k' k); [done|]. intros H. simpl. by rewrite IH.
Qed.

Lemma JsMap_get_set m k v : JsMap.get (JsMap.set m k v) k = Some v.
Proof.
  induction m as [|[k' v'] m IH]; simpl.
  - by rewrite String.eqb_refl.
  - destruct (String.eqb k' k) eqn:E; simpl; by rewrite E.
Qed.

Lemma JsMap_get_set_ne m k k' v :
  k ≠ k' → JsMap.get (JsMap.set m k v) k' = JsMap.get m k'.
Proof.
  intros Hne. induction m as [|[k0 v0] m IH]; simpl.
  - destruct (String.eqb_spec k k'); done.
  - destruct (String.eqb_spec k0 k) as [->|]; simpl.
    + destruct (String.eqb_spec k k'); done.
    + by rewrite IH.
Qed.

Lemma JsMap_delete_appended m k v :
  JsMap.get m k = None → JsMap.delete (m ++ [(k, v)]) k = m.
Proof.
  induction m as [|[k' v'] m IH]; simpl.
  - by rewrite String.eqb_refl.
  - destruct (String.eqb k' k); [done|]. intros H. by rewrite IH.
Qed.

Lemma filter_keeps_all (l : list string) k : k ∉ l → filter (λ n, n ≠ k) l = l.
Proof.
  induction l as [|x l IH]; [done|].
  rewrite not_elem_of_cons. intros [Hne Hnin].
  rewrite filter_cons_True by done. by rewrite IH.
Qed.

Lemma JsMap_keys_delete m k :
  JsMap.wf m → JsMap.keys (JsMap.delete m k) = filter (λ n, n ≠ k) (JsMap.keys m).
Proof.
  unfold JsMap.wf. induction m as [|[k' v'] m IH]; simpl; [done|].
  rewrite NoDup_cons. intros [Hnin Hnd].
  destruct (String.eqb_spec k' k) as [->|Hne].
  - rewrite filter_cons_False by (intros ?; done).
    symmetry. by apply filter_keeps_all.
  - rewrite filter_cons_True by done. simpl. by rewrite IH.
Qed.

Lemma JsMap_get_delete m k : JsMap.wf m → JsMap.get (JsMap.delete m k) k = None.
Proof.
  intros Hwf. apply JsMap_get_None_keys. rewrite JsMap_keys_delete by done.
  rewrite list_elem_of_filter. intros [? _]. done.
Qed.

Lemma JsMap_get_delete_ne m k k' :
  k ≠ k' → JsMap.get (JsMap.delete m k) k' = JsMap.get m k'.
Proof.
  intros Hne. induction m as [|[k0 v0] m IH]; simpl; [done|].
  destruct (String.eqb_spec k0 k) as [->|]; simpl.
  - destruct (String.eqb_spec k k'); done.
  - by rewrite IH.
Qed.

Lemma JsMap_keys_mutate m k f : JsMap.keys (JsMap.mutate m k f) = JsMap.keys m.
Proof.
  induction m as [|[k' v'] m IH]; simpl; [done|].
  destruct (String.eqb k' k); simpl; [done | by rewrite IH].
Qed.

Lemma JsMap_get_mutate m k f :
  JsMap.get (JsMap.mutate m k f) k = f <$> JsMap.get m k.
Proof.
  induction m as [|[k' v'] m IH]; simpl; [done|].
  destruct (String.eqb k' k) eqn:E; simpl; by rewrite E.
Qed.

Lemma JsMap_get_mutate_ne m k k' f :
  k ≠ k' → JsMap.get (JsMap.mutate m k f) k' = JsMap.get m k'.
Proof.
  intros Hne. induction m as [|[k0 v0] m IH]; simpl; [done|].
  destruct (String.eqb_spec k0 k) as [->|]; simpl.
  - destruct (String.eqb_spec k k'); done.
  - by rewrite IH.
Qed.

Lemma JsMap_wf_set m k v : JsMap.wf m → JsMap.wf (JsMap.set m k v).
Proof.
  intros Hwf. destruct (JsMap.get m k) eqn:E.
  - unfold JsMap.wf. rewrite JsMap_keys_set_present; [done|].
    unfold JsMap.has. by rewrite E.
  - rewrite JsMap_set_new by done. unfold JsMap.wf, JsMap.keys.
    rewrite map_app. simpl. apply NoDup_app. split_and!; [done| |apply NoDup_singleton].
    intros x Hx Hx'. apply list_elem_of_singleton in Hx'. subst x.
    by apply JsMap_get_None_keys in E.
Qed.

Lemma JsMap_wf_delete m k : JsMap.wf m → JsMap.wf (JsMap.delete m k).
Proof.
  intros Hwf. unfold JsMap.wf. rewrite JsMap_keys_delete by done.
  by apply NoDup_filter.
Qed.

Lemma JsMap_wf_mutate m k f : JsMap.wf m → JsMap.wf (JsMap.mutate m k f).
Proof. unfold JsMap.wf. by rewrite JsMap_keys_mutate. Qed.

End JsMap_facts.

(** ** The [Async] monad *)

Section Async_laws.
Context {A B C : Type}.

Lemma bind_ret_l (a : A) (k : A → Async B) g : bind (ret a) k g = k a g.
Proof. unfold bind, ret. by destruct (k a g). Qed.

Lemma bind_ret_r (m : Async A) g : bind m ret g = m g.
Proof.
  unfold bind, ret. destruct (m g) as [[a|e] g' t]; [|done].
  by rewrite app_nil_r.
Qed.

Lemma bind_assoc (m : Async A) (k : A → Async B) (h : B → Async C) g :
  bind (bind m k) h g = bind m (λ a, bind (k a) h) g.
Proof.
  unfold bind. destruct (m g) as [[a|e] g' t]; [|done].
  destruct (k a g') as [[b|e] g'' t']; [|done].
  destruct (h b g'') as [c g3 t'']. by rewrite app_assoc.
Qed.

Lemma try_catch_return (a : A) (handler : JsError → Async A) g :
  try_catch (ret a) handler g = ret a g.
Proof. done. Qed.

Lemma try_catch_throw (e : JsError) (handler : JsError → Async A) g :
  try_catch (throw e) handler g = handler e g.
Proof. unfold try_catch, throw. by destruct (handler e g). Qed.

End Async_laws.

(** ** Running a computation *)

(** Runs the monadic structure of a computation; strings, maps and the
    gateway itself are left as they stand. *)
Ltac run_async :=
  cbv [bind try_catch emit read write throw ret
       configManager_addServer configManager_removeServer client_close
       update_serverState with_servers with_configManager
       ConfigManager.persistAdd ConfigManager.persistRemove];
  cbn [completion final trace servers config configManager].

(** ** callTool *)

Lemma callTool_not_registered g serverName toolName args race :
  JsMap.get (servers g) serverName = None →
  callTool serverName toolName args race g =
    mkOutcome
      (Throw (Error ("SERVER_NOT_FOUND: Server '" +:+ serverName
                     +:+ "' not found"))) g [].
Proof. intros H. unfold callTool. run_async. by rewrite H. Qed.

Lemma callTool_not_ready g serverName toolName args race st :
  JsMap.get (servers g) serverName = Some st →
  ServerState.status st ≠ Status.connected ∨ ServerState.client st = None →
  callTool serverName toolName args race g =
    mkOutcome
      (Throw (Error ("SERVER_DISCONNECTED: Server '" +:+ serverName
                     +:+ "' is not connected"))) g [].
Proof.
  intros H Hnot. unfold callTool. run_async. rewrite H.
  destruct (ServerState.status st), (ServerState.client st);
    cbn [Status.eqb]; try done; destruct Hnot; done.
Qed.

Lemma callTool_ready g serverName toolName args race c :
  ready g serverName c →
  callTool serverName toolName args race g =
    let timeout := timeout_or_default (configured_timeout g) in
    let prologue := callTool_prologue timeout c serverName toolName args in
    match race with
    | SendSettlesFirst (SendResolves result) =>
        mkOutcome (Return result) g
          (prologue ++ [ConsoleLog ("✓ Tool '" +:+ toolName
                                    +:+ "' executed successfully on server '"
                                    +:+ serverName +:+ "'")])
    | SendSettlesFirst (SendRejects _ e) =>
        mkOutcome
          (if includes "TOOL_TIMEOUT" (message e) then Throw e
           else Throw (Error ("TOOL_EXECUTION_ERROR: " +:+ message e))) g
          (prologue ++ [ConsoleError ("✗ Tool execution failed: "
                                      +:+ message e)])
    | TimerFiresFirst _ =>
        mkOutcome (Throw (timeout_error timeout)) g
          (prologue ++ [ConsoleError ("✗ Tool execution failed: "
                                      +:+ message (timeout_error timeout))])
    end.
Proof.
  intros (st & Hget & Hst & Hcl).
  unfold callTool. run_async. rewrite Hget, Hst, Hcl. cbn [Status.eqb].
  destruct race as [[result | kind e] | later]; try done.
  cbn [ErrorCode.value].
  by destruct (includes "TOOL_TIMEOUT" (message e)).
Qed.

(** C1.  [callTool] on a name that is not registered fails with
    SERVER_NOT_FOUND, and on a registered backend that is not connected or
    has no client it fails with SERVER_DISCONNECTED.  In both cases the call
    makes no call to the outside at all (the trace is empty: no send, no
    timer) and leaves the gateway as it was. *)
Theorem callTool_fails_fast (g : Gateway) (serverName toolName : string)
    (args : JsValue) (race : RaceOutcome) :
  let r := callTool serverName toolName args race g in
  (JsMap.get (servers g) serverName = None →
     fails_with ErrorCode.SERVER_NOT_FOUND (completion r)
     ∧ trace r = [] ∧ final r = g)
  ∧ (∀ st, JsMap.get (servers g) serverName = Some st →
       ServerState.status st ≠ Status.connected
       ∨ ServerState.client st = None →
       fails_with ErrorCode.SERVER_DISCONNECTED (completion r)
       ∧ trace r = [] ∧ final r = g).
Proof.
  split.
  - intros H. rewrite (callTool_not_registered _ _ _ _ _ H). simpl.
    split; [reflexivity | done].
  - intros st H Hnot. rewrite (callTool_not_ready _ _ _ _ _ _ H Hnot). simpl.
    split; [reflexivity | done].
Qed.

Lemma callTool_fails_fast_witness :
  (let r := callTool "ghost" "navigate" JsNull (TimerFiresFirst None)
              chrome_fs_gateway in
   fails_with ErrorCode.SERVER_NOT_FOUND (completion r)
   ∧ trace r = [] ∧ final r = chrome_fs_gateway)
  ∧ (let r := callTool "fs" "read_file" JsNull
                (SendSettlesFirst (SendResolves JsNull)) chrome_fs_gateway in
     fails_with ErrorCode.SERVER_DISCONNECTED (completion r)
     ∧ trace r = [] ∧ final r = chrome_fs_gateway).
Proof.
  split.
  - apply (proj1 (callTool_fails_fast chrome_fs_gateway "ghost" "navigate"
                    JsNull (TimerFiresFirst None))).
    reflexivity.
  - eapply (proj2 (callTool_fails_fast chrome_fs_gateway "fs" "read_file"
                     JsNull (SendSettlesFirst (SendResolves JsNull)))).
    + reflexivity.
    + left. discriminate.
Defined.

(** C2 fails where the configured timeout is 0: a ready backend is then
    raced against a timer of 30000 ms, not of 0 ms. *)
Lemma callTool_timeout_zero_counterexample :
  let g := chrome_gateway (Some 0%Z) in
  let r := callTool "chrome" "navigate" JsNull (TimerFiresFirst None) g in
  ready g "chrome" (ClientObject 1)
  ∧ configured_timeout g = Some (Number.of_string "0")
  ∧ filter is_timer (trace r) = [SetTimeout (Number.of_string "30000")]
  ∧ ¬ timer_is_configured_value g "chrome" "navigate" JsNull
        (TimerFiresFirst None).
Proof.
  split_and!.
  - eexists. split_and!; reflexivity.
  - reflexivity.
  - reflexivity.
  - intros H. specialize (H (Number.of_string "0") eq_refl).
    vm_compute in H. discriminate H.
Qed.

Lemma timeout_or_default_truthy (t : Number.t) :
  Number.toString t ≠ "0" → Number.toString t ≠ "NaN" →
  timeout_or_default (Some t) = t.
Proof.
  intros H0 Hn. unfold timeout_or_default, Number.falsy.
  destruct (String.eqb_spec (Number.toString t) "0"); [done|].
  by destruct (String.eqb_spec (Number.toString t) "NaN").
Qed.

Lemma timeout_or_default_falsy (t : Number.t) :
  Number.toString t = "0" ∨ Number.toString t = "NaN" →
  timeout_or_default (Some t) = Number.of_string "30000".
Proof.
  unfold timeout_or_default, Number.falsy. by intros [-> | ->].
Qed.

(** C2, amended.  Every [callTool] on a ready backend sets one timer and
    makes one send.  The timer is the configured gateway timeout when that
    is set and truthy, that is neither 0 nor NaN, and 30000 ms when it is
    not set, is 0 or is NaN.  When the timer fires first the call fails with
    TOOL_TIMEOUT naming that value as JavaScript renders it; nothing further
    is done to the send (the events of the call are the timer, the log line,
    the send and the error line), the gateway is left as it was, and
    whatever the send settles to later has no influence. *)
Theorem callTool_timeout_race (g : Gateway) (serverName toolName : string)
    (args : JsValue) (race : RaceOutcome) (c : Client) :
  ready g serverName c →
  let r := callTool serverName toolName args race g in
  ∃ T,
    filter is_timer (trace r) = [SetTimeout T]
    ∧ filter is_send (trace r) = [ClientCallTool c toolName args]
    ∧ (∀ t, configured_timeout g = Some t →
         Number.toString t ≠ "0" → Number.toString t ≠ "NaN" → T = t)
    ∧ (configured_timeout g = None
       ∨ (∃ t, configured_timeout g = Some t
               ∧ (Number.toString t = "0" ∨ Number.toString t = "NaN")) →
       T = Number.of_string "30000")
    ∧ (∀ later, race = TimerFiresFirst later →
         completion r
         = Throw (Error ("TOOL_TIMEOUT: Tool execution exceeded "
                         +:+ Number.toString T +:+ "ms timeout"))
         ∧ fails_with ErrorCode.TOOL_TIMEOUT (completion r)
         ∧ final r = g
         ∧ trace r
           = callTool_prologue T c serverName toolName args
             ++ [ConsoleError ("✗ Tool execution failed: "
                               +:+ message (timeout_error T))]
         ∧ ∀ later', callTool serverName toolName args
                       (TimerFiresFirst later') g = r).
Proof.
  intros Hready r. subst r. rewrite (callTool_ready _ _ _ _ _ _ Hready).
  exists (timeout_or_default (configured_timeout g)). cbv zeta.
  split_and!.
  - by destruct race as [[?|? ?]|?].
  - by destruct race as [[?|? ?]|?].
  - intros t -> H0 Hn. by apply timeout_or_default_truthy.
  - intros [-> | (t & -> & Ht)]; [done|]. by apply timeout_or_default_falsy.
  - intros later ->. split_and!; try done.
    intros later'. by rewrite (callTool_ready _ _ _ _ _ _ Hready).
Qed.

Lemma callTool_timeout_race_witness :
  let g := chrome_gateway (Some 5000%Z) in
  let r := callTool "chrome" "navigate" JsNull (TimerFiresFirst None) g in
  filter is_timer (trace r) = [SetTimeout (Number.of_string "5000")]
  ∧ completion r
    = Throw (Error "TOOL_TIMEOUT: Tool execution exceeded 5000ms timeout").
Proof.
  intros g r.
  assert (Hready : ready g "chrome" (ClientObject 1)).
  { eexists. split_and!; reflexivity. }
  destruct (callTool_timeout_race g "chrome" "navigate" JsNull
              (TimerFiresFirst None) (ClientObject 1) Hready)
    as (T & Htimer & _ & Hset & _ & Hfired).
  assert (HT : T = Number.of_string "5000").
  { apply (Hset (Number.of_string "5000")); [reflexivity | | ];
      cbn; discriminate. }
  subst T. split; [exact Htimer|].
  apply (Hfired None eq_refl).
Defined.

(** C3 fails on a transport failure: the send to a ready backend is rejected
    because the pipe to the process is gone, and the caller is told
    TOOL_EXECUTION_ERROR, not SERVER_DISCONNECTED. *)
Lemma callTool_transport_failure_counterexample :
  let g := chrome_gateway (Some 30000%Z) in
  let r := callTool "chrome" "navigate" JsNull
             (SendSettlesFirst
                (SendRejects TransportFailure (Error "write EPIPE"))) g in
  ready g "chrome" (ClientObject 1)
  ∧ completion r = Throw (Error "TOOL_EXECUTION_ERROR: write EPIPE")
  ∧ ¬ fails_with ErrorCode.SERVER_DISCONNECTED (completion r).
Proof.
  split_and!.
  - eexists. split_and!; reflexivity.
  - reflexivity.
  - vm_compute. discriminate.
Qed.

(** C3, amended.  When the send to a ready backend settles before the timer:
    a success returns the result of the backend unchanged; a failure of the
    send, at transport level or at application level, whose message does not
    contain TOOL_TIMEOUT is surfaced as TOOL_EXECUTION_ERROR, the message of
    the backend following the code verbatim. *)
Theorem callTool_send_settles_first (g : Gateway)
    (serverName toolName : string) (args : JsValue) (o : SendOutcome)
    (c : Client) :
  ready g serverName c →
  let r := callTool serverName toolName args (SendSettlesFirst o) g in
  match o with
  | SendResolves result => completion r = Return result
  | SendRejects kind e =>
      includes "TOOL_TIMEOUT" (message e) = false →
      completion r = Throw (Error ("TOOL_EXECUTION_ERROR: " +:+ message e))
      ∧ fails_with ErrorCode.TOOL_EXECUTION_ERROR (completion r)
  end.
Proof.
  intros Hready r. subst r. rewrite (callTool_ready _ _ _ _ _ _ Hready).
  destruct o as [result | kind e]; simpl; [done|].
  intros ->. done.
Qed.

Lemma callTool_send_settles_first_witness :
  let g := chrome_gateway (Some 30000%Z) in
  completion (callTool "chrome" "navigate" JsNull
                (SendSettlesFirst (SendResolves (JsString "ok"))) g)
  = Return (JsString "ok")
  ∧ (let r := callTool "chrome" "navigate" JsNull
                (SendSettlesFirst
                   (SendRejects ApplicationFailure (Error "no such page"))) g in
     completion r = Throw (Error "TOOL_EXECUTION_ERROR: no such page")
     ∧ fails_with ErrorCode.TOOL_EXECUTION_ERROR (completion r)).
Proof.
  split.
  - apply (callTool_send_settles_first (chrome_gateway (Some 30000%Z))
             "chrome" "navigate" JsNull (SendResolves (JsString "ok"))
             (ClientObject 1)).
    eexists. split_and!; reflexivity.
  - apply (callTool_send_settles_first (chrome_gateway (Some 30000%Z))
             "chrome" "navigate" JsNull
             (SendRejects ApplicationFailure (Error "no such page"))
             (ClientObject 1)).
    + eexists. split_and!; reflexivity.
    + reflexivity.
Defined.

(** C9.  An error coming out of the race in [callTool] is classified by one
    test only, whether its message contains TOOL_TIMEOUT.  If it does, the
    very same error is rethrown, be it the gateway's own timeout error or a
    rejection of the send by the backend; if it does not, the error is
    surfaced as TOOL_EXECUTION_ERROR followed by the original message,
    whatever the kind of failure, and so never as SERVER_DISCONNECTED. *)
Theorem callTool_error_classification (g : Gateway)
    (serverName toolName : string) (args : JsValue) (kind : FailureKind)
    (e : JsError) (later : option SendOutcome) (c : Client) :
  ready g serverName c →
  let rejected := callTool serverName toolName args
                    (SendSettlesFirst (SendRejects kind e)) g in
  let timed_out := callTool serverName toolName args
                     (TimerFiresFirst later) g in
  (includes "TOOL_TIMEOUT" (message e) = true →
     completion rejected = Throw e)
  ∧ (includes "TOOL_TIMEOUT" (message e) = false →
       completion rejected
       = Throw (Error ("TOOL_EXECUTION_ERROR: " +:+ message e))
       ∧ fails_with ErrorCode.TOOL_EXECUTION_ERROR (completion rejected)
       ∧ ¬ fails_with ErrorCode.SERVER_DISCONNECTED (completion rejected))
  ∧ (∀ kind', completion (callTool serverName toolName args
                            (SendSettlesFirst (SendRejects kind' e)) g)
              = completion rejected)
  ∧ completion timed_out
    = Throw (timeout_error (timeout_or_default (configured_timeout g)))
  ∧ includes "TOOL_TIMEOUT"
      (message (timeout_error (timeout_or_default (configured_timeout g))))
    = true.
Proof.
  intros Hready rejected timed_out. subst rejected timed_out.
  split_and!.
  - rewrite (callTool_ready _ _ _ _ _ _ Hready). simpl. by intros ->.
  - rewrite (callTool_ready _ _ _ _ _ _ Hready). simpl. intros ->.
    split_and!; [done | done | ].
    simpl. unfold errorCodeMatch. simpl. discriminate.
  - intros kind'. by rewrite !(callTool_ready _ _ _ _ _ _ Hready).
  - by rewrite (callTool_ready _ _ _ _ _ _ Hready).
  - done.
Qed.

Lemma callTool_error_classification_witness :
  let g := chrome_gateway (Some 30000%Z) in
  completion (callTool "chrome" "navigate" JsNull
                (SendSettlesFirst
                   (SendRejects ApplicationFailure
                      (Error "upstream said TOOL_TIMEOUT"))) g)
  = Throw (Error "upstream said TOOL_TIMEOUT").
Proof.
  assert (Hready : ready (chrome_gateway (Some 30000%Z)) "chrome"
                      (ClientObject 1)).
  { eexists. split_and!; reflexivity. }
  apply (proj1 (callTool_error_classification
                  (chrome_gateway (Some 30000%Z)) "chrome" "navigate" JsNull
                  ApplicationFailure (Error "upstream said TOOL_TIMEOUT")
                  None (ClientObject 1) Hready)).
  reflexivity.
Defined.

(** ** connectServer and addServer *)

Lemma JsMap_mutate_set {V} (m : JsMap.t V) k v f :
  JsMap.mutate (JsMap.set m k v) k f = JsMap.set m k (f v).
Proof.
  induction m as [|[k' v'] m IH]; simpl.
  - by rewrite String.eqb_refl.
  - destruct (String.eqb k' k) eqn:E; simpl; rewrite E; [done|].
    by rewrite IH.
Qed.

Lemma Tool_copy (listed : list Tool.t) :
  map (λ tool, Tool.mk (Tool.name tool) (Tool.description tool)
                 (Tool.inputSchema tool)) listed = listed.
Proof.
  induction listed as [|[n d s] l IH]; simpl; [done|]. by rewrite IH.
Qed.

Lemma connectServer_final name cfg oc g :
  final (connectServer name cfg oc g)
  = with_servers (λ m, JsMap.set m name (state_after_connect cfg oc)) g.
Proof.
  unfold connectServer.
  destruct oc as [e | c e | c listed now]; run_async;
    rewrite JsMap_mutate_set; try done.
  unfold state_after_connect, connected_state.
  cbn [ServerState.config ServerState.lastError]. by rewrite Tool_copy.
Qed.

Lemma connectServer_completion name cfg oc g :
  completion (connectServer name cfg oc g)
  = match connect_error oc with
    | Some e => Throw e
    | None => Return tt
    end.
Proof.
  unfold connectServer. by destruct oc; run_async.
Qed.

Lemma addServer_present name pkg args op oc g :
  JsMap.has (servers g) name = true →
  addServer name pkg args op oc g
  = mkOutcome
      (Throw (Error ("SERVER_ALREADY_EXISTS: Server '" +:+ name
                     +:+ "' already exists"))) g [].
Proof. intros H. unfold addServer. run_async. by rewrite H. Qed.

Lemma addServer_persist_rejects name pkg args e oc g :
  JsMap.has (servers g) name = false →
  addServer name pkg args (PersistRejects e) oc g
  = mkOutcome
      (Throw (Error ("SERVER_ADD_FAILED: " +:+ message e))) g
      [ConfigAddServer name (ServerConfig.mk name pkg args);
       ConsoleError ("✗ Failed to add server '" +:+ name +:+ "': "
                     +:+ message e)].
Proof.
  intros H. unfold addServer. run_async. rewrite H. by destruct g.
Qed.

Lemma addServer_persisted name pkg args oc g :
  JsMap.has (servers g) name = false →
  let cfg := ServerConfig.mk name pkg args in
  let r := addServer name pkg args PersistResolves oc g in
  final r
  = mkGateway (JsMap.set (servers g) name (state_after_connect cfg oc))
      (config g)
      (ConfigManager.mk
         (<[name := cfg]> (ConfigManager.persisted (configManager g))))
  ∧ completion r
    = match connect_error oc with
      | Some e => Throw (Error ("SERVER_ADD_FAILED: " +:+ message e))
      | None => Return tt
      end.
Proof.
  intros H cfg r. subst r.
  unfold addServer. run_async. rewrite H. fold cfg.
  pose proof (connectServer_final name cfg oc
                (mkGateway (servers g) (config g)
                   (ConfigManager.mk
                      (<[name := cfg]>
                         (ConfigManager.persisted (configManager g))))))
    as Hf.
  pose proof (connectServer_completion name cfg oc
                (mkGateway (servers g) (config g)
                   (ConfigManager.mk
                      (<[name := cfg]>
                         (ConfigManager.persisted (configManager g))))))
    as Hc.
  destruct (connectServer name cfg oc _) as [cmp fin tr].
  cbn [completion final] in Hf, Hc. subst cmp fin.
  by destruct (connect_error oc).
Qed.

(** ** removeServer *)

Lemma removeServer_not_registered name ocl op g :
  JsMap.get (servers g) name = None →
  removeServer name ocl op g
  = mkOutcome
      (Throw (Error ("SERVER_NOT_FOUND: Server '" +:+ name +:+ "' not found")))
      g [].
Proof. intros H. unfold removeServer. run_async. by rewrite H. Qed.

Lemma removeServer_registered name ocl op g st :
  JsMap.get (servers g) name = Some st →
  removeServer name ocl op g
  = match close_error st ocl with
    | Some e =>
        mkOutcome (Throw e) g
          (close_events st
           ++ [ConsoleError ("✗ Failed to remove server '" +:+ name
                             +:+ "': " +:+ message e)])
    | None =>
        match op with
        | PersistResolves =>
            mkOutcome (Return tt)
              (mkGateway (JsMap.delete (servers g) name) (config g)
                 (ConfigManager.mk
                    (delete name (ConfigManager.persisted (configManager g)))))
              (close_events st
               ++ [ConfigRemoveServer name;
                   ConsoleLog ("✓ Server '" +:+ name
                               +:+ "' removed successfully")])
        | PersistRejects e =>
            mkOutcome (Throw e)
              (mkGateway (JsMap.delete (servers g) name) (config g)
                 (configManager g))
              (close_events st
               ++ [ConfigRemoveServer name;
                   ConsoleError ("✗ Failed to remove server '" +:+ name
                                 +:+ "': " +:+ message e)])
        end
    end.
Proof.
  intros H. unfold removeServer. run_async. rewrite H.
  unfold close_error, close_events.
  destruct g as [m cf cm].
  destruct (ServerState.client st) as [c|], ocl as [|e], op as [|e'];
    reflexivity.
Qed.

(** ** Operations that leave the registry alone *)

Lemma callTool_final serverName toolName args race g :
  final (callTool serverName toolName args race g) = g.
Proof.
  destruct (JsMap.get (servers g) serverName) as [st|] eqn:Hget.
  - destruct (ServerState.status st) eqn:Hst;
      try (rewrite (callTool_not_ready _ _ _ _ _ _ Hget); [done|];
           left; rewrite Hst; discriminate).
    destruct (ServerState.client st) as [c|] eqn:Hcl.
    + rewrite (callTool_ready g serverName toolName args race c)
        by (exists st; done).
      by destruct race as [[?|? ?]|?].
    + rewrite (callTool_not_ready _ _ _ _ _ _ Hget); [done|]. by right.
  - by rewrite callTool_not_registered.
Qed.

Lemma getServerInfo_outcome g :
  getServerInfo g
  = mkOutcome
      (Return (map (λ '(name, state), snapshot name state)
                 (JsMap.entries (servers g)))) g [].
Proof. reflexivity. Qed.

Lemma getServerTools_final serverName g :
  final (getServerTools serverName g) = g.
Proof.
  unfold getServerTools. run_async.
  by destruct (JsMap.get (servers g) serverName).
Qed.

(** A request that does not remove [name] leaves [name] registered. *)
Lemma serve_keeps_registered name rq g :
  ¬ removes name rq →
  JsMap.has (servers g) name = true →
  JsMap.has (servers (serve rq g)) name = true.
Proof.
  intros Hrm Hhas. destruct rq as [s t a race | | s | n p a op oc | n ocl op];
    simpl.
  - by rewrite callTool_final.
  - done.
  - by rewrite getServerTools_final.
  - destruct (JsMap.has (servers g) n) eqn:Hn.
    + by rewrite addServer_present.
    + destruct op as [|e].
      * destruct (addServer_persisted n p a oc g Hn) as [-> _]. simpl.
        assert (n ≠ name) by (intros ->; congruence).
        unfold JsMap.has in *. by rewrite JsMap_get_set_ne.
      * by rewrite addServer_persist_rejects.
  - simpl in Hrm.
    destruct (JsMap.get (servers g) n) as [st|] eqn:Hget.
    + rewrite (removeServer_registered _ _ _ _ _ Hget).
      destruct (close_error st ocl); [done|].
      destruct op; simpl; unfold JsMap.has in *;
        by rewrite JsMap_get_delete_ne.
    + by rewrite removeServer_not_registered.
Qed.

Lemma serve_all_keeps_registered name rqs g :
  Forall (λ rq, ¬ removes name rq) rqs →
  JsMap.has (servers g) name = true →
  JsMap.has (servers (serve_all rqs g)) name = true.
Proof.
  intros Hall. revert g. induction Hall as [|rq rqs Hrq _ IH]; intros g Hhas.
  - done.
  - simpl. apply IH. by apply serve_keeps_registered.
Qed.

(** ** The registry stays a [Map] *)

Lemma constructor_wf cm cfg : JsMap.wf (servers (constructor cm cfg)).
Proof. apply NoDup_nil_2. Qed.

Lemma serve_keeps_wf rq g :
  JsMap.wf (servers g) → JsMap.wf (servers (serve rq g)).
Proof.
  intros Hwf. destruct rq as [s t a race | | s | n p a op oc | n ocl op];
    simpl.
  - by rewrite callTool_final.
  - done.
  - by rewrite getServerTools_final.
  - destruct (JsMap.has (servers g) n) eqn:Hn.
    + by rewrite addServer_present.
    + destruct op as [|e].
      * destruct (addServer_persisted n p a oc g Hn) as [-> _]. simpl.
        by apply JsMap_wf_set.
      * by rewrite addServer_persist_rejects.
  - destruct (JsMap.get (servers g) n) as [st|] eqn:Hget.
    + rewrite (removeServer_registered _ _ _ _ _ Hget).
      destruct (close_error st ocl); [done|].
      destruct op; simpl; by apply JsMap_wf_delete.
    + by rewrite removeServer_not_registered.
Qed.

Lemma serve_all_keeps_wf rqs g :
  JsMap.wf (servers g) → JsMap.wf (servers (serve_all rqs g)).
Proof.
  revert g. induction rqs as [|rq rqs IH]; intros g Hwf; [done|].
  simpl. apply IH. by apply serve_keeps_wf.
Qed.

(** ** shutdown closes every client and lets no failure out *)

Lemma for_each_harmless {A} (l : list A) (body : A → Async unit) g :
  (∀ x g, completion (body x g) = Return tt ∧ final (body x g) = g) →
  completion (for_each l body g) = Return tt ∧ final (for_each l body g) = g.
Proof.
  intros Hbody. induction l as [|x l IH]; [done|].
  cbn [for_each]. unfold bind.
  destruct (Hbody x g) as [Hc Hf].
  destruct (body x g) as [cmp fin tr]. cbn [completion final] in Hc, Hf.
  subst cmp fin.
  destruct IH as [Hc Hf].
  destruct (for_each l body g) as [cmp fin tr'].
  cbn [completion final] in Hc, Hf. by subst cmp fin.
Qed.

Lemma shutdown_best_effort closes g :
  completion (shutdown closes g) = Return tt
  ∧ servers (final (shutdown closes g)) = JsMap.empty.
Proof.
  unfold shutdown.
  set (body := λ '(name, state), _).
  assert (Hloop : ∀ l g, completion (for_each l body g) = Return tt
                         ∧ final (for_each l body g) = g).
  { intros l g'. apply for_each_harmless. intros [name state] g''.
    subst body. cbn beta iota.
    destruct (ServerState.client state) as [c|]; [|done].
    run_async. by destruct (closes name). }
  run_async.
  destruct (Hloop (JsMap.entries (servers g)) g) as [Hc Hf].
  destruct (for_each _ body g) as [cmp fin tr].
  cbn [completion final] in Hc, Hf. by subst cmp fin.
Qed.

(** C4 fails when the first connect fails: ["fs"] is added to a gateway that
    does not know it, the configuration is persisted, the connect is
    rejected, and [addServer] fails with SERVER_ADD_FAILED; afterwards ["fs"]
    is in the registry and in the persisted configuration. *)
Lemma addServer_no_rollback_counterexample :
  let g := fresh_gateway None in
  let r := addServer "fs" "@modelcontextprotocol/server-filesystem" None
             PersistResolves (ConnectRejects (Error "MCP error -32000: Connection closed")) g in
  JsMap.has (servers g) "fs" = false
  ∧ fails_with ErrorCode.SERVER_ADD_FAILED (completion r)
  ∧ JsMap.has (servers (final r)) "fs" = true
  ∧ is_Some (ConfigManager.persisted (configManager (final r)) !! "fs").
Proof.
  split_and!; [reflexivity | reflexivity | reflexivity |].
  simpl. rewrite lookup_insert_eq. by eexists.
Qed.

(** C4, amended.  [addServer] on a registered name fails with
    SERVER_ALREADY_EXISTS and changes nothing.  Otherwise, when persisting
    fails it fails with SERVER_ADD_FAILED and the gateway is as before, the
    name absent; when persisting succeeds and the first connect fails it
    fails with SERVER_ADD_FAILED as well, and nothing is rolled back: the
    name stays in the registry, in status 'error' with the message of the
    failure, and stays in the persisted configuration. *)
Theorem addServer_failures (g : Gateway) (name pkg : string)
    (args : option (list string)) (op : PersistOutcome)
    (oc : ConnectOutcome) :
  let r := addServer name pkg args op oc g in
  let cfg := ServerConfig.mk name pkg args in
  (JsMap.has (servers g) name = true →
     fails_with ErrorCode.SERVER_ALREADY_EXISTS (completion r)
     ∧ final r = g ∧ trace r = [])
  ∧ (JsMap.has (servers g) name = false →
     ∀ e, op = PersistRejects e →
       fails_with ErrorCode.SERVER_ADD_FAILED (completion r)
       ∧ final r = g
       ∧ JsMap.has (servers (final r)) name = false)
  ∧ (JsMap.has (servers g) name = false →
     op = PersistResolves →
     ∀ e, connect_error oc = Some e →
       fails_with ErrorCode.SERVER_ADD_FAILED (completion r)
       ∧ JsMap.get (servers (final r)) name = Some (failed_state cfg e)
       ∧ ConfigManager.persisted (configManager (final r)) !! name
         = Some cfg).
Proof.
  intros r cfg. subst r. split_and!.
  - intros H. rewrite addServer_present by done. simpl.
    split; [reflexivity | done].
  - intros H e ->. rewrite addServer_persist_rejects by done. simpl.
    split; [reflexivity | done].
  - intros H -> e He.
    destruct (addServer_persisted name pkg args oc g H) as [-> ->].
    rewrite He. simpl. split_and!.
    + reflexivity.
    + rewrite JsMap_get_set. by destruct oc; simplify_eq/=.
    + apply lookup_insert_eq.
Qed.

Lemma addServer_failures_witness :
  let g := chrome_gateway None in
  (let r := addServer "chrome" "other-package" None PersistResolves
              (ConnectRejects (Error "unused")) g in
   fails_with ErrorCode.SERVER_ALREADY_EXISTS (completion r)
   ∧ final r = g ∧ trace r = [])
  ∧ (let r := addServer "fs" "fs-package" None
                (PersistRejects (Error "EACCES")) 
                (ConnectRejects (Error "unused")) g in
     fails_with ErrorCode.SERVER_ADD_FAILED (completion r)
     ∧ final r = g
     ∧ JsMap.has (servers (final r)) "fs" = false)
  ∧ (let r := addServer "fs" "fs-package" None PersistResolves
                (ConnectRejects (Error "MCP error -32000: Connection closed")) g in
     fails_with ErrorCode.SERVER_ADD_FAILED (completion r)
     ∧ JsMap.get (servers (final r)) "fs"
       = Some (failed_state (ServerConfig.mk "fs" "fs-package" None)
                 (Error "MCP error -32000: Connection closed"))
     ∧ ConfigManager.persisted (configManager (final r)) !! "fs"
       = Some (ServerConfig.mk "fs" "fs-package" None)).
Proof.
  split_and!.
  - apply (proj1 (addServer_failures (chrome_gateway None) "chrome"
                    "other-package" None PersistResolves
                    (ConnectRejects (Error "unused")))).
    reflexivity.
  - apply (proj1 (proj2 (addServer_failures (chrome_gateway None) "fs"
                           "fs-package" None (PersistRejects (Error "EACCES"))
                           (ConnectRejects (Error "unused"))))
             eq_refl (Error "EACCES")).
    reflexivity.
  - apply (proj2 (proj2 (addServer_failures (chrome_gateway None) "fs"
                           "fs-package" None PersistResolves
                           (ConnectRejects (Error "MCP error -32000: Connection closed"))))
             eq_refl eq_refl (Error "MCP error -32000: Connection closed")).
    reflexivity.
Defined.

(** C5 fails twice over on a registered, connected backend whose name is
    also in the persisted configuration: a rejected [close] is thrown on to
    the caller and the removal is abandoned, and a rejected persistence
    leaves the name out of the registry but in the configuration. *)
Lemma removeServer_counterexample :
  let g := chrome_gateway None in
  let closing := removeServer "chrome" (CloseRejects (Error "EPIPE"))
                   PersistResolves g in
  let persisting := removeServer "chrome" CloseResolves
                      (PersistRejects (Error "EACCES")) g in
  consistent g
  ∧ completion closing = Throw (Error "EPIPE")
  ∧ JsMap.has (servers (final closing)) "chrome" = true
  ∧ completion persisting = Throw (Error "EACCES")
  ∧ JsMap.has (servers (final persisting)) "chrome" = false
  ∧ is_Some (ConfigManager.persisted (configManager (final persisting))
               !! "chrome")
  ∧ ¬ consistent (final persisting).
Proof.
  intros g closing persisting.
  set (cfg := ServerConfig.mk "chrome" "chrome-devtools-mcp@latest"
                (Some ["--headless=true"])).
  assert (Hp : ConfigManager.persisted (configManager g)
               = <["chrome" := cfg]> ∅) by reflexivity.
  assert (Hkeys : JsMap.keys (servers g) = ["chrome"]) by reflexivity.
  assert (Hsame : configManager (final persisting) = configManager g)
    by reflexivity.
  assert (Hcfg : is_Some (ConfigManager.persisted
                            (configManager (final persisting)) !! "chrome")).
  { rewrite Hsame, Hp, lookup_insert_eq. by eexists. }
  split_and!; try reflexivity; try done.
  - intros n. rewrite JsMap_has_keys, Hkeys, Hp, list_elem_of_singleton.
    destruct (decide ("chrome" = n)) as [<-|Hne].
    + rewrite lookup_insert_eq. split; [by eexists | done].
    + rewrite lookup_insert_ne by done. rewrite lookup_empty.
      split; [done | by intros [? ?]].
  - intros Hcons. apply (Hcons "chrome") in Hcfg. discriminate Hcfg.
Qed.

Lemma consistent_after_removal g name :
  JsMap.wf (servers g) → consistent g →
  consistent
    (mkGateway (JsMap.delete (servers g) name) (config g)
       (ConfigManager.mk
          (delete name (ConfigManager.persisted (configManager g))))).
Proof.
  intros Hwf Hcons n. simpl. unfold JsMap.has.
  destruct (decide (name = n)) as [<-|Hne].
  - rewrite JsMap_get_delete by done. rewrite lookup_delete_eq.
    split; [done | by intros [? ?]].
  - rewrite JsMap_get_delete_ne by done. rewrite lookup_delete_ne by done.
    apply Hcons.
Qed.

(** C5, amended.  [removeServer] on a name that is not registered fails with
    SERVER_NOT_FOUND and does nothing.  On a registered name it closes the
    client if there is one and, when that close does not fail, deletes the
    registry entry and then has the configuration manager remove the name,
    in that order.  A rejected persistence is logged and thrown on to the
    caller with the registry entry already deleted, the configuration
    manager being left as the failed call left it.  When every step succeeds
    the name is gone from registry and configuration, and a registry and
    configuration that agreed before agree afterwards. *)
Theorem removeServer_behaviour (g : Gateway) (name : string)
    (ocl : CloseOutcome) (op : PersistOutcome) :
  let r := removeServer name ocl op g in
  (JsMap.get (servers g) name = None →
     fails_with ErrorCode.SERVER_NOT_FOUND (completion r)
     ∧ final r = g ∧ trace r = [])
  ∧ (∀ st, JsMap.get (servers g) name = Some st →
       close_error st ocl = None →
       (∀ e, op = PersistRejects e →
          completion r = Throw e
          ∧ servers (final r) = JsMap.delete (servers g) name
          ∧ configManager (final r) = configManager g
          ∧ trace r
            = close_events st
              ++ [ConfigRemoveServer name;
                  ConsoleError ("✗ Failed to remove server '" +:+ name
                                +:+ "': " +:+ message e)])
       ∧ (op = PersistResolves →
          completion r = Return tt
          ∧ servers (final r) = JsMap.delete (servers g) name
          ∧ ConfigManager.persisted (configManager (final r))
            = delete name (ConfigManager.persisted (configManager g))
          ∧ trace r
            = close_events st
              ++ [ConfigRemoveServer name;
                  ConsoleLog ("✓ Server '" +:+ name
                              +:+ "' removed successfully")]
          ∧ (JsMap.wf (servers g) → consistent g → consistent (final r)))).
Proof.
  intros r. subst r. split.
  - intros H. rewrite removeServer_not_registered by done. simpl.
    split; [reflexivity | done].
  - intros st H Hcl. rewrite (removeServer_registered _ _ _ _ _ H), Hcl.
    split.
    + by intros e ->.
    + intros ->. simpl. split_and!; try done.
      apply consistent_after_removal.
Qed.

Lemma removeServer_behaviour_witness :
  let g := chrome_fs_gateway in
  (let r := removeServer "ghost" CloseResolves PersistResolves g in
   fails_with ErrorCode.SERVER_NOT_FOUND (completion r)
   ∧ final r = g ∧ trace r = [])
  ∧ (let r := removeServer "chrome" CloseResolves
                (PersistRejects (Error "EACCES")) g in
     completion r = Throw (Error "EACCES")
     ∧ servers (final r) = JsMap.delete (servers g) "chrome"
     ∧ configManager (final r) = configManager g
     ∧ trace r
       = [ClientClose (ClientObject 1); ConfigRemoveServer "chrome";
          ConsoleError "✗ Failed to remove server 'chrome': EACCES"]).
Proof.
  split.
  - apply (proj1 (removeServer_behaviour chrome_fs_gateway "ghost"
                    CloseResolves PersistResolves)).
    reflexivity.
  - eapply (proj1 (proj2 (removeServer_behaviour chrome_fs_gateway "chrome"
                            CloseResolves (PersistRejects (Error "EACCES")))
                     _ eq_refl eq_refl)).
    reflexivity.
Defined.

(** ** Listing *)

Lemma listServers_snapshots g :
  listServers g = map (λ '(name, state), snapshot name state) (servers g).
Proof. reflexivity. Qed.

Lemma listed_names_keys g : listed_names g = JsMap.keys (servers g).
Proof.
  unfold listed_names. rewrite listServers_snapshots. unfold JsMap.keys.
  induction (servers g) as [|[n st] m IH]; simpl; [done|]. by rewrite IH.
Qed.

Lemma snapshot_listed (m : JsMap.t ServerState.t) n st :
  JsMap.get m n = Some st →
  snapshot n st ∈ map (λ '(name, state), snapshot name state) m.
Proof.
  induction m as [|[k v] m IH]; simpl; [done|].
  destruct (String.eqb_spec k n) as [->|Hne].
  - intros [= ->]. apply list_elem_of_here.
  - intros H. apply list_elem_of_further. by apply IH.
Qed.

Lemma listed_snapshot (m : JsMap.t ServerState.t) i :
  JsMap.wf m →
  i ∈ map (λ '(name, state), snapshot name state) m →
  ∃ st, JsMap.get m (ServerInfo.name i) = Some st
        ∧ i = snapshot (ServerInfo.name i) st.
Proof.
  unfold JsMap.wf. induction m as [|[k v] m IH]; simpl.
  - intros _ H. by apply elem_of_nil in H.
  - rewrite NoDup_cons. intros [Hnin Hnd] H.
    apply elem_of_cons in H as [-> | H].
    + exists v. simpl. by rewrite String.eqb_refl.
    + destruct (IH Hnd H) as (st & Hget & Hi). exists st. split; [|done].
      destruct (String.eqb_spec k (ServerInfo.name i)) as [Heq|]; [|done].
      exfalso. apply Hnin. rewrite Heq.
      apply JsMap_has_keys. unfold JsMap.has. by rewrite Hget.
Qed.

(** C6.  [getServerInfo] completes normally, calls nothing outside and
    leaves the gateway as it was.  Its result has one snapshot per registry
    entry and no other: the names listed are the keys of the registry in
    their order, no name is listed twice, a name is listed exactly when it
    is registered, and each element is the snapshot (name, package, status,
    tool count, last error, time of last connect) of the entry registered
    under its name.  The order is that of registration: adding a new name
    puts it last, removing a name leaves the others in place. *)
Theorem getServerInfo_lists_registry (g : Gateway) :
  JsMap.wf (servers g) →
  let r := getServerInfo g in
  ∃ infos,
    completion r = Return infos ∧ final r = g ∧ trace r = []
    ∧ map ServerInfo.name infos = JsMap.keys (JsMap.entries (servers g))
    ∧ NoDup (map ServerInfo.name infos)
    ∧ (∀ n, n ∈ map ServerInfo.name infos ↔ JsMap.has (servers g) n = true)
    ∧ (∀ i, i ∈ infos ↔
            ∃ st, JsMap.get (servers g) (ServerInfo.name i) = Some st
                  ∧ i = snapshot (ServerInfo.name i) st)
    ∧ (∀ n pkg args oc,
         JsMap.has (servers g) n = false →
         listed_names (serve (AddServer n pkg args PersistResolves oc) g)
         = map ServerInfo.name infos ++ [n])
    ∧ (∀ n st ocl op,
         JsMap.get (servers g) n = Some st → close_error st ocl = None →
         listed_names (serve (RemoveServer n ocl op) g)
         = filter (λ x, x ≠ n) (map ServerInfo.name infos)).
Proof.
  intros Hwf r. subst r. rewrite getServerInfo_outcome.
  eexists. split; [reflexivity|]. simpl.
  change (map ServerInfo.name
            (map (λ '(name, state), snapshot name state)
               (JsMap.entries (servers g))))
    with (listed_names g).
  rewrite listed_names_keys. unfold JsMap.entries. split_and!; try done.
  - intros n. by rewrite JsMap_has_keys.
  - intros i. split.
    + by apply listed_snapshot.
    + intros (st & Hget & ->). by apply snapshot_listed.
  - intros n pkg args oc Hn. simpl.
    destruct (addServer_persisted n pkg args oc g Hn) as [Hf _].
    rewrite listed_names_keys, Hf. simpl.
    apply JsMap_has_false in Hn. rewrite JsMap_set_new by done.
    unfold JsMap.keys. by rewrite map_app.
  - intros n st ocl op Hget Hcl. simpl.
    rewrite listed_names_keys, (removeServer_registered _ _ _ _ _ Hget), Hcl.
    destruct op; simpl; by apply JsMap_keys_delete.
Qed.

Lemma getServerInfo_lists_registry_witness :
  ∃ infos,
    completion (getServerInfo chrome_fs_gateway) = Return infos
    ∧ map ServerInfo.name infos = ["chrome"; "fs"]
    ∧ map ServerInfo.status infos = [Status.connected; Status.error]
    ∧ map ServerInfo.toolCount infos = [1; 0].
Proof.
  assert (Hwf : JsMap.wf (servers chrome_fs_gateway)).
  { unfold JsMap.wf. simpl. apply (bool_decide_unpack _). reflexivity. }
  destruct (getServerInfo_lists_registry chrome_fs_gateway Hwf)
    as (infos & Hc & _).
  exists infos. split; [exact Hc|].
  injection Hc as <-. split_and!; reflexivity.
Defined.

(** ** Adding after a failure, adding after a removal *)

(** C10.  When [addServer] has persisted the configuration and the first
    connect then fails, the call fails with SERVER_ADD_FAILED and the name
    stays behind: it is in the registry with status 'error', its spec is in
    the persisted configuration, and [getServerInfo] lists it.  From then
    on, after any requests among which there is no [removeServer] for this
    name, every [addServer] for it fails with SERVER_ALREADY_EXISTS. *)
Theorem addServer_failure_blocks_name (g : Gateway) (name pkg : string)
    (args : option (list string)) (oc : ConnectOutcome) (e : JsError) :
  JsMap.has (servers g) name = false →
  connect_error oc = Some e →
  let cfg := ServerConfig.mk name pkg args in
  let failed := addServer name pkg args PersistResolves oc g in
  fails_with ErrorCode.SERVER_ADD_FAILED (completion failed)
  ∧ (∃ st, JsMap.get (servers (final failed)) name = Some st
           ∧ ServerState.status st = Status.error
           ∧ ServerState.lastError st = Some (message e))
  ∧ ConfigManager.persisted (configManager (final failed)) !! name = Some cfg
  ∧ (∃ i, i ∈ listServers (final failed)
          ∧ ServerInfo.name i = name
          ∧ ServerInfo.status i = Status.error)
  ∧ (∀ rqs, Forall (λ rq, ¬ removes name rq) rqs →
       ∀ pkg' args' op' oc',
         fails_with ErrorCode.SERVER_ALREADY_EXISTS
           (completion (addServer name pkg' args' op' oc'
                          (serve_all rqs (final failed))))).
Proof.
  intros Hnew He cfg failed.
  destruct (addServer_persisted name pkg args oc g Hnew) as [Hf Hc].
  fold cfg failed in Hf, Hc. rewrite He in Hc.
  assert (Hget : JsMap.get (servers (final failed)) name
                 = Some (failed_state cfg e)).
  { rewrite Hf. simpl. rewrite JsMap_get_set. by destruct oc; simplify_eq/=. }
  split_and!.
  - rewrite Hc. reflexivity.
  - by exists (failed_state cfg e).
  - rewrite Hf. simpl. apply lookup_insert_eq.
  - exists (snapshot name (failed_state cfg e)). split; [|done].
    rewrite listServers_snapshots. by apply snapshot_listed.
  - intros rqs Hrqs pkg' args' op' oc'.
    rewrite addServer_present; [reflexivity|].
    apply serve_all_keeps_registered; [done|].
    unfold JsMap.has. by rewrite Hget.
Qed.

Lemma addServer_failure_blocks_name_witness :
  let failed := addServer "fs" "@modelcontextprotocol/server-filesystem" None
                  PersistResolves (ConnectRejects (Error "MCP error -32000: Connection closed"))
                  (chrome_gateway (Some 30000%Z)) in
  fails_with ErrorCode.SERVER_ALREADY_EXISTS
    (completion
       (addServer "fs" "@modelcontextprotocol/server-filesystem"
          (Some ["/home/user/workspace"]) PersistResolves
          (Connected (ClientObject 2) [] {| toISOString := "t1" |})
          (serve_all
             [GetServerInfo;
              CallTool "fs" "read_file" JsNull (TimerFiresFirst None);
              RemoveServer "chrome" CloseResolves PersistResolves]
             (final failed)))).
Proof.
  intros failed.
  apply (addServer_failure_blocks_name (chrome_gateway (Some 30000%Z)) "fs"
           "@modelcontextprotocol/server-filesystem" None
           (ConnectRejects (Error "MCP error -32000: Connection closed"))
           (Error "MCP error -32000: Connection closed")).
  - reflexivity.
  - reflexivity.
  - repeat (apply List.Forall_cons || apply List.Forall_nil);
      cbn [removes]; intros H; solve [destruct H | discriminate H].
Defined.

(** The events of [addServer] and its completion depend on the gateway only
    through whether the name is registered. *)
Lemma addServer_same_registry name pkg args op oc g g' :
  servers g = servers g' →
  completion (addServer name pkg args op oc g)
  = completion (addServer name pkg args op oc g')
  ∧ trace (addServer name pkg args op oc g)
    = trace (addServer name pkg args op oc g').
Proof.
  intros Heq. unfold addServer, connectServer. run_async.
  rewrite Heq. destruct (JsMap.has (servers g') name); [done|].
  by destruct op, oc.
Qed.

(** C8.  After [addServer] for a name has succeeded and [removeServer] for
    it has then succeeded, the name is not listed and the registry is what
    it was before the two calls.  A further [addServer] for the name then
    behaves as it would have on the gateway before them: the same
    completion and the same calls to the outside whatever the collaborators
    answer, and, when the persistence succeeds, the same gateway
    afterwards; it succeeds when persistence and connect do. *)
Theorem add_remove_round_trip (g : Gateway) (x pkg : string)
    (args : option (list string)) (op op' : PersistOutcome)
    (oc : ConnectOutcome) (ocl : CloseOutcome) :
  let added := addServer x pkg args op oc g in
  let removed := removeServer x ocl op' (final added) in
  completion added = Return tt →
  completion removed = Return tt →
  (x ∉ listed_names (final removed))
  ∧ servers (final removed) = servers g
  ∧ (∀ pkg2 args2 op2 oc2,
       let again := addServer x pkg2 args2 op2 oc2 (final removed) in
       let fresh := addServer x pkg2 args2 op2 oc2 g in
       completion again = completion fresh
       ∧ trace again = trace fresh
       ∧ servers (final again) = servers (final fresh)
       ∧ (op2 = PersistResolves → final again = final fresh)
       ∧ (op2 = PersistResolves → connect_error oc2 = None →
          completion again = Return tt
          ∧ x ∈ listed_names (final again))).
Proof.
  intros added removed Hadd Hrem.
  assert (Hnew : JsMap.has (servers g) x = false).
  { destruct (JsMap.has (servers g) x) eqn:E; [|done].
    subst added. by rewrite addServer_present in Hadd. }
  assert (op = PersistResolves) as ->.
  { destruct op as [|e]; [done|].
    subst added. by rewrite addServer_persist_rejects in Hadd. }
  destruct (addServer_persisted x pkg args oc g Hnew) as [Hf _].
  fold added in Hf.
  set (st := state_after_connect (ServerConfig.mk x pkg args) oc) in *.
  assert (Hget : JsMap.get (servers (final added)) x = Some st).
  { rewrite Hf. simpl. apply JsMap_get_set. }
  subst removed. rewrite (removeServer_registered _ _ _ _ _ Hget) in *.
  destruct (close_error st ocl); [done|].
  destruct op' as [|e]; [|done]. simpl. clear Hrem.
  assert (Hservers : JsMap.delete (servers (final added)) x = servers g).
  { rewrite Hf. simpl. apply JsMap_has_false in Hnew.
    rewrite JsMap_set_new by done. by apply JsMap_delete_appended. }
  rewrite Hservers. split_and!.
  - rewrite listed_names_keys. simpl.
    apply JsMap_get_None_keys. by apply JsMap_has_false.
  - done.
  - intros pkg2 args2 op2 oc2.
    set (again := addServer x pkg2 args2 op2 oc2 _).
    set (fresh := addServer x pkg2 args2 op2 oc2 g).
    destruct (addServer_same_registry x pkg2 args2 op2 oc2
                (mkGateway (servers g) (config (final added))
                   (ConfigManager.mk
                      (delete x (ConfigManager.persisted
                                   (configManager (final added))))))
                g eq_refl) as [Hc Ht].
    fold again fresh in Hc, Ht.
    assert (Hfinal : op2 = PersistResolves → final again = final fresh).
    { intros ->. subst again fresh.
      destruct (addServer_persisted x pkg2 args2 oc2 g Hnew) as [-> _].
      destruct (addServer_persisted x pkg2 args2 oc2
                  (mkGateway (servers g) (config (final added))
                     (ConfigManager.mk
                        (delete x (ConfigManager.persisted
                                     (configManager (final added))))))
                  Hnew) as [-> _].
      simpl. rewrite Hf. simpl.
      by rewrite delete_insert_eq, insert_delete_eq. }
    split_and!; try done.
    + destruct op2 as [|e2]; [by rewrite Hfinal|].
      subst again fresh. by rewrite !addServer_persist_rejects.
    + intros -> Hok. rewrite Hc. subst fresh.
      destruct (addServer_persisted x pkg2 args2 oc2 g Hnew) as [Hf2 ->].
      rewrite Hok. split; [done|].
      rewrite Hfinal by done. rewrite listed_names_keys, Hf2. simpl.
      apply JsMap_has_keys. unfold JsMap.has. by rewrite JsMap_get_set.
Qed.

Lemma add_remove_round_trip_witness :
  let g := chrome_fs_gateway in
  let added := addServer "x" "x-package" None PersistResolves
                 (Connected (ClientObject 2) [] {| toISOString := "t0" |}) g in
  let removed := removeServer "x" CloseResolves PersistResolves
                   (final added) in
  ("x" ∉ listed_names (final removed))
  ∧ servers (final removed) = servers g
  ∧ (∀ pkg2 args2 op2 oc2,
       let again := addServer "x" pkg2 args2 op2 oc2 (final removed) in
       let fresh := addServer "x" pkg2 args2 op2 oc2 g in
       completion again = completion fresh
       ∧ trace again = trace fresh
       ∧ servers (final again) = servers (final fresh)
       ∧ (op2 = PersistResolves → final again = final fresh)
       ∧ (op2 = PersistResolves → connect_error oc2 = None →
          completion again = Return tt
          ∧ "x" ∈ listed_names (final again))).
Proof.
  apply (add_remove_round_trip chrome_fs_gateway "x" "x-package" None
           PersistResolves PersistResolves
           (Connected (ClientObject 2) [] {| toISOString := "t0" |})
           CloseResolves).
  - reflexivity.
  - reflexivity.
Defined.

(** ** Channel death *)

Lemma JsMap_Forall_set {V} (P : string * V → Prop) (m : JsMap.t V) k v :
  (∀ k', P (k', v)) → Forall P m → Forall P (JsMap.set m k v).
Proof.
  intros Hv. induction 1 as [|[k' v'] m Hx Hm IH]; simpl.
  - by repeat constructor.
  - destruct (String.eqb k' k); by constructor.
Qed.

Lemma JsMap_Forall_delete {V} (P : string * V → Prop) (m : JsMap.t V) k :
  Forall P m → Forall P (JsMap.delete m k).
Proof.
  induction 1 as [|[k' v'] m Hx Hm IH]; simpl; [done|].
  destruct (String.eqb k' k); [done | by constructor].
Qed.

Lemma state_after_connect_not_reconnecting cfg oc :
  not_reconnecting (state_after_connect cfg oc).
Proof. by destruct oc. Qed.

(** No request starts a reconnect or counts an attempt. *)
Lemma serve_never_reconnecting rq g :
  never_reconnecting g → never_reconnecting (serve rq g).
Proof.
  unfold never_reconnecting, JsMap.entries. intros Hinv.
  destruct rq as [s t a race | | s | n p a op oc | n ocl op];
    cbn [serve].
  - by rewrite callTool_final.
  - done.
  - by rewrite getServerTools_final.
  - destruct (JsMap.has (servers g) n) eqn:Hn.
    + by rewrite addServer_present.
    + destruct op as [|e].
      * destruct (addServer_persisted n p a oc g Hn) as [-> _].
        cbn [servers]. apply JsMap_Forall_set; [|done].
        intros k'. apply state_after_connect_not_reconnecting.
      * by rewrite addServer_persist_rejects.
  - destruct (JsMap.get (servers g) n) as [st|] eqn:Hget.
    + rewrite (removeServer_registered _ _ _ _ _ Hget).
      destruct (close_error st ocl); [done|].
      destruct op; cbn [final servers]; by apply JsMap_Forall_delete.
    + by rewrite removeServer_not_registered.
Qed.

Lemma serve_all_never_reconnecting rqs g :
  never_reconnecting g → never_reconnecting (serve_all rqs g).
Proof.
  revert g. induction rqs as [|rq rqs IH]; intros g Hinv; [done|].
  cbn [serve_all foldl]. apply IH. by apply serve_never_reconnecting.
Qed.

Lemma constructor_never_reconnecting cm cfg :
  never_reconnecting (constructor cm cfg).
Proof. apply Forall_nil_2. Qed.

(** C7, what the code does.  A send to a ready backend that fails because
    the channel is gone is all the gateway ever sees of a channel death, and
    it does nothing about it: however many such calls follow one another,
    the gateway is as before, so the backend is still ready, its status is
    still 'connected' and its [reconnectAttempts] is what it was; a call
    makes no attempt to connect and sets no timer but its own timeout.  No
    reconnect is scheduled at any interval and the status never becomes
    'reconnecting' or 'error'. *)
Theorem channel_death_not_handled (g : Gateway)
    (serverName toolName : string) (args : JsValue) (e : JsError)
    (c : Client) (n : nat) :
  ready g serverName c →
  let race := SendSettlesFirst (SendRejects TransportFailure e) in
  let r := callTool serverName toolName args race g in
  let g' := serve_all (replicate n (CallTool serverName toolName args race))
              g in
  g' = g
  ∧ ready g' serverName c
  ∧ filter is_connect_attempt (trace r) = []
  ∧ filter is_timer (trace r)
    = [SetTimeout (timeout_or_default (configured_timeout g))].
Proof.
  intros Hready race r g'.
  assert (Hsame : g' = g).
  { subst g'. induction n as [|n IH]; [done|].
    simpl. by rewrite callTool_final. }
  rewrite Hsame. subst r race.
  rewrite (callTool_ready _ _ _ _ _ _ Hready). by split_and!.
Qed.

Lemma channel_death_not_handled_witness :
  let g := chrome_gateway None in
  let death := CallTool "chrome" "navigate" JsNull
                 (SendSettlesFirst
                    (SendRejects TransportFailure (Error "write EPIPE"))) in
  let g' := serve_all [death; death; death; death] g in
  g' = g
  ∧ (ServerState.status <$> JsMap.get (servers g') "chrome")
    = Some Status.connected
  ∧ (ServerState.reconnectAttempts <$> JsMap.get (servers g') "chrome")
    = Some 0%Z.
Proof.
  assert (Hready : ready (chrome_gateway None) "chrome" (ClientObject 1)).
  { eexists. split_and!; reflexivity. }
  destruct (channel_death_not_handled (chrome_gateway None) "chrome"
              "navigate" JsNull (Error "write EPIPE") (ClientObject 1) 4
              Hready) as (Hsame & _).
  simpl in Hsame. split_and!; [exact Hsame | reflexivity | reflexivity].
Defined.

(** * Further properties of the gateway *)

(** ** The trace of connectServer and addServer *)

(** The command line of a backend: the package first, then its arguments. *)
Lemma connectServer_trace name cfg oc g :
  ∃ rest,
    trace (connectServer name cfg oc g)
    = [ConsoleLog ("Connecting to server '" +:+ name +:+ "' ("
                   +:+ ServerConfig.package cfg +:+ ")...");
       Spawn "npx" (ServerConfig.package cfg
                    :: args_or_empty (ServerConfig.args cfg));
       ClientConnect "npx" (ServerConfig.package cfg
                            :: args_or_empty (ServerConfig.args cfg))]
      ++ rest
    ∧ filter is_connect_attempt rest = []
    ∧ filter is_persist rest = []
    ∧ filter is_close rest = [].
Proof.
  unfold connectServer.
  destruct oc as [e | c e | c listed now]; run_async;
    eexists; (split; [reflexivity|]); done.
Qed.

Lemma addServer_trace name pkg args oc g :
  JsMap.has (servers g) name = false →
  ∃ rest,
    trace (addServer name pkg args PersistResolves oc g)
    = [ConfigAddServer name (ServerConfig.mk name pkg args);
       ConsoleLog ("Connecting to server '" +:+ name +:+ "' ("
                   +:+ pkg +:+ ")...");
       Spawn "npx" (pkg :: args_or_empty args);
       ClientConnect "npx" (pkg :: args_or_empty args)]
      ++ rest
    ∧ filter is_connect_attempt rest = []
    ∧ filter is_persist rest = []
    ∧ filter is_close rest = [].
Proof.
  intros H. unfold addServer, connectServer. run_async. rewrite H.
  destruct oc as [e | c e | c listed now];
    eexists; (split; [reflexivity|]); done.
Qed.

(** X1.  [getServerTools] on a name that is not registered fails with
    SERVER_NOT_FOUND.  On a registered name it returns the catalog stored at
    the last connect whatever the status: after [addServer] has persisted
    and connected, exactly the tools the backend listed, in their order;
    after [addServer] has persisted and the connect failed, the empty list,
    not an error.  It calls nothing outside and changes nothing. *)
Theorem getServerTools_catalog (g : Gateway) (name pkg : string)
    (args : option (list string)) (oc : ConnectOutcome) :
  (JsMap.get (servers g) name = None →
     let r := getServerTools name g in
     fails_with ErrorCode.SERVER_NOT_FOUND (completion r)
     ∧ final r = g ∧ trace r = [])
  ∧ (JsMap.has (servers g) name = false →
     let g1 := final (addServer name pkg args PersistResolves oc g) in
     let r := getServerTools name g1 in
     completion r
     = Return match oc with
              | Connected _ listed _ => listed
              | ConnectRejects _ | ListToolsRejects _ _ => []
              end
     ∧ final r = g1 ∧ trace r = []).
Proof.
  split.
  - intros H r. subst r. unfold getServerTools. run_async. rewrite H.
    split; [reflexivity | done].
  - intros H g1 r.
    destruct (addServer_persisted name pkg args oc g H) as [Hf _].
    fold g1 in Hf.
    assert (Hget : JsMap.get (servers g1) name
                   = Some (state_after_connect
                             (ServerConfig.mk name pkg args) oc)).
    { rewrite Hf. cbn [servers]. apply JsMap_get_set. }
    subst r. unfold getServerTools. run_async. rewrite Hget.
    by destruct oc.
Qed.

Lemma getServerTools_catalog_witness :
  (let r := getServerTools "ghost" (fresh_gateway None) in
   fails_with ErrorCode.SERVER_NOT_FOUND (completion r)
   ∧ final r = fresh_gateway None ∧ trace r = [])
  ∧ completion (getServerTools "chrome" (chrome_gateway None))
    = Return [navigate_tool].
Proof.
  split.
  - apply (proj1 (getServerTools_catalog (fresh_gateway None) "ghost" ""
                    None (ConnectRejects (Error "")))).
    reflexivity.
  - apply (proj2 (getServerTools_catalog (fresh_gateway None) "chrome"
                    "chrome-devtools-mcp@latest" (Some ["--headless=true"])
                    (Connected (ClientObject 1) [navigate_tool]
                       {| toISOString := "2025-10-23T14:33:02.000Z" |}))).
    reflexivity.
Defined.

(** X2.  [addServer] for a new name persists the configuration before it
    attempts any connection.  When the persistence fails nothing is spawned
    and no connection is attempted.  When it succeeds the call makes one
    [spawn] of [npx] and one connect of the client, both with the package
    followed by the arguments (none when [args] is omitted), and persists
    once; it never closes a client. *)
Theorem addServer_persists_then_connects (g : Gateway) (name pkg : string)
    (args : option (list string)) (op : PersistOutcome)
    (oc : ConnectOutcome) :
  JsMap.has (servers g) name = false →
  let r := addServer name pkg args op oc g in
  let cfg := ServerConfig.mk name pkg args in
  let command := pkg :: args_or_empty args in
  filter is_persist (trace r) = [ConfigAddServer name cfg]
  ∧ filter is_close (trace r) = []
  ∧ (∀ e, op = PersistRejects e → filter is_connect_attempt (trace r) = [])
  ∧ (op = PersistResolves →
     filter is_connect_attempt (trace r)
     = [Spawn "npx" command; ClientConnect "npx" command]
     ∧ ∃ rest, trace r = ConfigAddServer name cfg :: rest).
Proof.
  intros H r cfg command. subst r. destruct op as [|e].
  - destruct (addServer_trace name pkg args oc g H)
      as (rest & -> & Hc & Hp & Hcl).
    rewrite !filter_app, Hc, Hp, Hcl. split_and!; try done.
    intros _. split; [done | by eexists].
  - rewrite addServer_persist_rejects by done. cbn [trace].
    split_and!; done.
Qed.

Lemma addServer_persists_then_connects_witness :
  let r := addServer "fs" "@modelcontextprotocol/server-filesystem"
             (Some ["/home/user/workspace"]) PersistResolves
             (ConnectRejects (Error "MCP error -32000: Connection closed"))
             (fresh_gateway None) in
  filter is_connect_attempt (trace r)
  = [Spawn "npx" ["@modelcontextprotocol/server-filesystem";
                  "/home/user/workspace"];
     ClientConnect "npx" ["@modelcontextprotocol/server-filesystem";
                          "/home/user/workspace"]].
Proof.
  apply (addServer_persists_then_connects (fresh_gateway None) "fs"
           "@modelcontextprotocol/server-filesystem"
           (Some ["/home/user/workspace"]) PersistResolves
           (ConnectRejects (Error "MCP error -32000: Connection closed")) eq_refl).
  reflexivity.
Defined.

(** ** What a failed connect leaves behind *)

Lemma clients_of_app (m m' : JsMap.t ServerState.t) :
  clients_of (m ++ m') = clients_of m ++ clients_of m'.
Proof.
  unfold clients_of. induction m as [|[n st] m IH]; [done|].
  cbn. destruct (ServerState.client st); cbn; by rewrite IH.
Qed.

(** X3.  When the client of a new backend has connected and listing its
    tools then fails, [addServer] fails with SERVER_ADD_FAILED and records
    the backend in status 'error' without a client: the client that had
    connected is not closed by the call and is not kept anywhere in the
    registry, whose clients are those it held before. *)
Theorem listTools_failure_drops_client (g : Gateway) (name pkg : string)
    (args : option (list string)) (c : Client) (e : JsError) :
  JsMap.has (servers g) name = false →
  let r := addServer name pkg args PersistResolves (ListToolsRejects c e) g in
  fails_with ErrorCode.SERVER_ADD_FAILED (completion r)
  ∧ ClientListTools ∈ trace r
  ∧ filter is_close (trace r) = []
  ∧ (ServerState.client <$> JsMap.get (servers (final r)) name) = Some None
  ∧ clients_of (servers (final r)) = clients_of (servers g).
Proof.
  intros H r.
  destruct (addServer_persisted name pkg args (ListToolsRejects c e) g H)
    as [Hf Hc].
  fold r in Hf, Hc. rewrite Hf, Hc. cbn [servers connect_error].
  split_and!.
  - reflexivity.
  - subst r. unfold addServer, connectServer. run_async. rewrite H.
    cbn [trace app].
    repeat first [apply list_elem_of_here | apply list_elem_of_further].
  - subst r. destruct (addServer_trace name pkg args (ListToolsRejects c e) g H)
      as (rest & -> & _ & _ & Hcl).
    by rewrite filter_app, Hcl.
  - by rewrite JsMap_get_set.
  - apply JsMap_has_false in H. rewrite JsMap_set_new by done.
    rewrite clients_of_app. cbn. by rewrite app_nil_r.
Qed.

Lemma listTools_failure_drops_client_witness :
  let r := addServer "fs" "fs-package" None PersistResolves
             (ListToolsRejects (ClientObject 7) (Error "Method not found"))
             (chrome_gateway None) in
  fails_with ErrorCode.SERVER_ADD_FAILED (completion r)
  ∧ ClientListTools ∈ trace r
  ∧ filter is_close (trace r) = []
  ∧ (ServerState.client <$> JsMap.get (servers (final r)) "fs") = Some None
  ∧ clients_of (servers (final r)) = clients_of (servers (chrome_gateway None)).
Proof.
  apply (listTools_failure_drops_client (chrome_gateway None) "fs"
           "fs-package" None (ClientObject 7) (Error "Method not found")).
  reflexivity.
Defined.

(** X4.  A name left behind by an [addServer] whose connect failed is
    cleared by [removeServer]: there is no client, so nothing is closed and
    the answer [close] would have given plays no part; when the persistence
    succeeds the call returns, the registry is what it was before the failed
    add, the name is gone from the persisted configuration, and [addServer]
    for the name passes the existence check again. *)
Theorem removeServer_clears_failed_add (g : Gateway) (name pkg : string)
    (args : option (list string)) (oc : ConnectOutcome) (e : JsError)
    (ocl : CloseOutcome) :
  JsMap.has (servers g) name = false →
  connect_error oc = Some e →
  let g1 := final (addServer name pkg args PersistResolves oc g) in
  let r := removeServer name ocl PersistResolves g1 in
  completion r = Return tt
  ∧ filter is_close (trace r) = []
  ∧ servers (final r) = servers g
  ∧ ConfigManager.persisted (configManager (final r)) !! name = None
  ∧ JsMap.has (servers (final r)) name = false.
Proof.
  intros H He g1 r.
  destruct (addServer_persisted name pkg args oc g H) as [Hf _].
  fold g1 in Hf.
  set (st := state_after_connect (ServerConfig.mk name pkg args) oc) in *.
  assert (Hget : JsMap.get (servers g1) name = Some st).
  { rewrite Hf. cbn [servers]. apply JsMap_get_set. }
  assert (Hcl : ServerState.client st = None).
  { subst st. by destruct oc; simplify_eq/=. }
  subst r. rewrite (removeServer_registered _ _ _ _ _ Hget).
  unfold close_error, close_events. rewrite Hcl.
  cbn [completion trace final servers configManager ConfigManager.persisted].
  assert (Hback : JsMap.delete (servers g1) name = servers g).
  { rewrite Hf. cbn [servers]. apply JsMap_has_false in H.
    rewrite JsMap_set_new by done. by apply JsMap_delete_appended. }
  rewrite Hback. split_and!; try done.
  apply lookup_delete_eq.
Qed.

Lemma removeServer_clears_failed_add_witness :
  let r := removeServer "fs" (CloseRejects (Error "never asked"))
             PersistResolves chrome_fs_gateway in
  completion r = Return tt
  ∧ filter is_close (trace r) = []
  ∧ servers (final r) = servers (chrome_gateway (Some 30000%Z))
  ∧ ConfigManager.persisted (configManager (final r)) !! "fs" = None
  ∧ JsMap.has (servers (final r)) "fs" = false.
Proof.
  apply (removeServer_clears_failed_add (chrome_gateway (Some 30000%Z)) "fs"
           "@modelcontextprotocol/server-filesystem" None
           (ConnectRejects (Error "MCP error -32000: Connection closed"))
           (Error "MCP error -32000: Connection closed")
           (CloseRejects (Error "never asked"))).
  - reflexivity.
  - reflexivity.
Defined.

(** ** Loops *)

(** A loop whose body always returns runs the bodies one after another. *)
Lemma for_each_fold {A} (l : list A) (body : A → Async unit)
    (f : A → Gateway → Gateway) g :
  (∀ x g, completion (body x g) = Return tt ∧ final (body x g) = f x g) →
  completion (for_each l body g) = Return tt
  ∧ final (for_each l body g) = foldl (λ g x, f x g) g l.
Proof.
  intros Hbody. revert g. induction l as [|x l IH]; intros g; [done|].
  cbn [for_each foldl]. unfold bind.
  destruct (Hbody x g) as [Hc Hf].
  destruct (body x g) as [cmp fin tr]. cbn [completion final] in Hc, Hf.
  subst cmp fin.
  destruct (IH (f x g)) as [Hc Hf].
  destruct (for_each l body (f x g)) as [cmp fin tr'].
  cbn [completion final] in Hc, Hf. by subst cmp fin.
Qed.

(** The events of one kind in the trace of such a loop are those of its
    bodies, one body after the other. *)
Lemma for_each_trace {A} (l : list A) (body : A → Async unit)
    (P : Event → bool) (h : A → list Event) g :
  (∀ x g, completion (body x g) = Return tt
          ∧ filter P (trace (body x g)) = h x) →
  filter P (trace (for_each l body g)) = concat (map h l).
Proof.
  intros Hbody. revert g. induction l as [|x l IH]; intros g; [done|].
  cbn [for_each map concat]. unfold bind.
  destruct (Hbody x g) as [Hc Ht].
  destruct (body x g) as [cmp fin tr]. cbn [completion trace] in Hc, Ht.
  subst cmp.
  specialize (IH fin).
  destruct (for_each l body fin) as [cmp' fin' tr']. cbn [trace] in *.
  by rewrite filter_app, Ht, IH.
Qed.

(** ** Object.keys *)

Section JsRecord_facts.
Context {V : Type}.
Implicit Types o : JsRecord.t V.

Lemma JsRecord_insert_perm (x : N * (string * V)) l :
  JsRecord.insert x l ≡ₚ x :: l.
Proof.
  induction l as [|y l IH]; [done|].
  cbn [JsRecord.insert]. destruct (x.1 <=? y.1)%N; [done|].
  rewrite IH. apply Permutation_swap.
Qed.

Lemma JsRecord_ascending_perm (l : list (N * (string * V))) :
  JsRecord.ascending l ≡ₚ l.
Proof.
  induction l as [|x l IH]; [done|].
  unfold JsRecord.ascending in *. cbn [foldr].
  by rewrite JsRecord_insert_perm, IH.
Qed.

(** [Object.keys] sorts the array indices. *)
Lemma JsRecord_insert_sorted (x : N * (string * V)) l :
  Sorted (λ a b, (a.1 ≤ b.1)%N) l →
  Sorted (λ a b, (a.1 ≤ b.1)%N) (JsRecord.insert x l).
Proof.
  induction 1 as [|y l Hl IH Hy]; cbn [JsRecord.insert].
  - by repeat constructor.
  - destruct (N.leb_spec x.1 y.1) as [Hle|Hlt].
    + constructor; [by constructor|]. by constructor.
    + constructor; [done|].
      destruct Hy as [|z l' Hz]; cbn [JsRecord.insert].
      * constructor. lia.
      * destruct (x.1 <=? z.1)%N; constructor; [lia|done].
Qed.

Lemma JsRecord_ascending_sorted (l : list (N * (string * V))) :
  Sorted (λ a b, (a.1 ≤ b.1)%N) (JsRecord.ascending l).
Proof.
  induction l as [|x l IH]; [constructor|].
  by apply JsRecord_insert_sorted.
Qed.

Lemma JsRecord_split_perm o :
  map snd (JsRecord.indexed o) ++ JsRecord.named o ≡ₚ o.
Proof.
  induction o as [|p o IH]; [done|].
  cbn [JsRecord.indexed JsRecord.named].
  destruct (JsRecord.array_index p.1); cbn [map snd app].
  - by rewrite IH.
  - by rewrite <- Permutation_middle, IH.
Qed.

(** [Object.keys] lists every property once. *)
Lemma JsRecord_ordered_perm o : JsRecord.ordered o ≡ₚ o.
Proof.
  unfold JsRecord.ordered.
  rewrite (JsRecord_ascending_perm (JsRecord.indexed o)).
  apply JsRecord_split_perm.
Qed.

Lemma JsRecord_keys_perm o : JsRecord.keys o ≡ₚ map fst o.
Proof. unfold JsRecord.keys. by rewrite JsRecord_ordered_perm. Qed.

Lemma JsRecord_keys_NoDup o : JsRecord.wf o → NoDup (JsRecord.keys o).
Proof.
  unfold JsRecord.wf, JsMap.wf, JsMap.keys. intros H.
  by rewrite JsRecord_keys_perm.
Qed.

(** Where no key is an array index, [Object.keys] keeps the order of
    creation. *)
Lemma JsRecord_ordered_named o :
  Forall (λ p, JsRecord.array_index p.1 = None) o → JsRecord.ordered o = o.
Proof.
  unfold JsRecord.ordered, JsRecord.ascending.
  induction 1 as [|p o Hp Ho IH]; [done|].
  cbn [JsRecord.indexed JsRecord.named]. rewrite Hp.
  destruct (JsRecord.indexed o) as [|x l] eqn:Hidx.
  - cbn [foldr map app] in *. by rewrite IH.
  - exfalso. clear IH. revert x l Hidx.
    induction Ho as [|q o Hq Ho IH]; [done|].
    cbn [JsRecord.indexed]. by rewrite Hq.
Qed.

Lemma JsRecord_get_member o name v :
  JsRecord.wf o → (name, v) ∈ o → JsRecord.get o name = Some v.
Proof.
  unfold JsRecord.wf, JsMap.wf, JsMap.keys, JsRecord.get.
  induction o as [|[n c] l IH]; cbn [map fst].
  - intros _ H. by apply elem_of_nil in H.
  - rewrite NoDup_cons. intros [Hnin Hnd] H. cbn [JsMap.get].
    apply elem_of_cons in H as [[= -> ->] | H].
    + by rewrite String.eqb_refl.
    + destruct (String.eqb_spec n name) as [->|]; [|by apply IH].
      exfalso. apply Hnin. apply list_elem_of_fmap. by exists (name, v).
Qed.

Lemma JsRecord_get_ordered o p :
  JsRecord.wf o → p ∈ JsRecord.ordered o → JsRecord.get o p.1 = Some p.2.
Proof.
  intros Hwf Hin. rewrite JsRecord_ordered_perm in Hin.
  destruct p as [name v]. by apply JsRecord_get_member.
Qed.

Lemma JsRecord_get_keys o name :
  name ∈ JsRecord.keys o ↔ is_Some (JsRecord.get o name).
Proof.
  rewrite JsRecord_keys_perm. unfold JsRecord.get.
  destruct (JsMap.get o name) as [v|] eqn:Hget.
  - split; [by eexists|]. intros _.
    destruct (decide (name ∈ map fst o)) as [|Hn]; [done|].
    apply (JsMap_get_None_keys o name) in Hn. congruence.
  - split; [|by intros [? ?]]. intros Hin.
    by apply (JsMap_get_None_keys o name) in Hget.
Qed.

Lemma JsRecord_indexed_index o :
  Forall (λ i, JsRecord.array_index i.2.1 = Some i.1) (JsRecord.indexed o).
Proof.
  induction o as [|p o IH]; [constructor|].
  cbn [JsRecord.indexed].
  destruct (JsRecord.array_index p.1) eqn:Hp; [|done].
  by constructor.
Qed.

Lemma JsRecord_named_filter (l : list (string * V)) :
  JsRecord.named l = filter (λ p, JsRecord.array_index p.1 = None) l.
Proof.
  induction l as [|p o IH]; [done|].
  cbn [JsRecord.named].
  destruct (JsRecord.array_index p.1) eqn:Hp.
  - rewrite filter_cons_False; [done|]. by rewrite Hp.
  - rewrite filter_cons_True by done. by rewrite IH.
Qed.

Lemma JsRecord_named_not_index o :
  Forall (λ p, JsRecord.array_index p.1 = None) (JsRecord.named o).
Proof.
  induction o as [|p o IH]; [constructor|].
  cbn [JsRecord.named].
  destruct (JsRecord.array_index p.1) eqn:Hp; [done|].
  by constructor.
Qed.

End JsRecord_facts.

(** ** initialize *)

Lemma initialize_member_outcome connects members name g :
  completion (initialize_member connects members name g) = Return tt
  ∧ final (initialize_member connects members name g)
    = with_servers (registered_all connects members [name]) g.
Proof.
  unfold initialize_member, registered_all, try_catch. cbn [foldl].
  destruct (JsRecord.get members name) as [cfg|].
  - pose proof (connectServer_final name cfg (connects name) g) as Hf.
    pose proof (connectServer_completion name cfg (connects name) g) as Hc.
    destruct (connectServer name cfg (connects name) g) as [cmp fin tr].
    cbn [completion final] in Hf, Hc. subst cmp fin.
    by destruct (connect_error (connects name)).
  - by destruct g.
Qed.

(** What one turn of the loop sends out. *)
Lemma initialize_member_trace connects members name cfg g :
  JsRecord.get members name = Some cfg →
  filter is_connect_attempt
    (trace (initialize_member connects members name g))
  = [Spawn "npx" (command_line cfg); ClientConnect "npx" (command_line cfg)]
  ∧ filter is_close (trace (initialize_member connects members name g))
    = [].
Proof.
  intros Hget. unfold initialize_member, try_catch. rewrite Hget.
  destruct (connectServer_trace name cfg (connects name) g)
    as (rest & Ht & Hca & _ & Hcl).
  pose proof (connectServer_completion name cfg (connects name) g) as Hc.
  destruct (connectServer name cfg (connects name) g) as [cmp fin tr].
  cbn [completion trace] in Ht, Hc. subst cmp tr.
  destruct (connect_error (connects name)); cbn [emit trace];
    rewrite ?filter_app, Hca, Hcl; done.
Qed.

Lemma foldl_with_servers connects members names g :
  foldl (λ g name, with_servers (registered_all connects members [name]) g)
    g names
  = with_servers (registered_all connects members names) g.
Proof.
  revert g. induction names as [|x l IH]; intros g.
  - by destruct g.
  - cbn [foldl]. rewrite IH. done.
Qed.

Lemma registered_all_get_stable connects members names m name cfg :
  JsRecord.get members name = Some cfg →
  JsMap.get m name = Some (state_after_connect cfg (connects name)) →
  JsMap.get (registered_all connects members names m) name
  = Some (state_after_connect cfg (connects name)).
Proof.
  intros Hcfg. unfold registered_all. revert m.
  induction names as [|n l IH]; intros m Hm; [done|].
  cbn [foldl]. apply IH.
  destruct (JsRecord.get members n) as [c|] eqn:Hn; [|done].
  destruct (decide (n = name)) as [->|Hne].
  - rewrite JsMap_get_set. congruence.
  - by rewrite JsMap_get_set_ne.
Qed.

Lemma registered_all_get_in connects members names m name cfg :
  JsRecord.get members name = Some cfg → name ∈ names →
  JsMap.get (registered_all connects members names m) name
  = Some (state_after_connect cfg (connects name)).
Proof.
  intros Hcfg. revert m.
  induction names as [|n l IH]; intros m Hin; [by apply elem_of_nil in Hin|].
  destruct (decide (n = name)) as [->|Hne].
  - change (registered_all connects members (name :: l) m)
      with (registered_all connects members l
              (registered_all connects members [name] m)).
    apply registered_all_get_stable; [done|].
    unfold registered_all. cbn [foldl]. rewrite Hcfg.
    apply JsMap_get_set.
  - apply elem_of_cons in Hin as [->|Hin]; [done|].
    change (registered_all connects members (n :: l) m)
      with (registered_all connects members l
              (registered_all connects members [n] m)).
    by apply IH.
Qed.

Lemma registered_all_get_notin connects members names m name :
  name ∉ names →
  JsMap.get (registered_all connects members names m) name = JsMap.get m name.
Proof.
  unfold registered_all. revert m.
  induction names as [|n l IH]; intros m Hnin; [done|].
  apply not_elem_of_cons in Hnin as [Hne Hnin].
  cbn [foldl]. rewrite IH by done.
  destruct (JsRecord.get members n); [|done].
  by rewrite JsMap_get_set_ne.
Qed.

Lemma filter_not_in_snoc (l known : list string) n :
  n ∉ l →
  filter (λ k, k ∉ known ++ [n]) l = filter (λ k, k ∉ known) l.
Proof.
  induction l as [|k l IH]; [done|].
  intros [Hne Hn]%not_elem_of_cons.
  destruct (decide (k ∈ known)) as [Hk|Hk].
  - rewrite !filter_cons_False; [by apply IH| tauto |].
    rewrite elem_of_app. tauto.
  - rewrite !filter_cons_True; [by rewrite IH | done |].
    rewrite elem_of_app, list_elem_of_singleton. intros [?|?]; congruence.
Qed.

Lemma registered_all_keys connects members names m :
  NoDup names →
  Forall (λ n, is_Some (JsRecord.get members n)) names →
  JsMap.keys (registered_all connects members names m)
  = JsMap.keys m ++ filter (λ n, n ∉ JsMap.keys m) names.
Proof.
  unfold registered_all. intros Hnd. revert m.
  induction Hnd as [|n l Hn Hnd IH]; intros m Hall.
  - by rewrite app_nil_r.
  - apply Forall_cons in Hall as [[cfg Hcfg] Hall].
    cbn [foldl]. rewrite Hcfg, IH by done.
    destruct (decide (n ∈ JsMap.keys m)) as [Hin|Hnin].
    + rewrite JsMap_keys_set_present by by apply JsMap_has_keys.
      by rewrite filter_cons_False by tauto.
    + rewrite JsMap_set_new by by apply JsMap_get_None_keys.
      replace (JsMap.keys (m ++ [(n, state_after_connect cfg (connects n))]))
        with (JsMap.keys m ++ [n])
        by (unfold JsMap.keys; by rewrite (map_app fst)).
      rewrite filter_cons_True by done.
      rewrite filter_not_in_snoc by done.
      by rewrite <- app_assoc.
Qed.

Lemma initialize_loaded loaded configPath connects g :
  let members := GatewayConfig.servers loaded in
  let r := initialize (LoadResolves loaded) configPath connects g in
  completion r = Return tt
  ∧ final r
    = mkGateway
        (registered_all connects members (JsRecord.keys members) (servers g))
        loaded (configManager g)
  ∧ ∀ (P : Event → bool) h,
      (∀ text, P (ConsoleLog text) = false) → P ConfigLoad = false →
      (∀ name g', filter P (trace (initialize_member connects members name g'))
                  = h name) →
      filter P (trace r) = concat (map h (JsRecord.keys members)).
Proof.
  intros members r. subst r. unfold initialize. fold members.
  change (λ name : string,
            match JsRecord.get members name with
            | Some serverConfig => _
            | None => ret tt
            end)
    with (initialize_member connects members).
  set (body := initialize_member connects members).
  set (g0 := mkGateway (servers g) loaded (configManager g)).
  destruct (for_each_fold (JsRecord.keys members) body
              (λ name, with_servers (registered_all connects members [name]))
              g0 (initialize_member_outcome connects members)) as [Hc Hf].
  rewrite foldl_with_servers in Hf.
  assert (Ht : ∀ (P : Event → bool) h,
             (∀ name g', filter P (trace (body name g')) = h name) →
             filter P (trace (for_each (JsRecord.keys members) body g0))
             = concat (map h (JsRecord.keys members))).
  { intros P h Hh. apply for_each_trace. intros x g'. split; [|apply Hh].
    apply (initialize_member_outcome connects members). }
  run_async. fold g0.
  destruct (for_each _ body g0) as [cmp fin tr].
  cbn [completion final trace] in Hc, Hf, Ht. subst cmp fin.
  split_and!; try done.
  intros P h Hlog Hload Hh. cbn [app trace].
  rewrite !filter_cons_False by (rewrite ?Hlog, ?Hload; exact id).
  rewrite filter_app, (Ht P h Hh).
  rewrite filter_cons_False by (rewrite Hlog; exact id).
  apply app_nil_r.
Qed.

(** X6.  [initialize] fails only when loading the configuration fails, and
    then with the error of the load, before any connect and with the
    gateway as it was.  Once the configuration is loaded it becomes the
    configuration of the gateway and the call returns normally whatever the
    connects do.  The configured servers are connected to one after the
    other, each once, in the order of [Object.keys]: the names that are
    array indices first, in ascending order, then the other names in the
    order of the configuration; the order of the configuration throughout
    when no name is an array index.  Each ends registered under its name
    with what its connect left, connected or in status 'error'; an entry
    that was registered under a configured name before is replaced where it
    stood and its client is not closed; the new names follow the names
    already there.  Entries under other names and the configuration manager
    are left alone. *)
Theorem initialize_registers_configuration (g : Gateway)
    (loaded : GatewayConfig.t) (configPath : string)
    (connects : string → ConnectOutcome) :
  let members := GatewayConfig.servers loaded in
  let r := initialize (LoadResolves loaded) configPath connects g in
  JsRecord.wf members →
  completion r = Return tt
  ∧ config (final r) = loaded
  ∧ configManager (final r) = configManager g
  ∧ filter is_connect_attempt (trace r)
    = connect_attempts (JsRecord.ordered members)
  ∧ JsRecord.ordered members ≡ₚ members
  ∧ (∃ indices names,
       JsRecord.ordered members = map snd indices ++ names
       ∧ Sorted (λ a b, (a.1 ≤ b.1)%N) indices
       ∧ Forall (λ i, JsRecord.array_index i.2.1 = Some i.1) indices
       ∧ Forall (λ p, JsRecord.array_index p.1 = None) names
       ∧ names = filter (λ p, JsRecord.array_index p.1 = None) members)
  ∧ filter is_close (trace r) = []
  ∧ (∀ name cfg, JsRecord.get members name = Some cfg →
       JsMap.get (servers (final r)) name
       = Some (state_after_connect cfg (connects name)))
  ∧ (∀ name, JsRecord.get members name = None →
       JsMap.get (servers (final r)) name = JsMap.get (servers g) name)
  ∧ listed_names (final r)
    = listed_names g
      ++ filter (λ name, name ∉ listed_names g) (JsRecord.keys members)
  ∧ ∀ e, initialize (LoadRejects e) configPath connects g
         = mkOutcome (Throw e) g
             [ConsoleLog "Initializing MCP Gateway..."; ConfigLoad].
Proof.
  intros members r Hwf.
  destruct (initialize_loaded loaded configPath connects g)
    as (Hc & Hf & Ht).
  fold r members in Hc, Hf, Ht. rewrite Hc, Hf.
  cbn [config configManager servers].
  assert (Hsome : ∀ name, name ∈ JsRecord.keys members →
                          is_Some (JsRecord.get members name)).
  { intros name. apply JsRecord_get_keys. }
  split_and!; try done.
  - rewrite (Ht is_connect_attempt
               (λ name, match JsRecord.get members name with
                        | Some cfg => [Spawn "npx" (command_line cfg);
                                       ClientConnect "npx" (command_line cfg)]
                        | None => []
                        end)); [|done|done|].
    + unfold JsRecord.keys, connect_attempts. rewrite map_map.
      f_equal. apply map_ext_in. intros p Hp%list_elem_of_In.
      by rewrite (JsRecord_get_ordered members p Hwf Hp).
    + intros name g'.
      destruct (JsRecord.get members name) as [cfg|] eqn:Hget.
      * by destruct (initialize_member_trace connects members name cfg g'
                       Hget) as [-> _].
      * unfold initialize_member. by rewrite Hget.
  - apply JsRecord_ordered_perm.
  - exists (JsRecord.ascending (JsRecord.indexed members)),
      (JsRecord.named members).
    split_and!; [done | apply JsRecord_ascending_sorted | | |].
    + rewrite JsRecord_ascending_perm. apply JsRecord_indexed_index.
    + apply JsRecord_named_not_index.
    + apply JsRecord_named_filter.
  - rewrite (Ht is_close (λ _, [])); [|done|done|].
    + generalize (JsRecord.keys members). by induction l.
    + intros name g'.
      destruct (JsRecord.get members name) as [cfg|] eqn:Hget.
      * by destruct (initialize_member_trace connects members name cfg g'
                       Hget) as [_ ->].
      * unfold initialize_member. by rewrite Hget.
  - intros name cfg Hget. apply registered_all_get_in; [done|].
    apply JsRecord_get_keys. by rewrite Hget.
  - intros name Hget. apply registered_all_get_notin.
    intros [? Hin]%JsRecord_get_keys. congruence.
  - rewrite !listed_names_keys. cbn [servers].
    apply registered_all_keys; [by apply JsRecord_keys_NoDup|].
    by apply Forall_forall.
Qed.

Lemma initialize_registers_configuration_witness :
  let loaded :=
    GatewayConfig.mk
      [("fs", ServerConfig.mk "fs" "fs-package" (Some ["/tmp"]));
       ("10", ServerConfig.mk "10" "ten-package" None);
       ("chrome", ServerConfig.mk "chrome" "chrome-devtools-mcp@latest" None);
       ("9", ServerConfig.mk "9" "nine-package" None)]
      (example_settings (Some 30000%Z)) in
  let connects := λ name : string,
    if String.eqb name "chrome"
    then ConnectRejects (Error "MCP error -32000: Connection closed")
    else Connected (ClientObject 2) [navigate_tool] {| toISOString := "t" |} in
  let r := initialize (LoadResolves loaded) "config.yaml" connects
             (chrome_gateway (Some 30000%Z)) in
  JsRecord.wf (GatewayConfig.servers loaded)
  ∧ completion r = Return tt
  ∧ filter is_connect_attempt (trace r)
    = [Spawn "npx" ["nine-package"]; ClientConnect "npx" ["nine-package"];
       Spawn "npx" ["ten-package"]; ClientConnect "npx" ["ten-package"];
       Spawn "npx" ["fs-package"; "/tmp"];
       ClientConnect "npx" ["fs-package"; "/tmp"];
       Spawn "npx" ["chrome-devtools-mcp@latest"];
       ClientConnect "npx" ["chrome-devtools-mcp@latest"]]
  ∧ filter is_close (trace r) = []
  ∧ listed_names (final r) = ["chrome"; "9"; "10"; "fs"]
  ∧ map ServerInfo.status (listServers (final r))
    = [Status.error; Status.connected; Status.connected; Status.connected].
Proof.
  intros loaded connects r.
  assert (Hwf : JsRecord.wf (GatewayConfig.servers loaded)).
  { apply (bool_decide_unpack _). reflexivity. }
  destruct (initialize_registers_configuration (chrome_gateway (Some 30000%Z))
              loaded "config.yaml" connects Hwf)
    as (Hc & _ & _ & Hca & _ & _ & Hcl & _ & _ & Hl & _).
  split_and!; [exact Hwf | exact Hc | exact Hca | exact Hcl | exact Hl
              | reflexivity].
Defined.

(** ** shutdown *)

Lemma shutdown_entry_outcome closes name state g :
  ∃ tr,
    shutdown_entry closes (name, state) g = mkOutcome (Return tt) g tr
    ∧ filter is_close tr = map ClientClose (clients_of [(name, state)])
    ∧ filter is_persist tr = []
    ∧ filter is_connect_attempt tr = [].
Proof.
  unfold shutdown_entry, clients_of. cbn [omap list_omap snd].
  destruct (ServerState.client state) as [c|].
  - run_async. destruct (closes name) as [|e]; eexists;
      (split; [reflexivity|]); done.
  - by exists [].
Qed.

Lemma shutdown_loop_outcome closes entries g :
  ∃ tr,
    for_each entries (shutdown_entry closes) g = mkOutcome (Return tt) g tr
    ∧ filter is_close tr = map ClientClose (clients_of entries)
    ∧ filter is_persist tr = []
    ∧ filter is_connect_attempt tr = [].
Proof.
  induction entries as [|[name state] entries (tr & IH & Hcl & Hp & Hc)].
  - by exists [].
  - destruct (shutdown_entry_outcome closes name state g)
      as (t & Hbody & Hcl' & Hp' & Hc').
    cbn [for_each]. unfold bind. rewrite Hbody, IH. exists (t ++ tr).
    split; [done|]. rewrite !filter_app, Hcl, Hp, Hc, Hcl', Hp', Hc'.
    change ((name, state) :: entries) with ([(name, state)] ++ entries).
    by rewrite clients_of_app, map_app.
Qed.

(** X7.  [shutdown] never fails.  It closes the client of every backend
    that has one, each once and in the order of the registry, going on when
    a close is rejected; then the registry is empty.  It persists nothing
    and attempts no connect: the gateway configuration and the persisted
    configuration are those from before. *)
Theorem shutdown_closes_every_client (g : Gateway)
    (closes : string → CloseOutcome) :
  let r := shutdown closes g in
  completion r = Return tt
  ∧ servers (final r) = JsMap.empty
  ∧ config (final r) = config g
  ∧ configManager (final r) = configManager g
  ∧ filter is_close (trace r) = map ClientClose (clients_of (servers g))
  ∧ filter is_persist (trace r) = []
  ∧ filter is_connect_attempt (trace r) = [].
Proof.
  intros r. subst r. unfold shutdown.
  change (λ '(name, state), _) with (shutdown_entry closes).
  destruct (shutdown_loop_outcome closes (JsMap.entries (servers g)) g)
    as (tr & Hloop & Hcl & Hp & Hc).
  run_async. rewrite Hloop.
  cbn [completion final trace servers config configManager].
  rewrite !filter_app, Hcl, Hp, Hc.
  split_and!; try done. by rewrite app_nil_r.
Qed.

Lemma shutdown_final closes g :
  final (shutdown closes g)
  = mkGateway JsMap.empty (config g) (configManager g).
Proof.
  unfold shutdown.
  change (λ '(name, state), _) with (shutdown_entry closes).
  destruct (shutdown_loop_outcome closes (JsMap.entries (servers g)) g)
    as (tr & Hloop & _).
  run_async. by rewrite Hloop.
Qed.

(** X8.  After [shutdown] the gateway knows no backend: nothing is listed,
    [callTool] for any name fails with SERVER_NOT_FOUND without a send, and
    [addServer] passes for any name, also one that was registered before,
    succeeding when persistence and connect do.  The persisted
    configuration still holds every name it held. *)
Theorem after_shutdown (g : Gateway) (closes : string → CloseOutcome) :
  let g' := final (shutdown closes g) in
  listServers g' = []
  ∧ (∀ serverName toolName args race,
       let r := callTool serverName toolName args race g' in
       fails_with ErrorCode.SERVER_NOT_FOUND (completion r) ∧ trace r = [])
  ∧ (∀ name pkg args c listed now,
       let r := addServer name pkg args PersistResolves
                  (Connected c listed now) g' in
       completion r = Return tt ∧ listed_names (final r) = [name])
  ∧ ConfigManager.persisted (configManager g')
    = ConfigManager.persisted (configManager g).
Proof.
  intros g'. subst g'. rewrite shutdown_final. split_and!; try done.
  intros name pkg args c listed now r.
    destruct (addServer_persisted name pkg args (Connected c listed now)
                (mkGateway JsMap.empty (config g) (configManager g)) eq_refl)
      as [Hf Hc].
    fold r in Hf, Hc. rewrite Hc. split; [done|].
    by rewrite listed_names_keys, Hf.
Qed.

(** * The REST layer *)

Lemma skip_spaces_printable (a : ascii) (rest : string) :
  (33 ≤ nat_of_ascii a ≤ 126)%nat →
  skip_spaces (String a rest) = String a rest.
Proof.
  intros Ha. cbn [skip_spaces].
  assert (H1 : space1 (nat_of_ascii a) = false).
  { unfold space1. apply orb_false_intro.
    - apply andb_false_intro2. apply Nat.leb_gt. lia.
    - apply Nat.eqb_neq. lia. }
  rewrite H1. destruct rest as [|b rest]; [done|].
  assert (H2 : space2 (nat_of_ascii a) (nat_of_ascii b) = false).
  { unfold space2. apply andb_false_intro1. apply Nat.eqb_neq. lia. }
  rewrite H2. destruct rest as [|c rest]; [done|].
  assert (H3 : space3 (nat_of_ascii a) (nat_of_ascii b) (nat_of_ascii c)
               = false).
  { unfold space3.
    assert (Nat.eqb (nat_of_ascii a) 225 = false) as -> by (apply Nat.eqb_neq; lia).
    assert (Nat.eqb (nat_of_ascii a) 226 = false) as -> by (apply Nat.eqb_neq; lia).
    assert (Nat.eqb (nat_of_ascii a) 227 = false) as -> by (apply Nat.eqb_neq; lia).
    assert (Nat.eqb (nat_of_ascii a) 239 = false) as -> by (apply Nat.eqb_neq; lia).
    done. }
  by rewrite H3.
Qed.

(** X9.  The code and the detail the gateway puts into an error message,
    [CODE: detail], are what the REST layer reads back from it: the code is
    recovered for every member of [ErrorCode] and every detail, and the
    message sent to the client is the detail without the white space at its
    head, hence the detail itself when it starts with a printable
    character. *)
Theorem error_code_round_trip (code : ErrorCode.t) (detail : string) :
  let errorMessage := ErrorCode.value code +:+ ": " +:+ detail in
  errorCodeMatch errorMessage = Some (ErrorCode.value code)
  ∧ stripErrorCode errorMessage = skip_spaces detail
  ∧ (∀ a rest, detail = String a rest →
       (33 ≤ nat_of_ascii a ≤ 126)%nat →
       stripErrorCode errorMessage = detail).
Proof.
  intros errorMessage. subst errorMessage.
  assert (H1 : errorCodeMatch (ErrorCode.value code +:+ ": " +:+ detail)
               = Some (ErrorCode.value code)) by (by destruct code).
  assert (H2 : stripErrorCode (ErrorCode.value code +:+ ": " +:+ detail)
               = skip_spaces detail) by (by destruct code).
  split_and!; try done.
  intros a rest -> Ha. rewrite H2. by apply skip_spaces_printable.
Qed.

Lemma error_code_round_trip_witness :
  stripErrorCode "SERVER_NOT_FOUND: Server 'chrome' not found"
  = "Server 'chrome' not found".
Proof.
  apply (proj2 (proj2 (error_code_round_trip ErrorCode.SERVER_NOT_FOUND
                         "Server 'chrome' not found"))
           "S"%char "erver 'chrome' not found" eq_refl).
  cbv. lia.
Defined.

(** ** POST /call *)

Lemma given_Some s : s ≠ "" → given (Some s) = Some s.
Proof.
  intros Hs. unfold given. by destruct (String.eqb_spec s "").
Qed.

(** X10.  [handleCallTool] always answers and never changes the gateway.
    A request without a server or a tool name (missing or empty) is answered
    400 INVALID_ARGUMENTS without calling the gateway.  Otherwise: 404
    SERVER_NOT_FOUND for a name that is not registered; 503
    SERVER_DISCONNECTED for a backend that is not connected or has no
    client; for a ready backend 200 with the result when the send resolves
    first, 504 TOOL_TIMEOUT naming the timeout when the timer fires first,
    and 500 TOOL_EXECUTION_ERROR with the message of the backend (less the
    white space at its head) when the send is rejected with a message that
    does not contain TOOL_TIMEOUT. *)
Theorem handleCallTool_responses (g : Gateway) (server tool : option string)
    (args : JsValue) (race : RaceOutcome) :
  let r := handleCallTool server tool args race g in
  final r = g
  ∧ ∃ response,
      completion r = Return response
      ∧ match given server, given tool with
        | Some s, Some t =>
            match JsMap.get (servers g) s with
            | None =>
                response
                = mkResponse 404
                    (ErrorBody "SERVER_NOT_FOUND"
                       ("Server '" +:+ s +:+ "' not found"))
            | Some st =>
                match Status.eqb (ServerState.status st) Status.connected,
                      ServerState.client st with
                | true, Some _ =>
                    match race with
                    | SendSettlesFirst (SendResolves result) =>
                        response = mkResponse 200 (CallOk result)
                    | SendSettlesFirst (SendRejects _ e) =>
                        includes "TOOL_TIMEOUT" (message e) = false →
                        response
                        = mkResponse 500
                            (ErrorBody "TOOL_EXECUTION_ERROR"
                               (skip_spaces (message e)))
                    | TimerFiresFirst _ =>
                        response
                        = mkResponse 504
                            (ErrorBody "TOOL_TIMEOUT"
                               ("Tool execution exceeded "
                                +:+ Number.toString
                                      (timeout_or_default
                                         (configured_timeout g))
                                +:+ "ms timeout"))
                    end
                | _, _ =>
                    response
                    = mkResponse 503
                        (ErrorBody "SERVER_DISCONNECTED"
                           ("Server '" +:+ s +:+ "' is not connected"))
                end
            end
        | _, _ =>
            response
            = mkResponse 400
                (ErrorBody "INVALID_ARGUMENTS"
                   "Missing required fields: server and tool")
            ∧ trace r = []
        end.
Proof.
  intros r. subst r. unfold handleCallTool.
  destruct (given server) as [s|]; [|split; [done | by eexists]].
  destruct (given tool) as [t|]; [|split; [done | by eexists]].
  set (a := if truthy args then args else JsObject []).
  unfold try_catch, bind.
  destruct (JsMap.get (servers g) s) as [st|] eqn:Hget.
  - destruct (Status.eqb (ServerState.status st) Status.connected) eqn:Hst.
    + destruct (ServerState.client st) as [c|] eqn:Hcl.
      * assert (Hready : ready g s c).
        { exists st. split_and!; try done. by destruct (ServerState.status st). }
        rewrite (callTool_ready g s t a race c Hready). cbv zeta.
        destruct race as [[result | kind e] | later].
        -- split; [done | by eexists].
        -- destruct (includes "TOOL_TIMEOUT" (message e)) eqn:Hinc.
           ++ split; [done|]. eexists. split; [reflexivity | done].
           ++ split; [done|]. eexists. split; [reflexivity|]. by intros _.
        -- split; [done | by eexists].
      * rewrite (callTool_not_ready g s t a race st Hget) by (by right).
        split; [done | by eexists].
    + rewrite (callTool_not_ready g s t a race st Hget).
      * split; [done | by eexists].
      * left. intros Heq. by rewrite Heq in Hst.
  - rewrite (callTool_not_registered g s t a race Hget).
    split; [done | by eexists].
Qed.

(** X11.  The error code and the status [handleCallTool] answers with can be
    chosen by the backend.  For a ready backend and every member of
    [ErrorCode] there is an error the send can be rejected with (the code, a
    colon and TOOL_TIMEOUT) for which the response carries that code and the
    status that goes with it: 404 SERVER_NOT_FOUND for a backend that is
    registered and connected, 504 TOOL_TIMEOUT without the timer having
    fired. *)
Theorem handleCallTool_code_from_backend (g : Gateway)
    (s t : string) (args : JsValue) (c : Client) (kind : FailureKind)
    (code : ErrorCode.t) :
  ready g s c → s ≠ "" → t ≠ "" →
  ∃ e,
    completion (handleCallTool (Some s) (Some t) args
                  (SendSettlesFirst (SendRejects kind e)) g)
    = Return (mkResponse (callTool_status (ErrorCode.value code))
                (ErrorBody (ErrorCode.value code) "TOOL_TIMEOUT")).
Proof.
  intros Hready Hs Ht.
  exists (Error (ErrorCode.value code +:+ ": TOOL_TIMEOUT")).
  unfold handleCallTool. rewrite !given_Some by done.
  unfold try_catch, bind.
  rewrite (callTool_ready g s t _ _ c Hready). cbv zeta.
  by destruct code.
Qed.

Lemma handleCallTool_code_from_backend_witness :
  ∃ e,
    completion (handleCallTool (Some "chrome") (Some "navigate") JsNull
                  (SendSettlesFirst (SendRejects ApplicationFailure e))
                  (chrome_gateway None))
    = Return (mkResponse 404 (ErrorBody "SERVER_NOT_FOUND" "TOOL_TIMEOUT")).
Proof.
  apply (handleCallTool_code_from_backend (chrome_gateway None) "chrome"
           "navigate" JsNull (ClientObject 1) ApplicationFailure
           ErrorCode.SERVER_NOT_FOUND).
  - eexists. split_and!; reflexivity.
  - discriminate.
  - discriminate.
Defined.

Lemma handleCallTool_responses_witness :
  completion (handleCallTool (Some "chrome") (Some "navigate") JsNull
                (SendSettlesFirst
                   (SendRejects ApplicationFailure (Error "no such page")))
                (chrome_gateway None))
  = Return (mkResponse 500 (ErrorBody "TOOL_EXECUTION_ERROR" "no such page")).
Proof.
  destruct (handleCallTool_responses (chrome_gateway None) (Some "chrome")
              (Some "navigate") JsNull
              (SendSettlesFirst
                 (SendRejects ApplicationFailure (Error "no such page"))))
    as (_ & response & Hc & Hr).
  rewrite Hc. f_equal. apply Hr. reflexivity.
Defined.

(** ** POST /servers *)

(** X12.  [handleAddServer] always answers.  A request without a name or a
    package (missing or empty) is answered 400 INVALID_ARGUMENTS and the
    gateway is not called.  A registered name is answered 409
    SERVER_ALREADY_EXISTS with the gateway unchanged.  For a new name the
    answer is 201 when persistence and connect succeed, and 500
    SERVER_ADD_FAILED with the message of the failure (less the white space
    at its head) when either fails. *)
Theorem handleAddServer_responses (g : Gateway) (name pkg : option string)
    (args : option (list string)) (op : PersistOutcome)
    (oc : ConnectOutcome) :
  let r := handleAddServer name pkg args op oc g in
  ∃ response,
    completion r = Return response
    ∧ match given name, given pkg with
      | Some n, Some p =>
          final r = final (addServer n p args op oc g)
          ∧ if JsMap.has (servers g) n then
              response
              = mkResponse 409
                  (ErrorBody "SERVER_ALREADY_EXISTS"
                     ("Server '" +:+ n +:+ "' already exists"))
              ∧ final r = g
            else
              match op, connect_error oc with
              | PersistResolves, None =>
                  response
                  = mkResponse 201
                      (AddOk ("Server '" +:+ n +:+ "' added successfully"))
              | PersistResolves, Some e | PersistRejects e, _ =>
                  response
                  = mkResponse 500
                      (ErrorBody "SERVER_ADD_FAILED"
                         (skip_spaces (message e)))
              end
      | _, _ =>
          response
          = mkResponse 400
              (ErrorBody "INVALID_ARGUMENTS"
                 "Missing required fields: name and package")
          ∧ final r = g ∧ trace r = []
      end.
Proof.
  intros r. subst r. unfold handleAddServer.
  destruct (given name) as [n|]; [|by eexists].
  destruct (given pkg) as [p|]; [|by eexists].
  unfold try_catch, bind.
  destruct (JsMap.has (servers g) n) eqn:Hn.
  - rewrite addServer_present by done. by eexists.
  - destruct op as [|e].
    + destruct (addServer_persisted n p args oc g Hn) as [Hf Hc].
      destruct (addServer n p args PersistResolves oc g) as [cmp fin tr].
      cbn [completion final] in Hf, Hc. subst cmp fin.
      destruct (connect_error oc) as [e|]; by eexists.
    + rewrite addServer_persist_rejects by done. by eexists.
Qed.

Lemma handleAddServer_responses_witness :
  completion (handleAddServer (Some "chrome") (Some "other-package") None
                PersistResolves (ConnectRejects (Error "unused"))
                (chrome_gateway None))
  = Return (mkResponse 409
              (ErrorBody "SERVER_ALREADY_EXISTS"
                 "Server 'chrome' already exists")).
Proof.
  destruct (handleAddServer_responses (chrome_gateway None) (Some "chrome")
              (Some "other-package") None PersistResolves
              (ConnectRejects (Error "unused")))
    as (response & Hc & _ & Hr & _).
  rewrite Hc. f_equal. exact Hr.
Defined.

(** ** GET /servers, GET /servers/:name/tools, GET /health *)

Lemma connected_count_le (infos : list ServerInfo.t) :
  (length (List.filter
             (λ s, Status.eqb (ServerInfo.status s) Status.connected) infos)
   ≤ length infos)%nat.
Proof. apply List.filter_length_le. Qed.

Lemma connected_count_clients (m : JsMap.t ServerState.t) :
  Forall (λ entry, settled entry.2) m →
  length (List.filter
            (λ s, Status.eqb (ServerInfo.status s) Status.connected)
            (map (λ '(name, state), snapshot name state) m))
  = length (clients_of m).
Proof.
  unfold clients_of.
  induction 1 as [|[n st] m Hst Hm IH]; [done|].
  cbn [map List.filter snapshot ServerInfo.status omap list_omap snd].
  cbn in Hst.
  destruct Hst as [_ [(Hs & [c Hc] & _) | (Hs & Hc & _)]];
    rewrite Hs, Hc; cbn; by rewrite IH.
Qed.

(** X13.  The handlers that only read always answer, call nothing outside
    and leave the gateway as it was.  [handleGetServers] answers 200 with
    the listing: [getServerInfo] cannot fail, so its error branch is never
    taken.  [handleGetServerTools] answers 404 SERVER_NOT_FOUND for a name
    that is not registered and 200 with the stored tools otherwise.
    [handleHealthCheck] answers 200 with the number of registered backends
    and the number of those in status 'connected', which is at most the
    former and, in a settled registry, the number of clients held. *)
Theorem read_handlers_responses (g : Gateway) (name : string) :
  handleGetServers g
  = mkOutcome (Return (mkResponse 200 (ServerList (listServers g)))) g []
  ∧ handleGetServerTools name g
    = mkOutcome
        (Return match JsMap.get (servers g) name with
                | Some st => mkResponse 200 (ToolList (ServerState.tools st))
                | None =>
                    mkResponse 404
                      (ErrorBody "SERVER_NOT_FOUND"
                         ("Server '" +:+ name +:+ "' not found"))
                end) g []
  ∧ ∃ connected,
      handleHealthCheck g
      = mkOutcome
          (Return (mkResponse 200
                     (Health (length (JsMap.entries (servers g))) connected)))
          g []
      ∧ (connected ≤ length (JsMap.entries (servers g)))%nat
      ∧ (all_settled g → connected = length (clients_of (servers g))).
Proof.
  split_and!.
  - done.
  - unfold handleGetServerTools, getServerTools. run_async.
    by destruct (JsMap.get (servers g) name).
  - eexists. split; [|split].
    + unfold handleHealthCheck, getServerInfo. run_async.
      rewrite length_map. reflexivity.
    + etrans; [apply connected_count_le|]. by rewrite length_map.
    + intros Hs. by apply connected_count_clients.
Qed.

Lemma read_handlers_responses_witness :
  handleHealthCheck chrome_fs_gateway
  = mkOutcome (Return (mkResponse 200 (Health 2 1))) chrome_fs_gateway [].
Proof.
  destruct (read_handlers_responses chrome_fs_gateway "chrome")
    as (_ & _ & connected & Hh & _ & Hc).
  rewrite Hh. rewrite Hc; [reflexivity|].
  repeat (apply List.Forall_cons || apply List.Forall_nil);
    (split; [reflexivity|]); [left | right]; split_and!;
    try reflexivity; by eexists.
Defined.

(** X14.  For a ready backend [handleCallTool] makes one send, to the client
    of that backend, with the tool name as given and without looking it up
    in the catalog of the backend.  The arguments are passed on as they are
    when they are truthy; when they are missing, [null], [false], [0] or
    the empty string, an empty object is sent in their place. *)
Theorem handleCallTool_sends_arguments (g : Gateway) (s t : string)
    (args : JsValue) (race : RaceOutcome) (c : Client) :
  ready g s c → s ≠ "" → t ≠ "" →
  filter is_send (trace (handleCallTool (Some s) (Some t) args race g))
  = [ClientCallTool c t
       match args with
       | JsUndefined | JsNull | JsBoolean false | JsNumber 0 | JsString "" =>
           JsObject []
       | _ => args
       end].
Proof.
  intros Hready Hs Ht. unfold handleCallTool. rewrite !given_Some by done.
  unfold try_catch, bind.
  rewrite (callTool_ready g s t _ race c Hready). cbv zeta.
  assert (Hargs : (if truthy args then args else JsObject [])
                  = match args with
                    | JsUndefined | JsNull | JsBoolean false
                    | JsNumber 0 | JsString "" => JsObject []
                    | _ => args
                    end).
  { destruct args as [| |[|]|[|?|?]|[|? ?]| |]; done. }
  rewrite Hargs.
  destruct race as [[result | kind e] | later]; [done | | done].
  by destruct (includes "TOOL_TIMEOUT" (message e)).
Qed.

Lemma handleCallTool_sends_arguments_witness :
  filter is_send
    (trace (handleCallTool (Some "chrome") (Some "no_such_tool") JsNull
              (SendSettlesFirst (SendResolves JsNull)) (chrome_gateway None)))
  = [ClientCallTool (ClientObject 1) "no_such_tool" (JsObject [])].
Proof.
  apply (handleCallTool_sends_arguments (chrome_gateway None) "chrome"
           "no_such_tool" JsNull (SendSettlesFirst (SendResolves JsNull))
           (ClientObject 1)).
  - eexists. split_and!; reflexivity.
  - discriminate.
  - discriminate.
Defined.

(** * The event loop *)

Section tame_programs.
Import EventLoop.
#[local] Open Scope prog_scope.

Lemma tame_bind {A B} q1 qr qt o (m : Prog A) (f : A → Prog B) :
  tame q1 qt o m → (∀ a, tame qr qt q1 (f a)) →
  tame qr qt o (bind m f).
Proof.
  intros Hm Hf.
  induction Hm; cbn [bind]; try (by constructor); eauto using @tame.
Qed.

Lemma tame_try_catch {A} qr qt qt' o (m : Prog A) handler :
  tame qr qt' o m → (∀ e, tame qr qt qt' (handler e)) →
  tame qr qt o (try_catch m handler).
Proof.
  intros Hm Hh.
  induction Hm; cbn [try_catch]; try (by constructor); eauto using @tame.
Qed.

Ltac tame_step :=
  lazymatch goal with
  | |- tame _ _ _ (Done _) => apply tame_done
  | |- tame _ _ _ (Raise _) => apply tame_raise
  | |- tame _ _ _ (Step (NewServerState _) _) =>
      apply tame_new; [by repeat split | intros ?]
  | |- tame _ _ _ (Step (Assign _ _) _) =>
      apply tame_assign;
        [intros ? (? & ? & ? & ? & ? & ?); split; [done|];
         cbn; first [left; by split_and! | right; by split_and!] |]
  | |- tame _ _ _ (Step (ServersSet _ _) _) => apply tame_set
  | |- tame _ _ _ (Step _ _) => apply tame_quiet; [exact I | intros ?]
  | |- tame _ _ _ (Await _ _) => apply tame_await; intros ?
  | |- tame _ _ _ ?m =>
      match m with
      | context [match ?x with _ => _ end] => destruct x
      end
  end.

Ltac tame_method :=
  cbv [start callTool getServerInfo getServerTools addServer removeServer
       connectServer configManager_addServer configManager_removeServer
       client_close await_async emit await do ret throw];
  cbn [bind try_catch];
  repeat (tame_step; cbn [bind try_catch]).

Lemma start_tame c : tame None None None (start c).
Proof. destruct c; tame_method. Qed.

End tame_programs.

Section turns.
Import EventLoop.

Lemma run_Step {A X} (op : Op X) (k : X → Prog A) s :
  pause (run (Step op k) s)
  = pause (run (k (perform op s).1.1) (perform op s).1.2)
  ∧ after (run (Step op k) s)
    = after (run (k (perform op s).1.1) (perform op s).1.2).
Proof.
  cbn [run]. destruct (perform op s) as [[x s'] t]. cbn [fst snd].
  by destruct (run (k x) s').
Qed.

Lemma untouched_refl o s : untouched o s s.
Proof. by split. Qed.

Lemma untouched_trans o o1 s s1 s2 :
  untouched o s s1 → handed o o1 s → untouched o1 s1 s2 → untouched o s s2.
Proof.
  intros [Hl1 Hu1] Hh [Hl2 Hu2]. split; [lia|].
  intros r Hr Ho. rewrite Hu2, Hu1; [done..|lia|].
  destruct Hh as [-> | [-> | (r' & -> & Hr')]]; [done..|].
  intros [= ->]. lia.
Qed.

Lemma handed_trans o o1 o2 s s1 :
  (length (objects s) ≤ length (objects s1))%nat →
  handed o o1 s → handed o1 o2 s1 → handed o o2 s.
Proof.
  intros Hl Hh1 [-> | [-> | (r & -> & Hr)]]; [by left | done |].
  right; right. exists r. split; [done|lia].
Qed.

Lemma owns_valid r s : owns (Some r) s → r < length (objects s).
Proof. intros (st & Hst & _). by apply lookup_lt_Some in Hst. Qed.

(** A turn of a tame program keeps the store good, leaves the objects of
    the other calls alone, and leaves a tame program behind. *)
Lemma run_tame {A} qr qt o (m : Prog A) :
  tame qr qt o m → ∀ s, good s → owns o s →
  ∃ o',
    good (after (run m s))
    ∧ owns o' (after (run m s))
    ∧ untouched o s (after (run m s))
    ∧ handed o o' s
    ∧ match pause (run m s) with
      | Finished (Return _) => o' = qr
      | Finished (Throw _) => o' = qt
      | Suspended p k => ∀ x, tame qr qt o' (k x)
      end.
Proof.
  induction 1 as [a | e | st k Hst Hk IH | r f k Hf Hk IH | r name k Hk IH
                 | X o op k Hq Hk IH | o p k Hk IH];
    intros s [Hshaped Hwf] Hown.
  - exists qr. cbn [run after pause].
    split_and!; [done | done | apply untouched_refl | by right; left | done].
  - exists qt. cbn [run after pause].
    split_and!; [done | done | apply untouched_refl | by right; left | done].
  - destruct (run_Step (NewServerState st) k s) as [-> ->].
    cbn [perform fst snd].
    set (s1 := mkStore (objects s ++ [st]) _ _ _).
    destruct (IH (length (objects s)) s1) as (o' & Hg & Ho & Hu & Hh & Hp).
    + split.
      * unfold s1. cbn [objects]. apply Forall_app. split; [done|].
        constructor; [by left | constructor].
      * unfold well_formed in *. cbn. rewrite length_app. cbn.
        eapply Forall_impl; [done|]. cbn. intros; lia.
    + exists st. split; [|done]. cbn.
      by rewrite lookup_app_r, Nat.sub_diag.
    + assert (Hu1 : untouched None s s1).
      { split; cbn; [rewrite length_app; lia|].
        intros r Hr _. by rewrite lookup_app_l. }
      assert (Hh1 : handed None (Some (length (objects s))) s).
      { right; right. by eexists. }
      exists o'. split_and!; try done.
      * by apply (untouched_trans _ _ _ _ _ Hu1 Hh1).
      * apply (handed_trans _ _ _ _ s1 (proj1 Hu1) Hh1 Hh).
  - destruct (run_Step (Assign r f) k s) as [-> ->].
    cbn [perform fst snd].
    set (s1 := mkStore (alter f r (objects s)) _ _ _).
    destruct Hown as (st & Hst & Hpend).
    destruct (IH s1) as (o' & Hg & Ho & Hu & Hh & Hp); [|done|].
    + split.
      * cbn. apply Forall_alter; [done|].
        intros st' Hst' _. assert (st' = st) as -> by congruence.
        right. by apply Hf.
      * unfold well_formed in *. cbn. by rewrite length_alter.
    + assert (Hu1 : untouched (Some r) s s1).
      { split; cbn; [by rewrite length_alter|].
        intros r' _ Hne. apply list_lookup_alter_ne. congruence. }
      assert (Hh1 : handed (Some r) None s) by by left.
      exists o'. split_and!; try done.
      * by apply (untouched_trans _ _ _ _ _ Hu1 Hh1).
      * apply (handed_trans _ _ _ _ s1 (proj1 Hu1) Hh1 Hh).
  - destruct (run_Step (ServersSet name r) k s) as [-> ->].
    cbn [perform fst snd].
    set (s1 := mkStore _ (JsMap.set (this_servers s) name r) _ _).
    destruct (IH s1) as (o' & Hg & Ho & Hu & Hh & Hp); [|done|].
    + split; [done|]. unfold well_formed in *. cbn.
      apply JsMap_Forall_set; [|done]. intros k'. cbn [snd].
      by apply owns_valid.
    + exists o'. split_and!; try done.
  - destruct (run_Step op k s) as [-> ->].
    assert (Hsame : objects (perform op s).1.2 = objects s
                    ∧ well_formed (perform op s).1.2).
    { destruct op; try done. split; [done|].
      unfold well_formed in *. cbn. by apply JsMap_Forall_delete. }
    destruct Hsame as [Hobj Hwf1].
    destruct (IH (perform op s).1.1 (perform op s).1.2)
      as (o' & Hg & Ho & Hu & Hh & Hp).
    + split; [by rewrite Hobj | done].
    + destruct o as [r|]; [|done]. cbn in *. by rewrite Hobj.
    + exists o'. split_and!; try done.
      * destruct Hu as [Hl Hu]. rewrite Hobj in Hl, Hu. by split.
      * destruct Hh as [?|[?|(r & ? & Hr)]]; [by left | by right; left|].
        right; right. exists r. by rewrite Hobj in Hr.
  - exists o. cbn [run after pause].
    split_and!; [done | done | apply untouched_refl | by right; left | done].
Qed.

Lemma owns_untouched o o' s s' :
  untouched o s s' → owns o' s → o' = None ∨ o' ≠ o → owns o' s'.
Proof.
  intros [Hl Hu] Hown Hne. destruct o' as [r|]; [|done].
  destruct Hown as (st & Hst & Hpend). exists st. split; [|done].
  rewrite Hu; [done| by apply lookup_lt_Some in Hst|].
  destruct Hne as [?|?]; congruence.
Qed.

Lemma task_ok_untouched o o' s s' t :
  untouched o s s' → task_ok s t o' → o' = None ∨ o' ≠ o → task_ok s' t o'.
Proof.
  intros Hu [Hown Ht] Hne. split; [|done]. by apply (owns_untouched o o' s).
Qed.

Lemma task_of_ok s (p : Pause Reply) o :
  owns o s →
  match p with
  | Finished (Return _) => o = None
  | Finished (Throw _) => o = None
  | Suspended p k => ∀ x, tame None None o (k x)
  end →
  task_ok s (task_of p) o.
Proof. intros Hown Hp. split; [done|]. by destruct p as [[]|]. Qed.

(** Whatever the event loop does next, the world stays in order. *)
Lemma step_ok a w : world_ok w → world_ok (step a w).
Proof.
  intros (Hgood & owners & Htasks & Hdistinct).
  destruct a as [c | i a]; cbn [step].
  - destruct (run_tame None None None (start c) (start_tame c) (store w)
                Hgood I) as (o' & Hg & Ho & Hu & Hh & Hp).
    destruct (run (start c) (store w)) as [p s t]. cbn [after pause] in *.
    split; [done|]. exists (owners ++ [o']). cbn [store tasks]. split.
    + apply Forall2_app.
      * eapply Forall2_impl; [done|]. intros t' o Hok.
        apply (task_ok_untouched None o (store w)); [done..|].
        destruct o; [by right | by left].
      * constructor; [|constructor]. by apply task_of_ok.
    + assert (Hfresh : ∀ i r, owners !! i = Some (Some r) →
                              o' ≠ Some r).
      { intros i r Hi ->.
        destruct (Forall2_lookup_r _ _ _ _ _ Htasks Hi) as (t' & _ & Hok).
        destruct Hok as [Hown _]. apply owns_valid in Hown.
        destruct Hh as [?|[?|(r' & [= <-] & Hr')]]; try done. lia. }
      assert (Hlast : ∀ i r, (owners ++ [o']) !! i = Some (Some r) →
                (i < length owners ∧ owners !! i = Some (Some r))
                ∨ (i = length owners ∧ o' = Some r)).
      { intros i r Hi. apply lookup_app_Some in Hi as [Hi | [Hlen Hi]].
        - left. split; [by apply lookup_lt_Some in Hi | done].
        - right. apply list_lookup_singleton_Some in Hi as [Hi ->].
          split; [lia | done]. }
      intros i j r Hi Hj.
      apply Hlast in Hi as [[Hil Hi] | [-> Hi]];
        apply Hlast in Hj as [[Hjl Hj] | [-> Hj]]; try done.
      * by apply (Hdistinct i j r).
      * by destruct (Hfresh i r Hi).
      * by destruct (Hfresh j r Hj).
  - destruct (tasks w !! i) as [[p k | c]|] eqn:Hi; [|by split; eauto..].
    destruct (accept p a) as [x|]; [|by split; eauto].
    destruct (Forall2_lookup_l _ _ _ _ _ Htasks Hi) as (o & Ho & Hown & Hk).
    destruct (run_tame None None o (k x) (Hk x) (store w) Hgood Hown)
      as (o' & Hg & Ho' & Hu & Hh & Hp).
    destruct (run (k x) (store w)) as [p' s t]. cbn [after pause] in *.
    split; [done|]. exists (<[i := o']> owners). cbn [store tasks].
    assert (Hother : ∀ j r, j ≠ i → owners !! j = Some (Some r) →
                            o ≠ Some r ∧ o' ≠ Some r).
    { intros j r Hne Hj.
      assert (Hor : o ≠ Some r).
      { intros ->. apply Hne. by apply (Hdistinct j i r). }
      split; [done|]. intros ->.
      destruct (Forall2_lookup_r _ _ _ _ _ Htasks Hj) as (t' & _ & Hok).
      destruct Hok as [Hown' _]. apply owns_valid in Hown'.
      destruct Hh as [?|[?|(r' & [= <-] & Hr')]]; try done. lia. }
    split.
    + apply Forall2_same_length_lookup. split.
      { rewrite !length_insert. by apply Forall2_length in Htasks. }
      intros j t' oj Ht' Hoj.
      destruct (decide (j = i)) as [->|Hne].
      * apply list_lookup_insert_Some in Ht' as [(_ & <- & _) | [? _]];
          [|done].
        apply list_lookup_insert_Some in Hoj as [(_ & <- & _) | [? _]];
          [|done].
        by apply task_of_ok.
      * rewrite list_lookup_insert_ne in Ht' by done.
        rewrite list_lookup_insert_ne in Hoj by done.
        apply (task_ok_untouched o oj (store w)); [done | |].
        -- by apply (Forall2_lookup_lr _ _ _ j _ _ Htasks).
        -- destruct oj as [r|]; [|by left]. right.
           destruct (Hother j r Hne Hoj) as [Hor _]. congruence.
    + intros j1 j2 r Hj1 Hj2.
      destruct (decide (j1 = i)) as [->|Hne1];
        destruct (decide (j2 = i)) as [->|Hne2]; [done| | |].
      * apply list_lookup_insert_Some in Hj1 as [(_ & -> & _) | [? _]];
          [|done].
        rewrite list_lookup_insert_ne in Hj2 by done.
        by destruct (Hother j2 r Hne2 Hj2) as [_ []].
      * apply list_lookup_insert_Some in Hj2 as [(_ & -> & _) | [? _]];
          [|done].
        rewrite list_lookup_insert_ne in Hj1 by done.
        by destruct (Hother j1 r Hne1 Hj1) as [_ []].
      * rewrite list_lookup_insert_ne in Hj1 by done.
        rewrite list_lookup_insert_ne in Hj2 by done.
        by apply (Hdistinct j1 j2 r).
Qed.

Lemma exec_ok schedule w : world_ok w → world_ok (exec schedule w).
Proof.
  revert w. induction schedule as [|a l IH]; intros w Hw; [done|].
  cbn [exec foldl]. apply IH. by apply step_ok.
Qed.

End turns.

Section stores.
Import EventLoop.

Lemma EventLoop_entries_objects s name st :
  (name, st) ∈ entries s → st ∈ objects s.
Proof.
  unfold entries. intros ([n r] & Hin & Hst)%list_elem_of_omap.
  cbn [fst snd] in Hst.
  destruct (objects s !! r) as [st'|] eqn:Hr; [|done].
  injection Hst as _ <-. by apply list_elem_of_lookup_2 in Hr.
Qed.

Lemma listing_snapshots w :
  listing w = map (λ entry, snapshot entry.1 entry.2) (entries (store w)).
Proof.
  unfold listing. cbn. apply map_ext. by intros [name st].
Qed.

(** What an object that is pending or settled looks like in the listing. *)
Lemma shaped_listing w i :
  Forall shaped (objects (store w)) → i ∈ listing w →
  (ServerInfo.status i = Status.disconnected
   ∧ ServerInfo.toolCount i = 0
   ∧ ServerInfo.error i = None
   ∧ ServerInfo.lastConnected i = None)
  ∨ (ServerInfo.status i = Status.connected
     ∧ ServerInfo.error i = None
     ∧ is_Some (ServerInfo.lastConnected i))
  ∨ (ServerInfo.status i = Status.error
     ∧ is_Some (ServerInfo.error i)
     ∧ ServerInfo.toolCount i = 0
     ∧ ServerInfo.lastConnected i = None).
Proof.
  intros Hshaped. rewrite listing_snapshots.
  intros ([name st] & -> & Hin)%list_elem_of_fmap.
  apply EventLoop_entries_objects in Hin.
  rewrite Forall_forall in Hshaped. specialize (Hshaped st Hin).
  unfold snapshot. cbn.
  destruct Hshaped as [(Hs & _ & Ht & _ & He & Hd)
                      | [_ [(Hs & _ & [d Hd] & He) | (Hs & _ & Ht & He & Hd)]]].
  - left. rewrite Ht, Hd. by split_and!.
  - right; left. rewrite Hd. by split_and!.
  - right; right. rewrite Ht, Hd. by split_and!.
Qed.

Lemma boot_well_formed g : well_formed (store (boot g)).
Proof.
  unfold well_formed, boot. cbn.
  apply Forall_forall. intros [name r] Hin.
  apply list_elem_of_lookup in Hin as [i Hi].
  apply list_lookup_imap_Some in Hi as (entry & Hentry & [= _ ->]).
  cbn. rewrite length_map. by apply lookup_lt_Some in Hentry.
Qed.

Lemma boot_ok g : all_settled g → world_ok (boot g).
Proof.
  intros Hg. split.
  - split; [|apply boot_well_formed].
    unfold boot. cbn. apply Forall_fmap.
    eapply Forall_impl; [exact Hg|]. intros entry Hentry. by right.
  - exists []. split; [constructor|]. intros i j r Hi. done.
Qed.

(** The entries of a store to which an object has been added. *)
Lemma EventLoop_entries_app objs st registry c cm :
  Forall (λ entry : string * nat, entry.2 < length objs) registry →
  entries (mkStore (objs ++ [st]) registry c cm)
  = entries (mkStore objs registry c cm).
Proof.
  unfold entries. cbn [objects this_servers].
  induction 1 as [|[n r] l Hr Hl IH]; [done|].
  cbn [omap list_omap fst snd] in *.
  rewrite lookup_app_l by done. by rewrite IH.
Qed.

(** Registering a new object under [name]. *)
Lemma EventLoop_entries_set objs st registry name c cm c' cm' :
  Forall (λ entry : string * nat, entry.2 < length objs) registry →
  entries (mkStore (objs ++ [st]) (JsMap.set registry name (length objs))
             c cm)
  = JsMap.set (entries (mkStore objs registry c' cm')) name st.
Proof.
  unfold entries. cbn [objects this_servers].
  induction 1 as [|[n r] l Hr Hl IH].
  - cbn. by rewrite lookup_app_r, Nat.sub_diag.
  - cbn [snd] in Hr.
    destruct (lookup_lt_is_Some_2 objs r Hr) as [x Hx].
    cbn [JsMap.set]. destruct (String.eqb n name) eqn:E.
    + cbn [omap list_omap fst snd].
      rewrite lookup_app_r, Nat.sub_diag, Hx by done. cbn.
      rewrite E. f_equal.
      apply (EventLoop_entries_app objs st l c cm Hl).
    + cbn [omap list_omap fst snd] in *.
      rewrite lookup_app_l, Hx by done. cbn. rewrite E. by rewrite IH.
Qed.

Lemma EventLoop_entries_delete objs registry name c cm c' cm' :
  Forall (λ entry : string * nat, entry.2 < length objs) registry →
  entries (mkStore objs (JsMap.delete registry name) c cm)
  = JsMap.delete (entries (mkStore objs registry c' cm')) name.
Proof.
  unfold entries. cbn [objects this_servers].
  induction 1 as [|[n r] l Hr Hl IH]; [done|].
  cbn [snd] in Hr.
  destruct (lookup_lt_is_Some_2 objs r Hr) as [x Hx].
  cbn [JsMap.delete omap list_omap fst snd]. rewrite Hx. cbn.
  destruct (String.eqb n name); [done|].
  cbn [omap list_omap fst snd]. rewrite Hx. cbn. by rewrite IH.
Qed.

(** Looking a name up in the store and in the gateway it stands for. *)
Lemma EventLoop_entries_get s name :
  well_formed s →
  JsMap.get (entries s) name
  = match JsMap.get (this_servers s) name with
    | Some r => objects s !! r
    | None => None
    end.
Proof.
  unfold well_formed, entries.
  induction 1 as [|[n r] l Hr Hl IH]; [done|].
  cbn [snd] in Hr.
  destruct (lookup_lt_is_Some_2 (objects s) r Hr) as [x Hx].
  cbn [JsMap.get omap list_omap fst snd]. rewrite Hx. cbn.
  by destruct (String.eqb n name).
Qed.

Lemma EventLoop_entries_has s name :
  well_formed s →
  JsMap.has (entries s) name = JsMap.has (this_servers s) name.
Proof.
  intros Hwf. unfold JsMap.has. rewrite EventLoop_entries_get by done.
  destruct (JsMap.get (this_servers s) name) as [r|] eqn:Hget; [|done].
  assert (Hr : r < length (objects s)).
  { unfold well_formed in Hwf. clear -Hwf Hget.
    induction Hwf as [|[n r'] l Hr Hl IH]; [done|].
    cbn [JsMap.get] in Hget. destruct (String.eqb n name); [|by apply IH].
    by injection Hget as <-. }
  by destruct (lookup_lt_is_Some_2 (objects s) r Hr) as [x ->].
Qed.

Lemma EventLoop_entries_boot g : entries (store (boot g)) = servers g.
Proof.
  unfold entries, boot. cbn [store objects this_servers].
  generalize (servers g). intros m.
  assert (H : ∀ (pre : list (string * ServerState.t)),
             omap (λ entry : string * nat,
                     (entry.1,.) <$> (map snd (pre ++ m)) !! entry.2)
                  (imap (λ i entry, (entry.1, length pre + i)) m)
             = m).
  { induction m as [|[n st] m IH]; intros pre; [done|].
    cbn [imap omap list_omap fst snd].
    rewrite Nat.add_0_r, (map_app snd), lookup_app_r, length_map, Nat.sub_diag
      by (rewrite length_map; lia).
    cbn. f_equal.
    specialize (IH (pre ++ [(n, st)])).
    rewrite <- app_assoc in IH. cbn [app] in IH.
    etrans; [|exact IH].
    rewrite (map_app snd). cbn [map snd]. f_equal.
    apply imap_ext. intros i [n' st'] _. cbn. f_equal.
    rewrite length_app. cbn. lia. }
  apply (H []).
Qed.

Lemma view_boot g : view (store (boot g)) = g.
Proof. unfold view. rewrite EventLoop_entries_boot. by destruct g. Qed.

End stores.

Section observing.
Import EventLoop.

(** An [addServer] for a new name, as far as the [await] of the connect:
    the object of the backend is registered, and pending. *)
Lemma addServer_awaits_connect w name pkg args :
  well_formed (store w) →
  JsMap.has (this_servers (store w)) name = false →
  let w' := exec [Invoke (AddServer name pkg args);
                  Settle (length (tasks w)) (PersistAnswer PersistResolves)]
              w in
  (∃ k, tasks w' !! length (tasks w) = Some (Awaiting ConnectPromise k))
  ∧ listing w'
    = listing w ++ [ServerInfo.mk name pkg Status.disconnected 0 None None].
Proof.
  intros Hwf Hhas w'. subst w'.
  cbn [exec foldl].
  eassert (Hw1 : step (Invoke (AddServer name pkg args)) w
                 = mkWorld (store w)
                     (tasks w ++ [Awaiting ConfigAddServerPromise _]) _).
  { cbn [step].
    cbv [start addServer connectServer configManager_addServer await_async
         emit await do ret throw].
    cbn [bind try_catch run perform]. rewrite Hhas.
    cbn [bind try_catch run perform task_of]. reflexivity. }
  rewrite Hw1. cbn [step tasks store events].
  rewrite lookup_app_r, Nat.sub_diag by done.
  cbn [lookup list_lookup accept].
  cbn [bind try_catch run perform app task_of tasks store events].
  split.
  - eexists. rewrite list_lookup_insert_eq; [done|].
    rewrite length_app. cbn. lia.
  - rewrite !listing_snapshots. cbn [store].
    destruct (store w) as [objs registry c cm] eqn:Hs.
    cbn [objects this_servers this_config this_configManager] in *.
    rewrite (EventLoop_entries_set objs _ registry name c _ c cm Hwf).
    rewrite JsMap_set_new.
    + by rewrite map_app.
    + apply JsMap_has_false.
      by rewrite (EventLoop_entries_has (mkStore objs registry c cm)).
Qed.

End observing.

(** X5.  While requests are served as they come in, a call running only
    as far as its next [await] and the others running in between, every
    backend is at every moment listed in one of three shapes: status
    'disconnected', with no tools, no error and no time of connect, while
    the connect of the [addServer] that registered it is awaited;
    connected, with the time of the connect and no error; or failed, in
    status 'error' with the message of the failure, no tools and no time of
    connect.  So no backend is ever listed as 'reconnecting'.  The first
    shape does show: when a name that is not registered is added, the
    backend is listed as 'disconnected' from the moment the configuration
    is written until the connect settles.  This holds from any gateway
    whose backends are connected or failed, as [connectServer] leaves
    them, for every order in which [callTool], [getServerInfo],
    [getServerTools], [addServer] and [removeServer] are called and the
    promises they await settle. *)
Theorem backends_at_every_instant (g : Gateway)
    (schedule : list EventLoop.Action) :
  all_settled g →
  let w := EventLoop.exec schedule (EventLoop.boot g) in
  (∀ i, i ∈ EventLoop.listing w →
     (ServerInfo.status i = Status.disconnected
      ∧ ServerInfo.toolCount i = 0
      ∧ ServerInfo.error i = None
      ∧ ServerInfo.lastConnected i = None)
     ∨ (ServerInfo.status i = Status.connected
        ∧ ServerInfo.error i = None
        ∧ is_Some (ServerInfo.lastConnected i))
     ∨ (ServerInfo.status i = Status.error
        ∧ is_Some (ServerInfo.error i)
        ∧ ServerInfo.toolCount i = 0
        ∧ ServerInfo.lastConnected i = None))
  ∧ Forall EventLoop.shaped (EventLoop.objects (EventLoop.store w))
  ∧ ∀ name pkg args,
      JsMap.has (EventLoop.this_servers (EventLoop.store w)) name = false →
      let w' :=
        EventLoop.exec
          [EventLoop.Invoke (EventLoop.AddServer name pkg args);
           EventLoop.Settle (length (EventLoop.tasks w))
             (EventLoop.PersistAnswer PersistResolves)] w in
      (∃ k, EventLoop.tasks w' !! length (EventLoop.tasks w)
            = Some (EventLoop.Awaiting EventLoop.ConnectPromise k))
      ∧ EventLoop.listing w'
        = EventLoop.listing w
          ++ [ServerInfo.mk name pkg Status.disconnected 0 None None].
Proof.
  intros Hg w.
  destruct (exec_ok schedule (EventLoop.boot g) (boot_ok g Hg))
    as [[Hshaped Hwf] _].
  fold w in Hshaped, Hwf. split_and!.
  - intros i. by apply shaped_listing.
  - done.
  - intros name pkg args Hhas. by apply addServer_awaits_connect.
Qed.

Lemma backends_at_every_instant_witness :
  let w :=
    EventLoop.exec
      [EventLoop.Invoke (EventLoop.AddServer "fs" "fs-package" None);
       EventLoop.Settle 0 (EventLoop.PersistAnswer PersistResolves);
       EventLoop.Invoke (EventLoop.RemoveServer "chrome");
       EventLoop.Invoke (EventLoop.AddServer "db" "db-package" None);
       EventLoop.Settle 0
         (EventLoop.ConnectAnswer
            (Throw (Error "MCP error -32000: Connection closed")))]
      (EventLoop.boot (chrome_gateway (Some 30000%Z))) in
  all_settled (chrome_gateway (Some 30000%Z))
  ∧ map ServerInfo.status (EventLoop.listing w)
    = [Status.connected; Status.error]
  ∧ map ServerInfo.status
      (EventLoop.listing
         (EventLoop.exec
            [EventLoop.Invoke (EventLoop.AddServer "x" "x-package" None);
             EventLoop.Settle 3 (EventLoop.PersistAnswer PersistResolves)]
            w))
    = [Status.connected; Status.error; Status.disconnected].
Proof.
  intros w.
  assert (Hg : all_settled (chrome_gateway (Some 30000%Z))).
  { unfold all_settled, JsMap.entries. cbn.
    constructor; [|constructor]. split; [done|]. left. by split_and!. }
  destruct (backends_at_every_instant (chrome_gateway (Some 30000%Z))
              [EventLoop.Invoke (EventLoop.AddServer "fs" "fs-package" None);
               EventLoop.Settle 0 (EventLoop.PersistAnswer PersistResolves);
               EventLoop.Invoke (EventLoop.RemoveServer "chrome");
               EventLoop.Invoke (EventLoop.AddServer "db" "db-package" None);
               EventLoop.Settle 0
                 (EventLoop.ConnectAnswer
                    (Throw (Error "MCP error -32000: Connection closed")))]
              Hg) as (_ & _ & Hadd).
  destruct (Hadd "x" "x-package" None eq_refl) as [_ Hl].
  split_and!; [exact Hg | reflexivity |].
  fold w in Hl. cbn [length] in Hl.
  change (length (EventLoop.tasks w)) with 3 in Hl.
  rewrite Hl. reflexivity.
Defined.

(** ** A method run on its own *)

Lemma alter_last {A} (f : A → A) (l : list A) x :
  alter f (length l) (l ++ [x]) = l ++ [f x].
Proof.
  replace (length l) with (length l + 0) by lia. by rewrite alter_app_r.
Qed.

Lemma alone_well_formed {A} env qr qt o (m : EventLoop.Prog A) :
  EventLoop.tame qr qt o m → ∀ s,
  EventLoop.well_formed s →
  match o with
  | Some r => r < length (EventLoop.objects s)
  | None => True
  end →
  EventLoop.well_formed (EventLoop.alone env m s).1.2.
Proof.
  induction 1 as [a | e | st k Hst Hk IH | r f k Hf Hk IH | r name k Hk IH
                 | X o op k Hq Hk IH | o p k Hk IH];
    intros s Hwf Ho; cbn [EventLoop.alone].
  - done.
  - done.
  - cbn [EventLoop.perform].
    set (s1 := EventLoop.mkStore (EventLoop.objects s ++ [st]) _ _ _).
    specialize (IH (length (EventLoop.objects s)) s1).
    destruct (EventLoop.alone env (k (length (EventLoop.objects s))) s1)
      as [[c s2] t].
    apply IH.
    + unfold EventLoop.well_formed, s1 in *. cbn. rewrite length_app. cbn.
      eapply Forall_impl; [done|]. cbn. intros; lia.
    + unfold s1. cbn. rewrite length_app. cbn. lia.
  - cbn [EventLoop.perform].
    set (s1 := EventLoop.mkStore (alter f r (EventLoop.objects s)) _ _ _).
    specialize (IH s1).
    destruct (EventLoop.alone env (k ()) s1) as [[c s2] t].
    apply IH; [|done].
    unfold EventLoop.well_formed, s1 in *. cbn. by rewrite length_alter.
  - cbn [EventLoop.perform].
    set (s1 := EventLoop.mkStore _
                 (JsMap.set (EventLoop.this_servers s) name r) _ _).
    specialize (IH s1).
    destruct (EventLoop.alone env (k ()) s1) as [[c s2] t].
    apply IH; [|done].
    unfold EventLoop.well_formed, s1 in *. cbn.
    apply JsMap_Forall_set; [|done]. by intros k'.
  - assert (Hsame : EventLoop.objects (EventLoop.perform op s).1.2
                    = EventLoop.objects s
                    ∧ EventLoop.well_formed (EventLoop.perform op s).1.2).
    { destruct op; try done. split; [done|].
      unfold EventLoop.well_formed in *. cbn. by apply JsMap_Forall_delete. }
    destruct Hsame as [Hobj Hwf1].
    specialize (IH (EventLoop.perform op s).1.1 (EventLoop.perform op s).1.2).
    destruct (EventLoop.perform op s) as [[x s1] t1]. cbn [fst snd] in *.
    destruct (EventLoop.alone env (k x) s1) as [[c s2] t].
    apply IH; [done|]. by rewrite Hobj.
  - by apply IH.
Qed.

Ltac alone_method :=
  cbv [EventLoop.callTool EventLoop.getServerInfo EventLoop.getServerTools
       EventLoop.addServer EventLoop.removeServer EventLoop.connectServer
       EventLoop.configManager_addServer EventLoop.configManager_removeServer
       EventLoop.client_close EventLoop.await_async EventLoop.emit
       EventLoop.await EventLoop.do EventLoop.ret EventLoop.throw];
  cbn [EventLoop.bind EventLoop.try_catch EventLoop.alone EventLoop.perform
       EventLoop.settle EventLoop.outcome EventLoop.objects
       EventLoop.this_servers EventLoop.this_config
       EventLoop.this_configManager EventLoop.persist_add EventLoop.connect
       EventLoop.race EventLoop.close EventLoop.persist_remove app].

Lemma callTool_alone env s serverName toolName args :
  EventLoop.well_formed s →
  EventLoop.outcome
    (EventLoop.alone env (EventLoop.callTool serverName toolName args) s)
  = callTool serverName toolName args (EventLoop.race env) (EventLoop.view s).
Proof.
  intros Hwf. destruct env as [op oc rc ocl opr].
  unfold callTool. run_async.
  cbn [EventLoop.view servers config]. rewrite EventLoop_entries_get by done.
  alone_method.
  destruct (JsMap.get (EventLoop.this_servers s) serverName) as [r|]; [|done].
  destruct (EventLoop.objects s !! r) as [st|]; [|done].
  cbn [fmap option_fmap option_map].
  destruct (Status.eqb (ServerState.status st) Status.connected); [|done].
  destruct (ServerState.client st) as [c|]; [|done].
  alone_method.
  destruct rc as [[result | kind e] | later]; alone_method;
    try done; by destruct (includes _ _).
Qed.

Lemma getServerInfo_alone env s :
  EventLoop.outcome (EventLoop.alone env EventLoop.getServerInfo s)
  = getServerInfo (EventLoop.view s).
Proof. done. Qed.

Lemma getServerTools_alone env s serverName :
  EventLoop.well_formed s →
  EventLoop.outcome
    (EventLoop.alone env (EventLoop.getServerTools serverName) s)
  = getServerTools serverName (EventLoop.view s).
Proof.
  intros Hwf. unfold getServerTools. run_async.
  cbn [EventLoop.view servers config]. rewrite EventLoop_entries_get by done.
  alone_method.
  destruct (JsMap.get (EventLoop.this_servers s) serverName) as [r|]; [|done].
  by destruct (EventLoop.objects s !! r) as [st|].
Qed.

Lemma removeServer_alone env s name :
  EventLoop.well_formed s →
  EventLoop.outcome (EventLoop.alone env (EventLoop.removeServer name) s)
  = removeServer name (EventLoop.close env) (EventLoop.persist_remove env)
      (EventLoop.view s).
Proof.
  intros Hwf. destruct env as [op oc rc ocl opr].
  unfold removeServer. run_async.
  cbn [EventLoop.view servers config]. rewrite EventLoop_entries_get by done.
  alone_method.
  destruct (JsMap.get (EventLoop.this_servers s) name) as [r|]; [|done].
  destruct (EventLoop.objects s !! r) as [st|]; [|done].
  cbn [fmap option_fmap option_map].
  destruct s as [objs registry cfg cm].
  cbn [EventLoop.objects EventLoop.this_servers EventLoop.this_config
       EventLoop.this_configManager] in *.
  destruct (ServerState.client st) as [c|]; alone_method;
    destruct ocl as [|e]; alone_method; try done;
    destruct opr as [|e']; alone_method;
    unfold EventLoop.view; cbn [EventLoop.this_config
                                EventLoop.this_configManager];
    by rewrite (EventLoop_entries_delete objs registry name _ _ cfg cm).
Qed.

Lemma addServer_alone env s name pkg args :
  EventLoop.well_formed s →
  EventLoop.outcome (EventLoop.alone env (EventLoop.addServer name pkg args) s)
  = addServer name pkg args (EventLoop.persist_add env) (EventLoop.connect env)
      (EventLoop.view s).
Proof.
  intros Hwf. destruct env as [op oc rc ocl opr].
  unfold addServer, connectServer. run_async.
  cbn [EventLoop.view servers config].
  rewrite EventLoop_entries_has by done.
  alone_method.
  destruct (JsMap.has (EventLoop.this_servers s) name); [done|].
  destruct s as [objs registry c cm].
  cbn [EventLoop.objects EventLoop.this_servers EventLoop.this_config
       EventLoop.this_configManager] in *.
  destruct op as [|e]; alone_method; [|done].
  destruct oc as [e | cl e | cl listed now];
    alone_method; run_async;
    unfold EventLoop.view; cbn [EventLoop.this_config
                                EventLoop.this_configManager];
    rewrite ?alter_last, (EventLoop_entries_set objs _ registry name _ _ c cm)
      by done;
    by rewrite JsMap_mutate_set.
Qed.

(** Such a run is a run of the event loop: the call is made, and each
    promise it awaits settles before anything else happens. *)
Lemma accept_answer_of p x :
  EventLoop.accept p (EventLoop.answer_of p x) = Some x.
Proof. destruct p; try done. by destruct x. Qed.

Lemma exec_resume env (m : EventLoop.Prog EventLoop.Reply) :
  ∀ s tasks i evs,
    i < length tasks →
    EventLoop.exec (map (EventLoop.Settle i) (EventLoop.asked env m s))
      (EventLoop.mkWorld
         (EventLoop.after (EventLoop.run m s))
         (<[i := EventLoop.task_of (EventLoop.pause (EventLoop.run m s))]>
            tasks)
         (evs ++ EventLoop.emitted (EventLoop.run m s)))
    = EventLoop.mkWorld (EventLoop.alone env m s).1.2
        (<[i := EventLoop.Settled (EventLoop.alone env m s).1.1]> tasks)
        (evs ++ (EventLoop.alone env m s).2).
Proof.
  induction m as [a | e | X op k IH | p k IH]; intros s tasks i evs Hi.
  - done.
  - done.
  - cbn [EventLoop.run EventLoop.asked EventLoop.alone].
    destruct (EventLoop.perform op s) as [[x s1] t1].
    specialize (IH x s1 tasks i (evs ++ t1) Hi).
    destruct (EventLoop.run (k x) s1) as [p' s2 t2].
    destruct (EventLoop.alone env (k x) s1) as [[c s3] t3].
    cbn [EventLoop.after EventLoop.pause EventLoop.emitted fst snd] in *.
    by rewrite !app_assoc.
  - cbn [EventLoop.run EventLoop.asked EventLoop.alone map
         EventLoop.after EventLoop.pause EventLoop.emitted
         EventLoop.task_of].
    cbn [EventLoop.exec foldl EventLoop.step EventLoop.tasks].
    rewrite list_lookup_insert_eq by done.
    rewrite accept_answer_of. cbn [EventLoop.store EventLoop.events].
    specialize (IH (EventLoop.settle env p) s tasks i evs Hi).
    destruct (EventLoop.run (k (EventLoop.settle env p)) s) as [p' s2 t2].
    cbn [EventLoop.after EventLoop.pause EventLoop.emitted] in IH.
    rewrite list_insert_insert_eq, app_nil_r. exact IH.
Qed.

Lemma exec_alone env w c :
  EventLoop.exec
    (EventLoop.Invoke c
     :: map (EventLoop.Settle (length (EventLoop.tasks w)))
          (EventLoop.asked env (EventLoop.start c) (EventLoop.store w))) w
  = EventLoop.mkWorld
      (EventLoop.alone env (EventLoop.start c) (EventLoop.store w)).1.2
      (EventLoop.tasks w
       ++ [EventLoop.Settled
             (EventLoop.alone env (EventLoop.start c) (EventLoop.store w)).1.1])
      (EventLoop.events w
       ++ (EventLoop.alone env (EventLoop.start c) (EventLoop.store w)).2).
Proof.
  cbn [EventLoop.exec foldl EventLoop.step].
  pose proof (exec_resume env (EventLoop.start c) (EventLoop.store w)
                (EventLoop.tasks w ++ [EventLoop.Settled (Return EventLoop.Nothing)])
                (length (EventLoop.tasks w)) (EventLoop.events w)) as H.
  destruct (EventLoop.run (EventLoop.start c) (EventLoop.store w))
    as [p s t].
  cbn [EventLoop.after EventLoop.pause EventLoop.emitted] in H.
  rewrite !(insert_app_r_alt _ _ (length (EventLoop.tasks w))) in H by done.
  rewrite Nat.sub_diag in H. cbn [insert list_insert] in H.
  apply H. rewrite length_app. cbn. lia.
Qed.

Lemma alone_start env c s :
  EventLoop.view (EventLoop.alone env (EventLoop.start c) s).1.2
  = match c with
    | EventLoop.CallTool serverName toolName args =>
        final (EventLoop.outcome
                 (EventLoop.alone env
                    (EventLoop.callTool serverName toolName args) s))
    | EventLoop.GetServerInfo =>
        final (EventLoop.outcome
                 (EventLoop.alone env EventLoop.getServerInfo s))
    | EventLoop.GetServerTools serverName =>
        final (EventLoop.outcome
                 (EventLoop.alone env (EventLoop.getServerTools serverName)
                    s))
    | EventLoop.AddServer name pkg args =>
        final (EventLoop.outcome
                 (EventLoop.alone env (EventLoop.addServer name pkg args) s))
    | EventLoop.RemoveServer name =>
        final (EventLoop.outcome
                 (EventLoop.alone env (EventLoop.removeServer name) s))
    end.
Proof.
  assert (Hbind : ∀ A (m : EventLoop.Prog A) (f : A → EventLoop.Reply) s,
            (EventLoop.alone env
               (EventLoop.bind m (λ a, EventLoop.ret (f a))) s).1.2
            = (EventLoop.alone env m s).1.2).
  { intros A m f. induction m as [a | e | X op k IH | p k IH]; intros s';
      cbn [EventLoop.bind EventLoop.alone]; [done | done | | apply IH].
    destruct (EventLoop.perform op s') as [[x s1] t1].
    specialize (IH x s1).
    destruct (EventLoop.alone env (k x) s1) as [[c1 s2] t2].
    by destruct (EventLoop.alone env (EventLoop.bind (k x) _) s1)
      as [[c1' s2'] t2']. }
  assert (Hfinal : ∀ A (r : Completion A * EventLoop.Store * list Event),
            final (EventLoop.outcome r) = EventLoop.view r.1.2).
  { by intros A [[c' s'] t']. }
  rewrite !Hfinal.
  destruct c; unfold EventLoop.start; by rewrite Hbind.
Qed.

Lemma serve_alone rq s :
  EventLoop.well_formed s →
  EventLoop.view
    (EventLoop.alone (request_environment rq)
       (EventLoop.start (request_call rq)) s).1.2
  = serve rq (EventLoop.view s).
Proof.
  intros Hwf. rewrite alone_start.
  destruct rq as [sn tn a rc | | sn | n p a op oc | n ocl op];
    cbn [request_call serve].
  - by rewrite callTool_alone.
  - by rewrite getServerInfo_alone.
  - by rewrite getServerTools_alone.
  - by rewrite addServer_alone.
  - by rewrite removeServer_alone.
Qed.

Lemma exec_app l1 l2 w :
  EventLoop.exec (l1 ++ l2) w = EventLoop.exec l2 (EventLoop.exec l1 w).
Proof. apply foldl_app. Qed.

Lemma serial_schedule_serve_all rqs w :
  EventLoop.well_formed (EventLoop.store w) →
  EventLoop.view (EventLoop.store (EventLoop.exec (serial_schedule rqs w) w))
  = serve_all rqs (EventLoop.view (EventLoop.store w)).
Proof.
  revert w. induction rqs as [|rq rqs IH]; intros w Hwf; [done|].
  cbn [serial_schedule serve_all foldl]. rewrite exec_app.
  unfold serve_actions at 2. rewrite exec_alone.
  unfold serve_actions. rewrite exec_alone.
  rewrite IH; cbn [EventLoop.store].
  - by rewrite serve_alone.
  - by apply (alone_well_formed _ None None None _ (start_tame _)).
Qed.

(** X15.  A method of the event loop whose promises settle at once is the
    method of the first part: called on a store, [callTool],
    [getServerInfo], [getServerTools], [addServer] and [removeServer]
    complete as, send out what, and leave the gateway as the methods that
    run from call to completion do on the gateway the store stands for,
    given the same answers of the outside world.  Such a run is the run of
    the event loop in which the call is made and each promise it awaits
    settles before anything else happens; it leaves the references of the
    store in order, so that the next call can follow.  Requests served one
    after the other, as [serve_all] serves them, are thus a run of the
    event loop.  Every gateway is what some store in order stands for. *)
Theorem methods_alone (s : EventLoop.Store) (env : EventLoop.Environment) :
  EventLoop.well_formed s →
  (∀ serverName toolName args,
     EventLoop.outcome
       (EventLoop.alone env (EventLoop.callTool serverName toolName args) s)
     = callTool serverName toolName args (EventLoop.race env)
         (EventLoop.view s))
  ∧ EventLoop.outcome (EventLoop.alone env EventLoop.getServerInfo s)
    = getServerInfo (EventLoop.view s)
  ∧ (∀ serverName,
       EventLoop.outcome
         (EventLoop.alone env (EventLoop.getServerTools serverName) s)
       = getServerTools serverName (EventLoop.view s))
  ∧ (∀ name pkg args,
       EventLoop.outcome
         (EventLoop.alone env (EventLoop.addServer name pkg args) s)
       = addServer name pkg args (EventLoop.persist_add env)
           (EventLoop.connect env) (EventLoop.view s))
  ∧ (∀ name,
       EventLoop.outcome (EventLoop.alone env (EventLoop.removeServer name) s)
       = removeServer name (EventLoop.close env)
           (EventLoop.persist_remove env) (EventLoop.view s))
  ∧ (∀ c, EventLoop.well_formed
            (EventLoop.alone env (EventLoop.start c) s).1.2)
  ∧ (∀ w c,
       EventLoop.store w = s →
       EventLoop.exec
         (EventLoop.Invoke c
          :: map (EventLoop.Settle (length (EventLoop.tasks w)))
               (EventLoop.asked env (EventLoop.start c) s)) w
       = EventLoop.mkWorld (EventLoop.alone env (EventLoop.start c) s).1.2
           (EventLoop.tasks w
            ++ [EventLoop.Settled
                  (EventLoop.alone env (EventLoop.start c) s).1.1])
           (EventLoop.events w
            ++ (EventLoop.alone env (EventLoop.start c) s).2))
  ∧ (∀ w rqs,
       EventLoop.store w = s →
       EventLoop.view
         (EventLoop.store (EventLoop.exec (serial_schedule rqs w) w))
       = serve_all rqs (EventLoop.view s))
  ∧ ∀ g, EventLoop.well_formed (EventLoop.store (EventLoop.boot g))
         ∧ EventLoop.view (EventLoop.store (EventLoop.boot g)) = g.
Proof.
  intros Hwf. split_and!.
  - intros. by apply callTool_alone.
  - apply getServerInfo_alone.
  - intros. by apply getServerTools_alone.
  - intros. by apply addServer_alone.
  - intros. by apply removeServer_alone.
  - intros c.
    by apply (alone_well_formed env None None None _ (start_tame c)).
  - intros w c <-. apply exec_alone.
  - intros w rqs <-. by apply serial_schedule_serve_all.
  - intros g. split; [apply boot_well_formed | apply view_boot].
Qed.

Lemma methods_alone_witness :
  let env :=
    EventLoop.mkEnvironment PersistResolves
      (ListToolsRejects (ClientObject 2) (Error "Method not found"))
      (TimerFiresFirst None) CloseResolves PersistResolves in
  let s := EventLoop.store (EventLoop.boot (chrome_gateway (Some 30000%Z))) in
  EventLoop.well_formed s
  ∧ EventLoop.outcome
      (EventLoop.alone env (EventLoop.addServer "fs" "fs-package" None) s)
    = addServer "fs" "fs-package" None PersistResolves
        (ListToolsRejects (ClientObject 2) (Error "Method not found"))
        (chrome_gateway (Some 30000%Z))
  ∧ EventLoop.asked env
      (EventLoop.start (EventLoop.AddServer "fs" "fs-package" None)) s
    = [EventLoop.PersistAnswer PersistResolves;
       EventLoop.ConnectAnswer (Return (ClientObject 2));
       EventLoop.ListToolsAnswer (Throw (Error "Method not found"));
       EventLoop.Returned].
Proof.
  intros env s.
  assert (Hwf : EventLoop.well_formed s).
  { unfold EventLoop.well_formed. cbn. constructor; [cbn; lia | constructor]. }
  destruct (methods_alone s env Hwf) as (_ & _ & _ & Hadd & _).
  split_and!; [exact Hwf | | reflexivity].
  rewrite (Hadd "fs" "fs-package" None). reflexivity.
Defined.

(** ** Calls that overlap *)


Lemma exec_cons a l w :
  EventLoop.exec (a :: l) w = EventLoop.exec l (EventLoop.step a w).
Proof. done. Qed.

Ltac world_cbn :=
  cbn [EventLoop.bind EventLoop.try_catch EventLoop.run EventLoop.perform
       EventLoop.store EventLoop.tasks EventLoop.events EventLoop.task_of
       app insert list_insert EventLoop.objects EventLoop.this_servers
       EventLoop.this_config EventLoop.this_configManager].

(** One action of a schedule, computed where the world is known; [tac]
    settles what the program asks of the store. *)
Ltac world_step tac :=
  rewrite exec_cons;
  lazymatch goal with
  | |- context [EventLoop.step ?a ?w] =>
      let H := fresh in
      eassert (H : EventLoop.step a w = _);
      [ cbn [EventLoop.step EventLoop.store EventLoop.tasks EventLoop.events
             lookup list_lookup EventLoop.accept];
        cbv [EventLoop.start EventLoop.callTool EventLoop.getServerInfo
             EventLoop.getServerTools EventLoop.addServer
             EventLoop.removeServer EventLoop.connectServer
             EventLoop.configManager_addServer
             EventLoop.configManager_removeServer EventLoop.client_close
             EventLoop.await_async EventLoop.emit EventLoop.await
             EventLoop.do EventLoop.ret EventLoop.throw];
        world_cbn; tac; world_cbn; reflexivity
      | rewrite H; clear H ]
  end.





(** X17.  A backend can be removed while the [addServer] that registered
    it awaits the connect: the entry has no client yet, so [removeServer]
    closes nothing, deletes the entry and removes the name from the
    configuration.  When the connect then succeeds, [addServer] returns
    normally all the same; the backend is neither registered nor
    configured, and its client is held by an object that is not registered
    and is not closed. *)
Theorem removeServer_during_connect (g : Gateway) (name pkg : string)
    (args : option (list string)) (c : Client) (listed : list Tool.t)
    (now : Date) :
  JsMap.has (servers g) name = false →
  let cfg := ServerConfig.mk name pkg args in
  let w :=
    EventLoop.exec
      [EventLoop.Invoke (EventLoop.AddServer name pkg args);
       EventLoop.Settle 0 (EventLoop.PersistAnswer PersistResolves);
       EventLoop.Invoke (EventLoop.RemoveServer name);
       EventLoop.Settle 1 (EventLoop.PersistAnswer PersistResolves);
       EventLoop.Settle 0 (EventLoop.ConnectAnswer (Return c));
       EventLoop.Settle 0 (EventLoop.ListToolsAnswer (Return (listed, now)));
       EventLoop.Settle 0 EventLoop.Returned]
      (EventLoop.boot g) in
  EventLoop.tasks w
  = [EventLoop.Settled (Return EventLoop.Nothing);
     EventLoop.Settled (Return EventLoop.Nothing)]
  ∧ filter is_persist (EventLoop.events w)
    = [ConfigAddServer name cfg; ConfigRemoveServer name]
  ∧ filter is_close (EventLoop.events w) = []
  ∧ servers (EventLoop.view (EventLoop.store w)) = servers g
  ∧ EventLoop.objects (EventLoop.store w)
    = map snd (servers g) ++ [connected_state cfg c listed now]
  ∧ ConfigManager.persisted
      (configManager (EventLoop.view (EventLoop.store w))) !! name
    = None.
Proof.
  intros Hhas cfg w. subst w.
  assert (Hget : JsMap.get (servers g) name = None)
    by by apply JsMap_has_false.
  pose proof (boot_well_formed g) as Hwf.
  pose proof (EventLoop_entries_boot g) as Hentries.
  assert (Hnew : JsMap.has
                   (EventLoop.this_servers (EventLoop.store (EventLoop.boot g)))
                   name = false).
  { rewrite <- EventLoop_entries_has by done. by rewrite Hentries. }
  unfold EventLoop.boot in *.
  set (objs := map snd (servers g)) in *.
  set (registry := imap _ (servers g)) in *.
  cbn [EventLoop.store EventLoop.this_servers EventLoop.objects] in *.
  world_step ltac:(rewrite Hnew).
  world_step idtac.
  world_step ltac:(rewrite JsMap_get_set,
                     (list_lookup_middle objs [] _ (length objs) eq_refl);
                   cbn [fmap option_fmap option_map ServerState.client]).
  do 4 (world_step idtac).
  cbn [EventLoop.exec foldl EventLoop.tasks EventLoop.events EventLoop.store
       EventLoop.objects EventLoop.view servers configManager app
       EventLoop.this_configManager].
  rewrite !Tool_copy, alter_last.
  cbn [ServerState.config ServerState.lastError].
  fold cfg. fold (connected_state cfg c listed now).
  split_and!; try done.
  - rewrite (JsMap_set_new registry)
      by (apply JsMap_has_false; exact Hnew).
    rewrite JsMap_delete_appended
      by (apply JsMap_has_false; exact Hnew).
    by rewrite (EventLoop_entries_app objs _ registry _ _ Hwf).
  - cbn. apply lookup_delete_eq.
Qed.

Lemma removeServer_during_connect_witness :
  let g := chrome_gateway (Some 30000%Z) in
  let w :=
    EventLoop.exec
      [EventLoop.Invoke (EventLoop.AddServer "fs" "fs-package" None);
       EventLoop.Settle 0 (EventLoop.PersistAnswer PersistResolves);
       EventLoop.Invoke (EventLoop.RemoveServer "fs");
       EventLoop.Settle 1 (EventLoop.PersistAnswer PersistResolves);
       EventLoop.Settle 0 (EventLoop.ConnectAnswer (Return (ClientObject 2)));
       EventLoop.Settle 0
         (EventLoop.ListToolsAnswer
            (Return ([navigate_tool], {| toISOString := "t" |})));
       EventLoop.Settle 0 EventLoop.Returned]
      (EventLoop.boot g) in
  JsMap.has (servers g) "fs" = false
  ∧ EventLoop.tasks w
    = [EventLoop.Settled (Return EventLoop.Nothing);
       EventLoop.Settled (Return EventLoop.Nothing)]
  ∧ map ServerInfo.name (EventLoop.listing w) = ["chrome"]
  ∧ omap ServerState.client (EventLoop.objects (EventLoop.store w))
    = [ClientObject 1; ClientObject 2].
Proof.
  intros g w.
  assert (Hhas : JsMap.has (servers g) "fs" = false) by reflexivity.
  destruct (removeServer_during_connect g "fs" "fs-package" None
              (ClientObject 2) [navigate_tool] {| toISOString := "t" |} Hhas)
    as (Htasks & _ & _ & _ & Hobjects & _).
  fold w in Htasks, Hobjects.
  split_and!; [exact Hhas | exact Htasks | reflexivity |].
  rewrite Hobjects. reflexivity.
Defined.

(** X18.  [callTool] fails fast at every moment, whatever calls are under
    way: for a name that is not registered it throws SERVER_NOT_FOUND, and
    for a backend that is registered but not connected, or that has no
    client, it throws SERVER_DISCONNECTED, at once, without a timer or a
    send and with the gateway as it was; a backend whose connect is still
    awaited is in status 'disconnected' and so among the latter.  For a
    backend that is connected and has a client the call sets the timer,
    makes the send and awaits the race. *)
Theorem callTool_at_any_instant (g : Gateway)
    (schedule : list EventLoop.Action) (serverName toolName : string)
    (args : JsValue) :
  all_settled g →
  let w := EventLoop.exec schedule (EventLoop.boot g) in
  let w' :=
    EventLoop.step
      (EventLoop.Invoke (EventLoop.CallTool serverName toolName args)) w in
  EventLoop.store w' = EventLoop.store w
  ∧ match JsMap.get (servers (EventLoop.view (EventLoop.store w)))
            serverName with
    | None =>
        EventLoop.tasks w'
        = EventLoop.tasks w
          ++ [EventLoop.Settled
                (Throw (Error ("SERVER_NOT_FOUND: Server '" +:+ serverName
                               +:+ "' not found")))]
        ∧ EventLoop.events w' = EventLoop.events w
    | Some st =>
        match Status.eqb (ServerState.status st) Status.connected,
              ServerState.client st with
        | true, Some c =>
            (∃ k, EventLoop.tasks w'
                  = EventLoop.tasks w
                    ++ [EventLoop.Awaiting EventLoop.RacePromise k])
            ∧ EventLoop.events w'
              = EventLoop.events w
                ++ callTool_prologue
                     (timeout_or_default
                        (configured_timeout
                           (EventLoop.view (EventLoop.store w))))
                     c serverName toolName args
        | _, _ =>
            EventLoop.tasks w'
            = EventLoop.tasks w
              ++ [EventLoop.Settled
                    (Throw (Error ("SERVER_DISCONNECTED: Server '"
                                   +:+ serverName
                                   +:+ "' is not connected")))]
            ∧ EventLoop.events w' = EventLoop.events w
        end
    end.
Proof.
  intros Hg w w'.
  destruct (exec_ok schedule (EventLoop.boot g) (boot_ok g Hg))
    as [[_ Hwf] _].
  fold w in Hwf.
  cbn [EventLoop.view servers]. rewrite EventLoop_entries_get by done.
  assert (Hstep : w' = match EventLoop.run
                           (EventLoop.start
                              (EventLoop.CallTool serverName toolName args))
                           (EventLoop.store w) with
                       | EventLoop.mkTurn p s t =>
                           EventLoop.mkWorld s
                             (EventLoop.tasks w ++ [EventLoop.task_of p])
                             (EventLoop.events w ++ t)
                       end) by done.
  clearbody w'. subst w'.
  cbv [EventLoop.start EventLoop.callTool EventLoop.emit EventLoop.await
       EventLoop.do EventLoop.ret EventLoop.throw].
  cbn [EventLoop.bind EventLoop.try_catch EventLoop.run EventLoop.perform].
  destruct (JsMap.get (EventLoop.this_servers (EventLoop.store w)) serverName)
    as [r|]; [|world_cbn; by rewrite app_nil_r].
  destruct (EventLoop.objects (EventLoop.store w) !! r) as [st|];
    cbn [fmap option_fmap option_map];
    [|world_cbn; by rewrite app_nil_r].
  destruct (Status.eqb (ServerState.status st) Status.connected);
    [|world_cbn; by rewrite app_nil_r].
  destruct (ServerState.client st) as [c|];
    [|world_cbn; by rewrite app_nil_r].
  world_cbn. split_and!; [done | by eexists | done].
Qed.

Lemma callTool_at_any_instant_witness :
  let g := chrome_gateway (Some 30000%Z) in
  let w :=
    EventLoop.exec
      [EventLoop.Invoke (EventLoop.AddServer "fs" "fs-package" None);
       EventLoop.Settle 0 (EventLoop.PersistAnswer PersistResolves)]
      (EventLoop.boot g) in
  let w' :=
    EventLoop.step
      (EventLoop.Invoke (EventLoop.CallTool "fs" "read_file" JsNull)) w in
  all_settled g
  ∧ map ServerInfo.status (EventLoop.listing w)
    = [Status.connected; Status.disconnected]
  ∧ EventLoop.tasks w' !! 1
    = Some (EventLoop.Settled
              (Throw (Error "SERVER_DISCONNECTED: Server 'fs' is not connected")))
  ∧ EventLoop.events w' = EventLoop.events w.
Proof.
  intros g w w'.
  assert (Hg : all_settled g).
  { unfold all_settled, JsMap.entries. cbn.
    constructor; [|constructor]. split; [done|]. left. by split_and!. }
  destruct (callTool_at_any_instant g
              [EventLoop.Invoke (EventLoop.AddServer "fs" "fs-package" None);
               EventLoop.Settle 0 (EventLoop.PersistAnswer PersistResolves)]
              "fs" "read_file" JsNull Hg) as [_ Hcall].
  cbn in Hcall. destruct Hcall as [Htasks Hevents].
  split_and!; [exact Hg | reflexivity | | exact Hevents].
  unfold w'. fold w in Htasks.
  change (EventLoop.tasks
            (EventLoop.step
               (EventLoop.Invoke (EventLoop.CallTool "fs" "read_file" JsNull))
               w) !! 1)
    with (EventLoop.tasks w' !! 1).
  reflexivity.
Defined.
